(** * run_predictors.py: work partitioning and reuse of prior predictions

    A shallow embedding of
    [downloads-generation/data_mass_spec_benchmark/run_predictors.py]:
    the block finder [blocks_of_ones], the generation of work items in a
    fresh and in a reuse run, the packing of work items into tasks, the
    merge of worker results into the result matrix, and the per-column
    store ([write_col] / [load_results]).

    Python exceptions are values of [exn]; a computation that may raise
    returns a [result].  The [while] loop of [blocks_of_ones] runs on fuel
    and is shown to need no more than one unit per true cell.  The number
    of chunks is computed as the code computes it, from a float quotient,
    and an assignment into the result matrix broadcasts its values as
    pandas does. *)

From Stdlib Require Import ZArith Lia Ascii.
From stdpp Require Import base option list gmap strings sorting.

Set Default Proof Using "Type".

(** ** Exceptions *)

Inductive exn : Type :=
  | AssertionError
  | ValueError
  | ZeroDivisionError
  | KeyError
  | IndexError
  | FileNotFoundError
  | ReferenceError.

Inductive result (A : Type) : Type :=
  | Ok (a : A)
  | Raise (e : exn).
Arguments Ok {A} a.
Arguments Raise {A} e.

Definition bind {A B : Type} (r : result A) (k : A → result B) : result B :=
  match r with
  | Ok a => k a
  | Raise e => Raise e
  end.

Notation "x ←! r ; k" := (bind r (λ x, k))
  (at level 20, r at level 100, k at level 200, right associativity,
   format "x  ←!  r ;  '/' k").

(** ** The part of numpy the program uses *)

Module Numpy.

(** A two-dimensional boolean array: its shape and its cells in row-major
    order, as [arr.ravel()] lists them. *)
Record ndarray : Type := NDArray {
  shape0 : nat;
  shape1 : nat;
  data : list bool
}.

Definition well_shaped (a : ndarray) : Prop :=
  length (data a) = shape0 a * shape1 a.

(** The array with the given rows (the literal [numpy.array(rows)]). *)
Definition of_rows (rows : list (list bool)) : ndarray :=
  {| shape0 := length rows;
     shape1 := match rows with [] => 0 | r :: _ => length r end;
     data := concat rows |}.

(** [l.sum()] of a boolean vector: the number of true entries. *)
Fixpoint np_sum (l : list bool) : nat :=
  match l with
  | [] => 0
  | b :: l' => (if b then 1 else 0) + np_sum l'
  end.

(** [l.argmax()] of a boolean vector: the first index that holds the
    maximum, that is the first true entry, and 0 when all are false. *)
Definition argmax (l : list bool) : nat :=
  match list_find (λ b, b = true) l with
  | Some (i, _) => i
  | None => 0
  end.

(** [numpy.unravel_index(i, (s0, s1))]. *)
Definition unravel_index (i : nat) (s1 : nat) : nat * nat :=
  (i / s1, i `mod` s1).

(** [a[x, y]]; every use below is within bounds. *)
Definition getitem (a : ndarray) (x y : nat) : bool :=
  default false (data a !! (x * shape1 a + y)).

(** [a[lo:hi, y]]: a slice stops at the array's edge. *)
Definition col_slice (a : ndarray) (lo hi y : nat) : list bool :=
  (λ x, getitem a x y) <$> seq lo (hi `min` shape0 a - lo).

(** [(v == 0)] and [(v == 1).all()] on a boolean vector. *)
Definition eq_zero (v : list bool) : list bool := negb <$> v.
Definition all_one (v : list bool) : bool := forallb id v.

(** [numpy.array_split(ary, n)] for an integer [n]: [n] sections, the first
    [len % n] of them one longer than the others; [ValueError] when
    [n <= 0]. *)
Fixpoint cumsum_from (acc : nat) (l : list nat) : list nat :=
  match l with
  | [] => []
  | x :: l' => (acc + x) :: cumsum_from (acc + x) l'
  end.

Definition section_sizes (ntotal nsections : nat) : list nat :=
  let neach := ntotal / nsections in
  let extras := ntotal `mod` nsections in
  0 :: replicate extras (neach + 1) ++ replicate (nsections - extras) neach.

Definition slice {A : Type} (l : list A) (st en : nat) : list A :=
  take (en - st) (drop st l).

Definition array_split {A : Type} (ary : list A) (n : Z)
  : result (list (list A)) :=
  if (n <=? 0)%Z then Raise ValueError
  else
    let nsections := Z.to_nat n in
    let div_points := cumsum_from 0 (section_sizes (length ary) nsections) in
    Ok ((λ i, slice ary (default 0 (div_points !! i))
                        (default 0 (div_points !! S i)))
          <$> seq 0 nsections).

End Numpy.

(** ** True division of ints *)

Module Float.

(** A finite binary64 value is a whole multiple of the least positive
    one, 2^-1074; a float is kept as that multiple, so that [one] is the
    float 1.0. *)
Definition one : Z := 2 ^ 1074.

(** The quotient [num / den] rounded to the nearest integer, a tie going
    to the even one. *)
Definition round_half_even (num den : Z) : Z :=
  let q := (num / den)%Z in
  let r := (num mod den)%Z in
  if (2 * r <? den)%Z then q
  else if (den <? 2 * r)%Z then (q + 1)%Z
  else if Z.even q then q else (q + 1)%Z.

(** [a / b] on two ints: the binary64 value nearest to the quotient, a tie
    going to the even mantissa; a quotient below half the least positive
    value gives 0.0.  The mantissa has 53 bits, so the last place of a
    quotient of [2^l] or more least values is worth [2^(l - 52)] of them.
    The dividend here is a [len(..)], which is below 2^63: the quotient is
    never too large for a float and [OverflowError] is left out. *)
Definition true_divide (a b : Z) : result Z :=
  if (b =? 0)%Z then Raise ZeroDivisionError
  else
    let num := (Z.abs a * one)%Z in
    let den := Z.abs b in
    let g := Z.max 0 (Z.log2 (num / den) - 52) in
    Ok (Z.sgn a * Z.sgn b * (round_half_even num (den * 2 ^ g) * 2 ^ g))%Z.

(** [math.ceil(x)], an int. *)
Definition ceil (x : Z) : Z := (- (- x / one))%Z.

End Float.

(** ** blocks_of_ones *)

Module Blocks.
Import Numpy.

(** A block [(x1, y1, x2, y2)], all four indices inclusive. *)
Record block : Type := Block {
  blk0 : nat;
  blk1 : nat;
  blk2 : nat;
  blk3 : nat
}.

Definition in_block (b : block) (x y : nat) : bool :=
  (blk0 b <=? x) && (x <=? blk2 b) && (blk1 b <=? y) && (y <=? blk3 b).

(** [(x1, y1) = numpy.unravel_index(arr.argmax(), arr.shape)] *)
Definition seed (a : ndarray) : nat * nat :=
  unravel_index (argmax (data a)) (shape1 a).

(** Extend in the first dimension: the value given to [block[2]]. *)
Definition extend_down (a : ndarray) (x1 y1 : nat) : result nat :=
  let down_stop :=
    (Z.of_nat (argmax (eq_zero (col_slice a x1 (shape0 a) y1))) - 1)%Z in
  if (down_stop =? -1)%Z then Ok (shape0 a - 1)
  else if (0 <=? down_stop)%Z then Ok (x1 + Z.to_nat down_stop)
  else Raise AssertionError.

(** Extend in the second dimension: the [for i in range(y1, shape[1])]
    loop, which keeps the last [i] whose column is all ones. *)
Definition extend_right (a : ndarray) (x1 x2 y1 : nat) : nat :=
  fold_left
    (λ b3 i, if all_one (col_slice a x1 (x2 + 1) i) then i else b3)
    (seq y1 (shape1 a - y1)) y1.

(** [(arr[b0 : b2 + 1, b1 : b3 + 1] == 1).all()] *)
Definition block_all_one (a : ndarray) (b : block) : bool :=
  forallb (λ y, all_one (col_slice a (blk0 b) (blk2 b + 1) y))
          (seq (blk1 b) ((blk3 b + 1) `min` shape1 a - blk1 b)).

(** [arr[b0 : b2 + 1, b1 : b3 + 1] = 0] *)
Definition zero_out (a : ndarray) (b : block) : ndarray :=
  {| shape0 := shape0 a;
     shape1 := shape1 a;
     data := imap (λ k v,
               let '(x, y) := unravel_index k (shape1 a) in
               if in_block b x y then false else v) (data a) |}.

(** One pass through the body of the [while] loop on the array held in
    [arr]: the block found and the array after it is zeroed. *)
Definition loop_body (a : ndarray) : result (block * ndarray) :=
  let '(x1, y1) := seed a in
  x2 ←! extend_down a x1 y1;
  let y2 := extend_right a x1 x2 y1 in
  let b := Block x1 y1 x2 y2 in
  if block_all_one a b then Ok (b, zero_out a b)
  else Raise AssertionError.

(** Arrays are objects: a variable holds a reference into a store. *)
Definition loc : Type := nat.
Abbreviation heap := (gmap loc ndarray).

(** [arr.copy()]: a new object with the same contents. *)
Definition copy (h : heap) (arr : loc) : result (heap * loc) :=
  match h !! arr with
  | Some a => let l := fresh (dom h) in Ok (<[l := a]> h, l)
  | None => Raise ReferenceError
  end.

(** [while arr.sum() > 0: ...]; [None] when the fuel runs out. *)
Fixpoint while_loop (fuel : nat) (h : heap) (arr : loc) (blocks : list block)
  : option (heap * result (list block)) :=
  match fuel with
  | 0 => None
  | S fuel' =>
      match h !! arr with
      | None => Some (h, Raise ReferenceError)
      | Some a =>
          if 0 <? np_sum (data a) then
            match loop_body a with
            | Ok (b, a') =>
                while_loop fuel' (<[arr := a']> h) arr (blocks ++ [b])
            | Raise e => Some (h, Raise e)
            end
          else Some (h, Ok blocks)
      end
  end.

Definition blocks_of_ones_fuel (fuel : nat) (h : heap) (arr : loc)
  : option (heap * result (list block)) :=
  match copy h arr with
  | Ok (h1, arr1) => while_loop fuel h1 arr1 []
  | Raise e => Some (h, Raise e)
  end.

(** The fuel that always suffices: one pass per true cell, and the last
    test of the loop condition. *)
Definition blocks_of_ones (h : heap) (arr : loc)
  : option (heap * result (list block)) :=
  blocks_of_ones_fuel
    (S (np_sum (from_option data [] (h !! arr)))) h arr.

End Blocks.

Import Numpy Blocks.


(** ** The part of pandas the program uses *)

Module Pandas.

(** A float32 cell: NaN, or a number given by its bit pattern. *)
Inductive float32 : Type :=
  | NaN
  | Num (bits : Z).

Definition isnull (v : float32) : bool :=
  match v with NaN => true | Num _ => false end.

(** A frame of float32 columns: row labels, column labels in order, and
    the values of each column, aligned with the row labels. *)
Record DataFrame : Type := Frame {
  index : list string;
  columns : list string;
  col_data : gmap string (list float32)
}.

(** [DataFrame(index=.., columns=.., dtype="float32")] followed by
    [df[:] = numpy.nan]. *)
Definition nan_frame (idx cols : list string) : DataFrame :=
  {| index := idx;
     columns := cols;
     col_data :=
       list_to_map ((λ c, (c, replicate (length idx) NaN)) <$> cols) |}.

(** Assigning [v] at every row labelled [p] of one column. *)
Definition set_label (idx : list string) (col : list float32)
    (pv : string * float32) : list float32 :=
  zip_with (λ q old, if decide (q = pv.1) then pv.2 else old) idx col.

(** An array of values given the shape of the [n] cells it is assigned
    to: as many values as cells are taken one each, a single value goes to
    every cell, and any other number of values is a [ValueError]. *)
Definition broadcast_to {A : Type} (n : nat) (vals : list A)
  : result (list A) :=
  if length vals =? n then Ok vals
  else match vals with
       | [v] => Ok (replicate n v)
       | _ => Raise ValueError
       end.

(** [df.loc[labels, col] = vals], [vals] being an array.  The values are
    broadcast to the rows selected ([ValueError] when they cannot be) and
    every label must be a row label ([KeyError]); a column label that is
    new adds a column of NaN first. *)
Definition loc_setitem (df : DataFrame) (labels : list string) (col : string)
    (vals : list float32) : result DataFrame :=
  vals ←! broadcast_to (length labels) vals;
  if negb (forallb (λ p, bool_decide (p ∈ index df)) labels)
  then Raise KeyError
  else
    let old := default (replicate (length (index df)) NaN)
                       (col_data df !! col) in
    Ok {| index := index df;
          columns := if bool_decide (col ∈ columns df) then columns df
                     else columns df ++ [col];
          col_data :=
            <[col := fold_left (set_label (index df)) (zip labels vals) old]>
              (col_data df) |}.

(** The frames the program builds: unique row labels, and exactly one
    column of values, as long as the index, per column label. *)
Definition well_formed (df : DataFrame) : Prop :=
  NoDup (index df) ∧
  (∀ c, is_Some (col_data df !! c) ↔ c ∈ columns df) ∧
  (∀ c v, col_data df !! c = Some v → length v = length (index df)).

(** [df[col].values] *)
Definition column_values (df : DataFrame) (col : string)
  : result (list float32) :=
  match col_data df !! col with
  | Some v => Ok v
  | None => Raise KeyError
  end.

(** The cell at row position [i] of column [col], when there is one. *)
Definition cell (df : DataFrame) (i : nat) (col : string) : option float32 :=
  col_data df !! col ≫= (.!! i).

(** [s.isin(values).values] *)
Definition isin (s values : list string) : list bool :=
  (λ p, bool_decide (p ∈ values)) <$> s.

(** [v[mask]] for a boolean mask: [IndexError] unless the mask is as long
    as [v]. *)
Definition mask_select {A : Type} (v : list A) (mask : list bool)
  : result (list A) :=
  if length v =? length mask
  then Ok (fst <$> filter (λ xb, xb.2 = true) (zip v mask))
  else Raise IndexError.

End Pandas.

(** ** Strings and paths *)

Module Str.

(** [s.replace(c, by)] for a one-character pattern. *)
Fixpoint replace (c : Ascii.ascii) (by_ : string) (s : string) : string :=
  match s with
  | EmptyString => EmptyString
  | String d s' =>
      if Ascii.eqb d c then by_ +:+ replace c by_ s'
      else String d (replace c by_ s')
  end.

End Str.

(** A [for] loop whose body may raise. *)
Fixpoint for_each {A S : Type} (body : S → A → result S) (s : S) (l : list A)
  : result S :=
  match l with
  | [] => Ok s
  | x :: l' => s' ←! body s x; for_each body s' l'
  end.

(** ** The on-disk store *)

Module Store.
Import Pandas.

Record manifest_row : Type := Row {
  allele : string;
  kind : string;
  col : string;
  path : string
}.

(** [alleles.csv] as read back: its rows, and whether the file has the
    [kind] and [col] columns (old style data has neither). *)
Record manifest_csv : Type := Manifest {
  has_kind : bool;
  has_col : bool;
  rows : list manifest_row
}.

(** A directory: [os.path.join(dirname, name)] is the entry [name] of the
    directory [dirname].  The per-column files hold one array each. *)
Record directory : Type := Dir {
  peptides_csv : option (list string);
  alleles_csv : option manifest_csv;
  npz : gmap string (list float32)
}.

Abbreviation filesystem := (gmap string directory).

Definition empty_dir : directory :=
  {| peptides_csv := None; alleles_csv := None; npz := ∅ |}.

(** [os.path.exists(dirname)] *)
Definition exists_ (fs : filesystem) (dirname : string) : bool :=
  bool_decide (is_Some (fs !! dirname)).

(** [open(...)] / [pandas.read_csv(...)] of a file that may be absent. *)
Definition read {A : Type} (f : option A) : result A :=
  match f with
  | Some a => Ok a
  | None => Raise FileNotFoundError
  end.

(** The adjustments for old style data. *)
Definition adjust (m : manifest_csv) : list manifest_row :=
  let with_kind :=
    if has_kind m then rows m
    else (λ r, Row (allele r) "affinity" (col r) (path r)) <$> rows m in
  if has_col m then with_kind
  else (λ r, Row (allele r) (kind r) (allele r +:+ " " +:+ kind r) (path r))
         <$> with_kind.

Definition load_column (d : directory) (mask : option (list bool))
    (peptides_to_assign : list string) (result_df : DataFrame)
    (row : manifest_row) : result DataFrame :=
  value ←! read (npz d !! path row);
  value ←! match mask with
           | Some m => mask_select value m
           | None => Ok value
           end;
  loc_setitem result_df peptides_to_assign (col row) value.

Definition load_results (fs : filesystem) (dirname : string)
    (result_df : option DataFrame) : result DataFrame :=
  d ←! read (fs !! dirname);
  peptides ←! read (peptides_csv d);
  manifest ←! read (alleles_csv d);
  let manifest_df := adjust manifest in
  match result_df with
  | None =>
      for_each (load_column d None peptides)
               (nan_frame peptides (col <$> manifest_df)) manifest_df
  | Some result_df =>
      let manifest_df :=
        filter (λ r, col r ∈ columns result_df) manifest_df in
      let mask := isin peptides (index result_df) in
      peptides_to_assign ←! mask_select peptides mask;
      for_each (load_column d (Some mask) peptides_to_assign)
               result_df manifest_df
  end.

End Store.

(** ** run *)

Module Run.
Import Numpy Blocks Pandas Store.

Inductive predictor : Type := mhcflurry | netmhcpan4.

Definition PREDICTOR_TO_COLS (p : predictor) : list string :=
  match p with
  | mhcflurry => ["affinity"]
  | netmhcpan4 => ["affinity"; "percentile_rank"; "elution_score"]
  end.

(** [s.replace("*", "").replace(" ", ".") + ".npz"] *)
Definition filename_of_col (s : string) : string :=
  Str.replace " "%char "." (Str.replace "*"%char "" s) +:+ ".npz".

(** The manifest written to [alleles.csv]. *)
Definition new_manifest (alleles : list string) (p : predictor)
  : list manifest_row :=
  a ← alleles;
  k ← PREDICTOR_TO_COLS p;
  let c := a +:+ " " +:+ k in
  [Row a k c (filename_of_col c)].

(** [manifest_df.set_index("col").path] *)
Definition col_to_filename (manifest_df : list manifest_row)
  : gmap string string :=
  list_to_map ((λ r, (col r, path r)) <$> manifest_df).

(** Creating the output directory when there is none, and writing
    [peptides.csv] and [alleles.csv] to it. *)
Definition write_lists (fs : filesystem) (out : string)
    (peptides : list string) (manifest_df : list manifest_row)
  : filesystem :=
  let d := default empty_dir (fs !! out) in
  <[out := {| peptides_csv := Some peptides;
              alleles_csv := Some (Manifest true true manifest_df);
              npz := npz d |}]> fs.

(** [write_col(col)]: [numpy.savez(out_path, result_df[col].values)]. *)
Definition write_col (out : string) (files : gmap string string)
    (result_df : DataFrame) (fs : filesystem) (c : string)
  : result filesystem :=
  name ←! match files !! c with
          | Some n => Ok n
          | None => Raise KeyError
          end;
  values ←! column_values result_df c;
  d ←! read (fs !! out);
  Ok (<[out := {| peptides_csv := peptides_csv d;
                  alleles_csv := alleles_csv d;
                  npz := <[name := values]> (npz d) |}]> fs).

(** The final write: [for col in result_df.columns: write_col(col)]. *)
Definition write_all (out : string) (files : gmap string string)
    (result_df : DataFrame) (fs : filesystem) : result filesystem :=
  for_each (write_col out files result_df) fs (columns result_df).

(** Loading the predictions to reuse.  The second component collects what
    is printed. *)
Definition reuse_step (fs : filesystem) (st : DataFrame * list string)
    (dirname : string) : result (DataFrame * list string) :=
  let '(result_df, printed) := st in
  if bool_decide (dirname = "") then Ok st
  else if exists_ fs dirname then
    result_df ←! load_results fs dirname (Some result_df);
    Ok (result_df, printed ++ ["Loading predictions " +:+ dirname])
  else
    Ok (result_df,
        printed ++ ["WARNING: skipping because does not exist " +:+ dirname]).

Definition load_reused (fs : filesystem) (reuse_predictions : list string)
    (result_df : DataFrame) : result (DataFrame * list string) :=
  for_each (reuse_step fs) (result_df, []) reuse_predictions.

(** [is_null_matrix.values]: one row per peptide, one column per allele,
    true where any column of the allele is null.  Every column of the
    manifest is a column of [result_df]. *)
Definition is_null_cell (result_df : DataFrame)
    (manifest_df : list manifest_row) (i : nat) (a : string) : bool :=
  existsb (λ r, from_option isnull true (cell result_df i (col r)))
          (filter (λ r, allele r = a) manifest_df).

Definition is_null_matrix (result_df : DataFrame)
    (manifest_df : list manifest_row) (alleles : list string) : ndarray :=
  {| shape0 := length (index result_df);
     shape1 := length alleles;
     data := i ← seq 0 (length (index result_df));
             (is_null_cell result_df manifest_df i) <$> alleles |}.

(** *** Work items *)

Record work_item : Type := WorkItem {
  alleles : list string;
  peptides : list string;
  work_item_num : option nat
}.

(** [int(math.ceil(n / chunk_size))], [n] being a length: the quotient
    is a float. *)
Definition ceil_ratio (n : nat) (chunk_size : Z) : result Z :=
  x ←! Float.true_divide (Z.of_nat n) chunk_size;
  Ok (Float.ceil x).

(** The work items of one block in a reuse run. *)
Definition block_work_items (peptides : list string)
    (result_df_index is_null_columns : list string) (chunk_size : Z)
    (work_items : list work_item) (b : block) : result (list work_item) :=
  let '(Block row_index1 col_index1 row_index2 col_index2) := b in
  let block_alleles := slice is_null_columns col_index1 (col_index2 + 1) in
  let block_peptides := slice result_df_index row_index1 (row_index2 + 1) in
  num_chunks ←! ceil_ratio (length block_peptides) chunk_size;
  peptide_chunks ←! array_split peptides num_chunks;
  Ok (work_items ++
      ((λ chunk_peptides, WorkItem block_alleles chunk_peptides None)
         <$> peptide_chunks)).

Definition reuse_work_items (peptides : list string)
    (result_df_index is_null_columns : list string) (chunk_size : Z)
    (blocks : list block) : result (list work_item) :=
  for_each
    (block_work_items peptides result_df_index is_null_columns chunk_size)
    [] blocks.

(** The work items of a fresh run: the same chunks for all alleles. *)
Definition fresh_chunks (peptides : list string) (chunk_size : Z)
  : result (list (list string)) :=
  num_chunks ←! ceil_ratio (length peptides) chunk_size;
  array_split peptides num_chunks.

Definition fresh_work_items (peptides : list string) (alleles : list string)
    (chunk_size : Z) : result (list work_item) :=
  peptide_chunks ←! fresh_chunks peptides chunk_size;
  Ok ((λ chunk_peptides, WorkItem alleles chunk_peptides None)
        <$> peptide_chunks).

(** [for (i, work_item) in enumerate(work_items):
       work_item["work_item_num"] = i] *)
Definition number_work_items (work_items : list work_item)
  : list work_item :=
  imap (λ i w, WorkItem (alleles w) (peptides w) (Some i)) work_items.

(** *** Tasks *)

(** [sorted(l, key=key)]: a stable sort. *)
Fixpoint insert_by {A : Type} (key : A → nat) (x : A) (l : list A)
  : list A :=
  match l with
  | [] => [x]
  | y :: l' =>
      if key x <=? key y then x :: y :: l' else y :: insert_by key x l'
  end.

Definition sorted {A : Type} (key : A → nat) (l : list A) : list A :=
  foldr (insert_by key) [] l.

Record task : Type := Task { work_item_dicts : list work_item }.

(** [tasks[-1]['work_item_dicts'].append(work_item)] *)
Definition append_to_last (tasks : list task) (w : work_item)
  : result (list task) :=
  match last tasks with
  | Some _ =>
      Ok (alter (λ t, Task (work_item_dicts t ++ [w]))
                (length tasks - 1) tasks)
  | None => Raise IndexError
  end.

Definition pack_step (chunk_size : Z) (st : list task * option nat)
    (w : work_item) : result (list task * option nat) :=
  let '(tasks, peptides_in_last_task) := st in
  match peptides_in_last_task with
  | Some n =>
      if (Z.of_nat (length (peptides w)) + Z.of_nat n <? chunk_size)%Z then
        tasks ←! append_to_last tasks w;
        Ok (tasks, Some (n + length (peptides w)))
      else Ok (tasks ++ [Task [w]], Some (length (peptides w)))
  | None => Ok (tasks ++ [Task [w]], Some (length (peptides w)))
  end.

Definition make_tasks (chunk_size : Z) (work_items : list work_item)
  : result (list task) :=
  st ←! for_each (pack_step chunk_size) ([], None)
          (sorted (λ d, length (peptides d)) work_items);
  Ok st.1.

(** The number of peptides of a task. *)
Definition task_peptides (t : task) : nat :=
  sum_list ((λ w, length (peptides w)) <$> work_item_dicts t).

(** A task is within the bound when its peptides are fewer than the chunk
    size, or it is one work item that alone reaches the chunk size. *)
Definition within_bound (chunk_size : Z) (t : task) : Prop :=
  (Z.of_nat (task_peptides t) < chunk_size)%Z ∨
  ∃ w, work_item_dicts t = [w] ∧
       (chunk_size ≤ Z.of_nat (length (peptides w)))%Z.

(** What holds of the tasks and of [peptides_in_last_task] between two
    passes of the packing loop, [done_] being the work items seen. *)
Definition packed (chunk_size : Z) (done_ : list work_item)
    (st : list task * option nat) : Prop :=
  concat (work_item_dicts <$> st.1) = done_ ∧
  Forall (λ t, work_item_dicts t ≠ []) st.1 ∧
  Forall (within_bound chunk_size) st.1 ∧
  match st.2 with
  | None => st.1 = []
  | Some n => ∃ t, last st.1 = Some t ∧ task_peptides t = n
  end.

(** *** Merging the results *)

(** The state the merge loop updates.  [time.time()] is read from a clock
    given as the sequence of its readings, in seconds. *)
Record merge_state : Type := MergeState {
  result_df : DataFrame;
  disk : filesystem;
  last_write_time_per_column : gmap string Z;
  clock_reads : nat
}.

Section Merge.
Variable clock : nat → Z.
Variable out : string.
Variable files : gmap string string.
Variable work_items : list work_item.

(** The body of [for (col, predictions) in col_to_predictions.items()]. *)
Definition merge_column (work_item_num : nat) (st : merge_state)
    (cp : string * list float32) : result merge_state :=
  let '(c, predictions) := cp in
  w ←! match work_items !! work_item_num with
       | Some w => Ok w
       | None => Raise IndexError
       end;
  df ←! loc_setitem (result_df st) (peptides w) c predictions;
  last ←! match last_write_time_per_column st !! c with
          | Some t => Ok t
          | None => Raise KeyError
          end;
  if (180 <? clock (clock_reads st) - last)%Z then
    fs ←! write_col out files df (disk st) c;
    Ok {| result_df := df;
          disk := fs;
          last_write_time_per_column :=
            <[c := clock (S (clock_reads st))]>
              (last_write_time_per_column st);
          clock_reads := S (S (clock_reads st)) |}
  else
    Ok {| result_df := df;
          disk := disk st;
          last_write_time_per_column := last_write_time_per_column st;
          clock_reads := S (clock_reads st) |}.

(** Merging one [(work_item_num, col_to_predictions)]. *)
Definition merge_result (st : merge_state)
    (r : nat * list (string * list float32)) : result merge_state :=
  for_each (merge_column r.1) st r.2.

(** [for worker_results in results: for ... in worker_results: ...] *)
Definition merge_results (st : merge_state)
    (results : list (list (nat * list (string * list float32))))
  : result merge_state :=
  for_each (for_each merge_result) st results.
End Merge.

End Run.

(** ** What the blocks found cover *)

Module BlockCover.
Import Numpy Blocks.

(** Some block of the list holds the cell [(x, y)]. *)
Definition covers (blocks : list block) (x y : nat) : Prop :=
  ∃ b, b ∈ blocks ∧ in_block b x y = true.

(** No cell is in two blocks of the list. *)
Definition disjoint_blocks (blocks : list block) : Prop :=
  ∀ i j b b' x y, i ≠ j → blocks !! i = Some b → blocks !! j = Some b' →
    in_block b x y = true → in_block b' x y = true → False.

(** The corners of the block are in order and inside the array. *)
Definition in_bounds (a : ndarray) (b : block) : Prop :=
  blk0 b ≤ blk2 b < shape0 a ∧ blk1 b ≤ blk3 b < shape1 a.

(** What holds between two passes of the loop of [blocks_of_ones], [a0]
    being the input, [a] the working copy and [blocks] the blocks so far:
    the true cells of the input are those still true in the copy and those
    of the blocks, and the cells of the blocks are zero in the copy. *)
Definition cover_inv (a0 a : ndarray) (blocks : list block) : Prop :=
  shape0 a = shape0 a0 ∧ shape1 a = shape1 a0 ∧ well_shaped a ∧
  Forall (in_bounds a0) blocks ∧ disjoint_blocks blocks ∧
  ∀ x y, x < shape0 a0 → y < shape1 a0 →
    (getitem a0 x y = true ↔ getitem a x y = true ∨ covers blocks x y) ∧
    (covers blocks x y → getitem a x y = false).

End BlockCover.

(** ** How tightly the tasks are packed *)

Module Packing.
Import Run.

(** A task follows another only when its first work item did not fit:
    together with the peptides of the task before it reaches the chunk
    size. *)
Definition tight (chunk_size : Z) (tasks : list task) : Prop :=
  ∀ i t t' w, tasks !! i = Some t → tasks !! S i = Some t' →
    head (work_item_dicts t') = Some w →
    (chunk_size ≤ Z.of_nat (task_peptides t)
                  + Z.of_nat (length (peptides w)))%Z.

End Packing.

(** ** Characters of a file name *)

Module Chars.

(** [c in s] for a character [c]. *)
Fixpoint contains (c : Ascii.ascii) (s : string) : bool :=
  match s with
  | EmptyString => false
  | String d s' => Ascii.eqb d c || contains c s'
  end.

End Chars.

(** ** The prediction functions *)

Module Predictions.
Import Pandas Run.

(** [d[k] = v] on a dict, kept as the list of its items in insertion
    order: a key already there keeps its place and takes the new value. *)
Fixpoint dict_set {V : Type} (d : list (string * V)) (k : string) (v : V)
  : list (string * V) :=
  match d with
  | [] => [(k, v)]
  | (k', v') :: d' =>
      if decide (k' = k) then (k, v) :: d' else (k', v') :: dict_set d' k v
  end.

(** The body of the loop over the work items of [do_predictions_mhcflurry]
    for one work item.  [predict peptides allele] stands for
    [predictor.predict(peptides=peptides, allele=allele, throw=False,
    ...).astype('float32')], the predictor being the models loaded. *)
Definition predict_work_item (predict : list string → string → list float32)
    (d : work_item) : result (nat * list (string * list float32)) :=
  work_item_num ←! match work_item_num d with
                   | Some n => Ok n
                   | None => Raise KeyError
                   end;
  Ok (work_item_num,
      fold_left
        (λ result allele,
           fold_left
             (λ result c,
                dict_set result (allele +:+ " " +:+ c)
                         (predict (peptides d) allele))
             ["affinity"] result)
        (alleles d) []).

(** [do_predictions_mhcflurry(work_item_dicts, constant_data)], with
    [constant_data['args'].predictor] and [constant_data['cols']]. *)
Definition do_predictions_mhcflurry (args_predictor : predictor)
    (cols : list string) (predict : list string → string → list float32)
    (work_item_dicts : list work_item)
  : result (list (nat * list (string * list float32))) :=
  match args_predictor with
  | netmhcpan4 => Raise AssertionError
  | mhcflurry =>
      if negb (bool_decide (cols = ["affinity"])) then Raise AssertionError
      else
        for_each
          (λ results d, r ←! predict_work_item predict d; Ok (results ++ [r]))
          [] work_item_dicts
  end.

End Predictions.

(** ** Small runs used as examples below *)

Module Examples.
Import Numpy Blocks Pandas Store Run.

Definition peptides3 : list string := ["AAAA"; "CCCC"; "DDDD"].

(** One allele, of which the middle peptide alone is still missing. *)
Definition manifest_A : list manifest_row := new_manifest ["A"] mhcflurry.

Definition reused_A : DataFrame :=
  {| index := peptides3;
     columns := col <$> manifest_A;
     col_data := {[ "A affinity" := [Num 1; NaN; Num 3] ]} |}.

(** Two alleles, nothing computed yet, the lists written to [out]. *)
Definition manifest_AB : list manifest_row :=
  new_manifest ["A"; "B"] mhcflurry.

Definition merge_start : merge_state :=
  {| result_df := nan_frame peptides3 (col <$> manifest_AB);
     disk := write_lists ∅ "out" peptides3 manifest_AB;
     last_write_time_per_column :=
       {[ "A affinity" := 0%Z; "B affinity" := 0%Z ]};
     clock_reads := 0 |}.

Definition two_work_items : list work_item :=
  number_work_items
    [WorkItem ["A"] ["AAAA"; "CCCC"] None; WorkItem ["A"] ["DDDD"] None].

(** A directory to reuse that exists and holds no peptide file. *)
Definition broken_fs : filesystem := {[ "prior" := empty_dir ]}.

(** Two allele names whose columns are written to the same file. *)
Definition manifest_clash : list manifest_row :=
  new_manifest ["A"; "A*"] mhcflurry.

Definition filled_clash : DataFrame :=
  {| index := ["AAAA"];
     columns := col <$> manifest_clash;
     col_data := {[ "A affinity" := [Num 1]; "A* affinity" := [Num 2] ]} |}.

(** A matrix with values in both columns. *)
Definition filled_AB : DataFrame :=
  {| index := peptides3;
     columns := col <$> manifest_AB;
     col_data := {[ "A affinity" := [Num 1; NaN; Num 3];
                    "B affinity" := [NaN; Num 5; NaN] ]} |}.

(** A prior run over other peptides, in another order, for the allele A. *)
Definition prior_peptides : list string := ["CCCC"; "EEEE"; "AAAA"].

Definition prior_fs : filesystem :=
  {[ "prior" :=
       {| peptides_csv := Some prior_peptides;
          alleles_csv := Some (Manifest true true manifest_A);
          npz := {[ "A.affinity.npz" := [Num 10; Num 20; Num 30] ]} |} ]}.

(** The same run with the column file gone. *)
Definition unwanted_fs : filesystem :=
  {[ "prior" :=
       {| peptides_csv := Some prior_peptides;
          alleles_csv := Some (Manifest true true manifest_A);
          npz := ∅ |} ]}.

(** The same run with a column file that holds a single value. *)
Definition one_value_fs : filesystem :=
  {[ "prior" :=
       {| peptides_csv := Some prior_peptides;
          alleles_csv := Some (Manifest true true manifest_A);
          npz := {[ "A.affinity.npz" := [Num 10] ]} |} ]}.

(** The same run in the old style: a manifest without [kind] and [col]. *)
Definition old_style_fs : filesystem :=
  {[ "prior" :=
       {| peptides_csv := Some prior_peptides;
          alleles_csv :=
            Some (Manifest false false [Row "A" "" "" "A.affinity.npz"]);
          npz := {[ "A.affinity.npz" := [Num 10; Num 20; Num 30] ]} |} ]}.

End Examples.

(** * Properties *)

Import Numpy Blocks BlockCover Pandas Store Run Packing Chars Predictions.

(** ** Boolean vectors *)

Section BoolVectors.

Lemma np_sum_zero_iff (l : list bool) :
  np_sum l = 0 ↔ Forall (λ b, b ≠ true) l.
Proof.
  induction l as [|[] l IH]; simpl.
  - split; [constructor | done].
  - split; [lia | inversion 1; congruence].
  - rewrite IH. split; [by constructor | by inversion 1].
Qed.

Lemma argmax_true (l : list bool) :
  0 < np_sum l → l !! argmax l = Some true.
Proof.
  intros Hpos. unfold argmax.
  destruct (list_find _ l) as [[i b]|] eqn:Hfind.
  - apply list_find_Some in Hfind as (Hi & -> & _). exact Hi.
  - apply list_find_None in Hfind. apply np_sum_zero_iff in Hfind. lia.
Qed.

Lemma argmax_first (l : list bool) (j : nat) :
  j < argmax l → l !! j = Some true → False.
Proof.
  unfold argmax. intros Hlt Hj.
  destruct (list_find _ l) as [[i b]|] eqn:Hfind; [|lia].
  apply list_find_Some in Hfind as (_ & _ & Hbefore).
  by apply (Hbefore j true).
Qed.

(** Clearing the entries selected by [P] never adds a true entry, and
    removes one when it clears a true entry. *)
Lemma np_sum_clear_le (P : nat → bool) (l : list bool) :
  np_sum (imap (λ k v, if P k then false else v) l) ≤ np_sum l.
Proof.
  revert P. induction l as [|b l IH]; intros P; simpl; [done|].
  specialize (IH (P ∘ S)). unfold compose in *.
  destruct (P 0), b; simpl; lia.
Qed.

Lemma np_sum_clear_lt (P : nat → bool) (l : list bool) (k : nat) :
  l !! k = Some true → P k = true →
  np_sum (imap (λ k v, if P k then false else v) l) < np_sum l.
Proof.
  revert P k. induction l as [|b l IH]; intros P k Hk HP; [done|].
  simpl. destruct k as [|k]; simpl in Hk.
  - injection Hk as ->. rewrite HP. simpl.
    pose proof (np_sum_clear_le (P ∘ S) l) as Hle. unfold compose in *. lia.
  - specialize (IH (P ∘ S) k Hk HP). unfold compose in *.
    destruct (P 0), b; simpl; lia.
Qed.

End BoolVectors.

(** ** blocks_of_ones *)

Section BlocksOfOnes.

Lemma zero_out_well_shaped (a : ndarray) (b : block) :
  well_shaped a → well_shaped (zero_out a b).
Proof. unfold well_shaped. simpl. by rewrite length_imap. Qed.

Lemma seed_in_bounds (a : ndarray) :
  well_shaped a → 0 < np_sum (data a) →
  (seed a).1 < shape0 a ∧ (seed a).2 < shape1 a ∧
  data a !! argmax (data a) = Some true ∧
  getitem a (seed a).1 (seed a).2 = true.
Proof.
  intros Hwf Hpos. pose proof (argmax_true _ Hpos) as Hk.
  pose proof (lookup_lt_Some _ _ _ Hk) as Hlt. rewrite Hwf in Hlt.
  assert (shape1 a ≠ 0) as Hs1 by (intros E; rewrite E in Hlt; lia).
  unfold seed, unravel_index, getitem. simpl.
  split_and!.
  - apply Nat.Div0.div_lt_upper_bound. lia.
  - by apply Nat.mod_upper_bound.
  - done.
  - replace (_ * _ + _) with (argmax (data a)); [by rewrite Hk|].
    rewrite (Nat.div_mod_eq (argmax (data a)) (shape1 a)) at 1. lia.
Qed.

Lemma extend_down_ge (a : ndarray) (x1 y1 x2 : nat) :
  x1 < shape0 a → extend_down a x1 y1 = Ok x2 → x1 ≤ x2.
Proof.
  unfold extend_down. intros Hx.
  repeat case_match; intros [= <-]; lia.
Qed.

Lemma extend_right_ge (a : ndarray) (x1 x2 y1 : nat) :
  y1 ≤ extend_right a x1 x2 y1.
Proof.
  unfold extend_right.
  generalize (shape1 a - y1). intros n.
  assert (∀ l init, Forall (λ i, y1 ≤ i) l → y1 ≤ init →
    y1 ≤ fold_left
           (λ b3 i, if all_one (col_slice a x1 (x2 + 1) i) then i else b3)
           l init) as Hfold.
  { induction l as [|i l IH]; intros init Hall Hinit; simpl; [done|].
    inversion Hall; subst. apply IH; [done|]. by case_match. }
  apply Hfold; [|done].
  apply Forall_forall. intros i Hi%list_elem_of_In%in_seq. lia.
Qed.

(** A pass of the loop that does not raise zeroes a block that holds the
    seed, so the array loses a true cell. *)
Lemma loop_body_decreases (a a' : ndarray) (b : block) :
  well_shaped a → 0 < np_sum (data a) → loop_body a = Ok (b, a') →
  in_block b (seed a).1 (seed a).2 = true ∧
  getitem a (seed a).1 (seed a).2 = true ∧
  np_sum (data a') < np_sum (data a) ∧
  well_shaped a'.
Proof.
  intros Hwf Hpos Hbody.
  destruct (seed_in_bounds a Hwf Hpos) as (Hx & Hy & Hk & Hget).
  unfold loop_body in Hbody.
  destruct (seed a) as [x1 y1] eqn:Hseed. simpl in Hx, Hy, Hget.
  destruct (extend_down a x1 y1) as [x2|] eqn:Hdown; simpl in Hbody; [|done].
  destruct (block_all_one _ _); [|done].
  injection Hbody as <- <-.
  pose proof (extend_down_ge _ _ _ _ Hx Hdown) as Hx2.
  pose proof (extend_right_ge a x1 x2 y1) as Hy2.
  assert (in_block (Block x1 y1 x2 (extend_right a x1 x2 y1)) x1 y1 = true)
    as Hin.
  { unfold in_block. simpl.
    by rewrite !andb_true_iff, !Nat.leb_le. }
  split_and!; [done | done | | by apply zero_out_well_shaped].
  simpl.
  apply (np_sum_clear_lt
           (λ k, in_block (Block x1 y1 x2 (extend_right a x1 x2 y1))
                          (k / shape1 a) (k `mod` shape1 a))
           (data a) (argmax (data a)) Hk).
  unfold seed, unravel_index in Hseed. injection Hseed as -> ->. done.
Qed.

(** More fuel does not change what the loop computes. *)
Lemma while_loop_more_fuel (fuel fuel' : nat) (h : heap) (arr : loc)
    (blocks : list block) (r : heap * result (list block)) :
  fuel ≤ fuel' →
  while_loop fuel h arr blocks = Some r →
  while_loop fuel' h arr blocks = Some r.
Proof.
  revert fuel' h blocks.
  induction fuel as [|fuel IH]; intros fuel' h blocks Hle Hrun; [done|].
  destruct fuel' as [|fuel']; [lia|].
  simpl in *. repeat case_match; try done.
  apply IH; [lia | done].
Qed.

(** One unit of fuel per true cell, and one more, is enough. *)
Lemma while_loop_terminates (fuel : nat) (h : heap) (arr : loc)
    (a : ndarray) (blocks : list block) :
  h !! arr = Some a → well_shaped a → np_sum (data a) < fuel →
  is_Some (while_loop fuel h arr blocks).
Proof.
  revert h a blocks.
  induction fuel as [|fuel IH]; intros h a blocks Harr Hwf Hfuel; [lia|].
  simpl. rewrite Harr.
  destruct (0 <? np_sum (data a)) eqn:Hpos; [|by eexists].
  apply Nat.ltb_lt in Hpos.
  destruct (loop_body a) as [[b a']|e] eqn:Hbody; [|by eexists].
  destruct (loop_body_decreases a a' b Hwf Hpos Hbody) as (_ & _ & Hlt & Hwf').
  apply (IH _ a'); [by rewrite lookup_insert_eq | done | lia].
Qed.

(** The loop writes to the object [arr] only. *)
Lemma while_loop_frame (fuel : nat) (h h' : heap) (arr l : loc)
    (blocks : list block) (r : result (list block)) :
  while_loop fuel h arr blocks = Some (h', r) → l ≠ arr →
  h' !! l = h !! l.
Proof.
  revert h blocks.
  induction fuel as [|fuel IH]; intros h blocks Hrun Hne; [done|].
  simpl in Hrun. repeat case_match; simplify_eq; try done.
  rewrite (IH _ _ Hrun Hne). by rewrite lookup_insert_ne.
Qed.

Lemma copy_fresh (h : heap) (arr : loc) (a : ndarray) :
  h !! arr = Some a →
  copy h arr = Ok (<[fresh (dom h) := a]> h, fresh (dom h)) ∧
  fresh (dom h) ≠ arr.
Proof.
  intros Harr. unfold copy. rewrite Harr. split; [done|].
  intros E. apply (is_fresh (dom h)). rewrite E.
  apply elem_of_dom. by eexists.
Qed.

End BlocksOfOnes.

(** C7: [blocks_of_ones] terminates on every boolean matrix.  The call
    returns or raises within one unit of fuel per true cell and one more,
    further fuel changes nothing, and every pass of the loop that zeroes a
    block zeroes the true seed cell with it, so the number of true cells of
    the working matrix strictly decreases. *)
Theorem blocks_of_ones_terminates (h : heap) (arr : loc) (a : ndarray) :
  h !! arr = Some a → well_shaped a →
  (∃ h' r, blocks_of_ones h arr = Some (h', r)) ∧
  (∀ fuel, np_sum (data a) < fuel →
     blocks_of_ones_fuel fuel h arr = blocks_of_ones h arr) ∧
  (∀ w w' b, well_shaped w → 0 < np_sum (data w) → loop_body w = Ok (b, w') →
     in_block b (seed w).1 (seed w).2 = true ∧
     getitem w (seed w).1 (seed w).2 = true ∧
     np_sum (data w') < np_sum (data w) ∧
     well_shaped w').
Proof.
  intros Harr Hwf.
  destruct (copy_fresh h arr a Harr) as [Hcopy Hne].
  assert (∀ fuel, np_sum (data a) < fuel →
            is_Some (blocks_of_ones_fuel fuel h arr)) as Hterm.
  { intros fuel Hfuel. unfold blocks_of_ones_fuel. rewrite Hcopy.
    apply (while_loop_terminates _ _ _ a); [by rewrite lookup_insert_eq|done..]. }
  assert (blocks_of_ones h arr
          = blocks_of_ones_fuel (S (np_sum (data a))) h arr) as Hdef.
  { unfold blocks_of_ones. by rewrite Harr. }
  split_and!.
  - destruct (Hterm (S (np_sum (data a)))) as [[h' r] Hrun]; [lia|].
    exists h', r. by rewrite Hdef.
  - intros fuel Hfuel. rewrite Hdef.
    destruct (Hterm (S (np_sum (data a)))) as [res Hrun]; [lia|].
    rewrite Hrun. unfold blocks_of_ones_fuel in *. rewrite Hcopy in *.
    apply (while_loop_more_fuel (S (np_sum (data a)))); [lia | done].
  - intros w w' b. apply loop_body_decreases.
Qed.

Lemma blocks_of_ones_terminates_witness :
  let a := of_rows [[true; true; false]; [true; true; false];
                    [false; false; true]] in
  ({[ 0 := a ]} : heap) !! 0 = Some a ∧ well_shaped a ∧
  ∃ h' r, blocks_of_ones {[ 0 := a ]} 0 = Some (h', r).
Proof.
  intros a. split; [reflexivity|]. split; [reflexivity|].
  apply (blocks_of_ones_terminates {[ 0 := a ]} 0 a); reflexivity.
Defined.

(** C8: [blocks_of_ones] never modifies its input.  When the call ends,
    by returning or by raising, the caller's array object holds what it
    held before the call, cell for cell, and so does every other object
    that existed before: the loop zeroes cells of the copy only. *)
Theorem blocks_of_ones_preserves_input (h : heap) (arr : loc) (a : ndarray) :
  h !! arr = Some a → well_shaped a →
  ∃ h' r, blocks_of_ones h arr = Some (h', r) ∧
    h' !! arr = Some a ∧
    (∀ x y, from_option (λ a', getitem a' x y) false (h' !! arr)
            = getitem a x y) ∧
    (∀ l, l ∈ dom h → h' !! l = h !! l).
Proof.
  intros Harr Hwf.
  destruct (copy_fresh h arr a Harr) as [Hcopy Hne].
  assert (is_Some (blocks_of_ones h arr)) as [[h' r] Hrun].
  { unfold blocks_of_ones, blocks_of_ones_fuel. rewrite Harr, Hcopy.
    apply (while_loop_terminates _ _ _ a);
      [by rewrite lookup_insert_eq | done | simpl; lia]. }
  exists h', r. split; [done|].
  unfold blocks_of_ones, blocks_of_ones_fuel in Hrun. rewrite Hcopy in Hrun.
  assert (∀ l, l ∈ dom h → h' !! l = h !! l) as Hframe.
  { intros l Hl.
    assert (l ≠ fresh (dom h)) as Hl'.
    { intros ->. by apply (is_fresh (dom h)). }
    rewrite (while_loop_frame _ _ _ _ _ _ _ Hrun Hl').
    by rewrite lookup_insert_ne. }
  assert (h' !! arr = Some a) as Harr'.
  { rewrite Hframe; [done|]. apply elem_of_dom. by eexists. }
  split_and!; [done | | done].
  intros x y. by rewrite Harr'.
Qed.

Lemma blocks_of_ones_preserves_input_witness :
  let a := of_rows [[false; true; true]; [true; true; false];
                    [true; true; true]] in
  ({[ 0 := a ]} : heap) !! 0 = Some a ∧ well_shaped a ∧
  ∃ h' r, blocks_of_ones {[ 0 := a ]} 0 = Some (h', r) ∧ h' !! 0 = Some a.
Proof.
  intros a. split; [reflexivity|]. split; [reflexivity|].
  destruct (blocks_of_ones_preserves_input {[ 0 := a ]} 0 a)
    as (h' & r & Hrun & Hsame & _); [reflexivity..|].
  exists h', r. split; [exact Hrun | exact Hsame].
Defined.

(** C1: on the matrix [[1, 0, 1]] (one peptide, the middle allele already
    computed) the search to the right runs past the zero to the last column
    of ones, the block found is not all ones, and the assertion before the
    zeroing fails: [blocks_of_ones] raises [AssertionError] and returns no
    blocks. *)
Lemma blocks_of_ones_raises_on_gap :
  well_shaped (of_rows [[true; false; true]]) ∧
  loop_body (of_rows [[true; false; true]]) = Raise AssertionError ∧
  extend_right (of_rows [[true; false; true]]) 0 0 0 = 2 ∧
  snd <$> blocks_of_ones {[ 0 := of_rows [[true; false; true]] ]} 0
  = Some (Raise AssertionError).
Proof. by vm_compute. Qed.

(** ** array_split *)

Section ArraySplit.
Context {A : Type}.

(** The slices between consecutive division points are the consecutive
    pieces of the list. *)
Lemma slices_concat (l : list A) (sizes : list nat) (acc : nat) :
  concat ((λ i, slice l (default 0 ((acc :: cumsum_from acc sizes) !! i))
                        (default 0 ((acc :: cumsum_from acc sizes) !! S i)))
            <$> seq 0 (length sizes))
  = take (sum_list sizes) (drop acc l).
Proof.
  revert acc. induction sizes as [|s sizes IH]; intros acc; [done|].
  cbn [length seq fmap list_fmap concat cumsum_from sum_list sum_list_with].
  unfold id.
  rewrite <- fmap_S_seq, <- list_fmap_compose.
  rewrite <- take_take_drop, drop_drop. f_equal.
  - unfold slice. simpl. f_equal. lia.
  - exact (IH (acc + s)).
Qed.

Lemma section_sizes_sum (ntotal nsections : nat) :
  nsections ≠ 0 →
  ∃ sizes, section_sizes ntotal nsections = 0 :: sizes ∧
    length sizes = nsections ∧ sum_list sizes = ntotal.
Proof.
  intros Hn. unfold section_sizes. eexists. split; [done|].
  pose proof (Nat.mod_upper_bound ntotal nsections Hn) as Hmod.
  pose proof (Nat.div_mod_eq ntotal nsections) as Hdiv.
  rewrite length_app, !length_replicate, sum_list_with_app, !sum_list_replicate.
  split; [lia | nia].
Qed.

Lemma array_split_spec (ary : list A) (n : Z) :
  (0 < n)%Z →
  ∃ chunks, array_split ary n = Ok chunks ∧
    length chunks = Z.to_nat n ∧ concat chunks = ary.
Proof.
  intros Hn. unfold array_split.
  destruct (Z.leb_spec n 0) as [|_]; [lia|].
  destruct (section_sizes_sum (length ary) (Z.to_nat n))
    as (sizes & -> & Hlen & Hsum); [lia|].
  eexists. split; [done|]. split.
  - by rewrite length_fmap, length_seq.
  - rewrite <- Hlen.
    change (cumsum_from 0 (0 :: sizes)) with (0 :: cumsum_from 0 sizes).
    rewrite (slices_concat ary sizes 0), Hsum. simpl. apply firstn_all.
Qed.

Lemma array_split_raises (ary : list A) (n : Z) :
  (n ≤ 0)%Z → array_split ary n = Raise ValueError.
Proof.
  intros Hn. unfold array_split. by destruct (Z.leb_spec n 0); [|lia].
Qed.

End ArraySplit.

(** ** The number of chunks *)

Section FloatFacts.
Local Open Scope Z_scope.

Lemma round_half_even_spec (num den : Z) :
  0 ≤ num → 0 < den →
  ∃ q r, num = q * den + r ∧ 0 ≤ r < den ∧ 0 ≤ q ∧
    (2 * r < den → Float.round_half_even num den = q) ∧
    (den < 2 * r → Float.round_half_even num den = q + 1) ∧
    (2 * r = den → Z.even q = true → Float.round_half_even num den = q) ∧
    (q ≤ Float.round_half_even num den ≤ q + 1).
Proof.
  intros Hnum Hden. exists (num / den), (num mod den).
  pose proof (Z.div_mod num den ltac:(lia)) as Hdiv.
  pose proof (Z.mod_pos_bound num den Hden) as Hmod.
  pose proof (Z.div_pos num den Hnum Hden) as Hq.
  unfold Float.round_half_even.
  destruct (Z.ltb_spec (2 * (num mod den)) den);
    destruct (Z.ltb_spec den (2 * (num mod den)));
    destruct (Z.even (num / den)); repeat split; lia || done.
Qed.

(** The least integer that is no less than [x / t]. *)
Lemma ceil_between (x t k : Z) :
  0 < t → (k - 1) * t < x ≤ k * t → - (- x / t) = k.
Proof.
  intros Ht Hx.
  pose proof (Z.div_mod (- x) t ltac:(lia)) as Hdiv.
  pose proof (Z.mod_pos_bound (- x) t Ht) as Hmod.
  nia.
Qed.

(** Rounding the quotient [a / b] to a last place worth [g] least values
    does not move it past an integer, given that the last place is fine
    enough: half of it is less than [1 / b], or the quotient is below one
    and more than half a last place. *)
Lemma nearest_quotient_ceil (a b k one g : Z) :
  0 < a → 0 < b → 0 < g → 0 < one →
  (k - 1) * b < a ≤ k * b →
  (∃ t, one = t * g ∧ 0 < t ∧ (b < 2 * t ∨ (k = 1 ∧ b < 2 * a * t))) →
  - (- (Float.round_half_even (a * one) (b * g) * g) / one) = k.
Proof.
  intros Ha Hb Hg Hone Hk (t & -> & Ht & Hprec).
  destruct (round_half_even_spec (a * (t * g)) (b * g) ltac:(nia) ltac:(nia))
    as (q & r & Hdiv & Hr & Hq & Hlow & Hup & _ & Hm).
  set (m := Float.round_half_even _ _) in *.
  apply ceil_between; [nia|].
  assert (0 ≤ k * t - q) as Hq1 by nia.
  assert (0 ≤ q - (k - 1) * t) as Hq3 by nia.
  split.
  - destruct (Z.eq_dec q ((k - 1) * t)) as [Heq|Hne]; [|nia].
    assert (r = (a - (k - 1) * b) * t * g) as Hreq by nia.
    assert (b * g < 2 * r) as Hgt.
    { rewrite Hreq. destruct Hprec as [Hprec|[-> Hprec]]; nia. }
    specialize (Hup Hgt). nia.
  - destruct (Z.eq_dec q (k * t)) as [Heq|Hne]; [|nia].
    assert (r = 0) as -> by nia.
    rewrite Hlow by nia. nia.
Qed.

(** For a length below 2^53 and a positive chunk size that is not so
    large that the quotient rounds to 0.0, the float quotient rounded up
    is the exact quotient rounded up. *)
Lemma ceil_ratio_spec (n : nat) (chunk_size : Z) :
  0 < chunk_size → 0 < Z.of_nat n < 2 ^ 53 →
  chunk_size < Z.of_nat n * 2 ^ 1075 →
  ∃ k, ceil_ratio n chunk_size = Ok k ∧
    Z.of_nat n ≤ k * chunk_size ∧ (k - 1) * chunk_size < Z.of_nat n.
Proof.
  intros Hc [Hn Hn53] Hbig. unfold ceil_ratio, Float.true_divide.
  destruct (Z.eqb_spec chunk_size 0) as [|_]; [lia|]. cbn [bind].
  set (a := Z.of_nat n) in *. set (b := chunk_size) in *.
  rewrite (Z.abs_eq a), (Z.abs_eq b) by lia.
  rewrite (Z.sgn_pos a), (Z.sgn_pos b), !Z.mul_1_l by lia.
  set (k := - (- a / b)).
  assert ((k - 1) * b < a ≤ k * b) as Hk.
  { pose proof (Z.div_mod (- a) b ltac:(lia)) as Hdiv.
    pose proof (Z.mod_pos_bound (- a) b Hc) as Hmod. unfold k. nia. }
  exists k. split; [|lia]. f_equal. unfold Float.ceil.
  set (L := Z.log2 (a * Float.one / b)).
  set (g := Z.max 0 (L - 52)).
  assert (0 < Float.one) as Hone by (unfold Float.one; lia).
  assert (0 ≤ L < 1127) as HL.
  { split; [apply Z.log2_nonneg|].
    destruct (Z.eq_dec (a * Float.one / b) 0) as [Hz|Hnz].
    - unfold L. rewrite Hz. simpl. lia.
    - pose proof (Z.div_pos (a * Float.one) b ltac:(nia) Hc).
      apply Z.log2_lt_pow2; [lia|].
      apply Z.le_lt_trans with (a * Float.one).
      + apply Z.div_le_upper_bound; [lia|]. nia.
      + change (2 ^ 1127) with (2 ^ 53 * Float.one). nia. }
  assert (0 ≤ g ≤ 1074) as Hg by lia.
  assert (Float.one = 2 ^ (1074 - g) * 2 ^ g) as Hsplit.
  { rewrite <- Z.pow_add_r by lia. unfold Float.one. f_equal. lia. }
  assert (0 < 2 ^ g) as Hpg by (apply Z.pow_pos_nonneg; lia).
  assert (0 < 2 ^ (1074 - g)) as Hpt by (apply Z.pow_pos_nonneg; lia).
  apply nearest_quotient_ceil; [done..|].
  exists (2 ^ (1074 - g)). split; [done|]. split; [done|].
  destruct (Z.le_gt_cases L 52) as [Hsmall|Hlarge].
  - assert (g = 0) as Hg0 by lia.
    rewrite Hg0, Z.sub_0_r. change (2 ^ 1074) with Float.one.
    destruct (Z.eq_dec k 1) as [Hk1|Hk1].
    + right. split; [done|].
      change (2 ^ 1075) with (2 * Float.one) in Hbig. lia.
    + left. assert (2 ^ 53 ≤ 2 * Float.one) by (unfold Float.one; lia). nia.
  - left. assert (g = L - 52) as Hg1 by lia.
    assert (0 < a * Float.one / b) as Hpos.
    { destruct (Z.eq_dec (a * Float.one / b) 0) as [Hz|Hnz].
      - unfold L in Hlarge. rewrite Hz in Hlarge. simpl in Hlarge. lia.
      - pose proof (Z.div_pos (a * Float.one) b ltac:(nia) Hc). lia. }
    pose proof (Z.log2_spec _ Hpos) as [Hlow _]. fold L in Hlow.
    assert (2 ^ L = 2 ^ 52 * 2 ^ g) as HL2.
    { rewrite <- Z.pow_add_r by lia. f_equal. lia. }
    assert (b * 2 ^ L ≤ a * Float.one) as Hle.
    { pose proof (Z.div_mod (a * Float.one) b ltac:(lia)) as Hdiv.
      pose proof (Z.mod_pos_bound (a * Float.one) b Hc) as Hmod. nia. }
    rewrite HL2, Hsplit in Hle.
    assert (b * 2 ^ 52 ≤ a * 2 ^ (1074 - g)) as Hle' by nia.
    assert (2 ^ 53 = 2 * 2 ^ 52) as H53 by done.
    nia.
Qed.

(** A quotient of at most half the least positive float is 0.0: no
    chunks are asked for. *)
Lemma ceil_ratio_underflow (n : nat) (chunk_size : Z) :
  Z.of_nat n * 2 ^ 1075 ≤ chunk_size → chunk_size ≠ 0 →
  ceil_ratio n chunk_size = Ok 0.
Proof.
  intros Hbig Hc. unfold ceil_ratio, Float.true_divide.
  destruct (Z.eqb_spec chunk_size 0) as [|_]; [lia|]. cbn [bind].
  set (a := Z.of_nat n) in *. set (b := chunk_size) in *.
  assert (0 ≤ a) as Ha by lia. assert (0 < b) as Hb by lia.
  rewrite (Z.abs_eq a), (Z.abs_eq b) by lia.
  assert (0 < Float.one) as Hone by (unfold Float.one; lia).
  change (2 ^ 1075) with (2 * Float.one) in Hbig.
  assert (a * Float.one / b = 0) as Hq.
  { apply Z.div_small. nia. }
  rewrite Hq. simpl Z.log2. simpl Z.max. rewrite Z.pow_0_r, !Z.mul_1_r.
  destruct (round_half_even_spec (a * Float.one) b ltac:(nia) Hb)
    as (q & r & Hdiv & Hr & Hq0 & Hlow & _ & Htie & _).
  assert (q = 0) as -> by nia.
  assert (Float.round_half_even (a * Float.one) b = 0) as ->.
  { destruct (Z.eq_dec (2 * r) b); [by apply Htie | apply Hlow; nia]. }
  f_equal. unfold Float.ceil. rewrite Z.mul_0_r. done.
Qed.

(** The quotient by a negative chunk size, rounded up, is not positive. *)
Lemma ceil_ratio_nonpos (n : nat) (chunk_size : Z) :
  chunk_size < 0 → ∃ k, ceil_ratio n chunk_size = Ok k ∧ k ≤ 0.
Proof.
  intros Hc. unfold ceil_ratio, Float.true_divide.
  destruct (Z.eqb_spec chunk_size 0) as [|_]; [lia|]. cbn [bind].
  eexists. split; [done|]. unfold Float.ceil.
  set (g := Z.max 0 _).
  assert (0 < Float.one) as Hone by (unfold Float.one; lia).
  assert (0 < 2 ^ g) as Hpg by (apply Z.pow_pos_nonneg; lia).
  destruct (round_half_even_spec (Z.abs (Z.of_nat n) * Float.one)
              (Z.abs chunk_size * 2 ^ g) ltac:(nia) ltac:(nia))
    as (q & r & _ & _ & Hq & _ & _ & _ & Hm).
  set (m := Float.round_half_even _ _) in *.
  rewrite (Z.sgn_neg chunk_size) by lia.
  assert (0 ≤ Z.sgn (Z.of_nat n)) as Hs.
  { destruct n; simpl; lia. }
  apply Z.opp_nonpos_nonneg. apply Z.div_pos; [|done]. nia.
Qed.

(** The number of chunks for a positive chunk size and a length below
    2^53: none when there is nothing to split or the chunk size is out of
    proportion, the exact quotient rounded up otherwise. *)
Lemma ceil_ratio_cases (n : nat) (chunk_size : Z) :
  0 < chunk_size → Z.of_nat n < 2 ^ 53 →
  (ceil_ratio n chunk_size = Ok 0 ∧ Z.of_nat n * 2 ^ 1075 ≤ chunk_size) ∨
  (∃ k, ceil_ratio n chunk_size = Ok k ∧ 0 < k ∧ 0 < Z.of_nat n ∧
     chunk_size < Z.of_nat n * 2 ^ 1075 ∧
     Z.of_nat n ≤ k * chunk_size ∧ (k - 1) * chunk_size < Z.of_nat n).
Proof.
  intros Hc Hn.
  destruct (Z.le_gt_cases (Z.of_nat n * 2 ^ 1075) chunk_size) as [Hbig|Hfit].
  - left. split; [|done]. apply ceil_ratio_underflow; lia.
  - right. assert (0 < Z.of_nat n) as Hpos by lia.
    destruct (ceil_ratio_spec n chunk_size Hc ltac:(lia) ltac:(lia))
      as (k & Hk & Hup & Hlow).
    exists k. split_and!; [done | nia | done..].
Qed.

End FloatFacts.

(** ** Work items of a fresh run *)

(** C5 (as stated): with no peptides the number of chunks asked for is
    zero, [numpy.array_split] refuses it, and the run raises [ValueError]
    rather than going on with zero chunks. *)
Lemma fresh_chunks_empty_raises :
  fresh_chunks [] 100000 = Raise ValueError ∧
  ¬ ∃ chunks, fresh_chunks [] 100000 = Ok chunks ∧ length chunks = 0.
Proof.
  split; [by vm_compute|]. intros (chunks & Hrun & _).
  vm_compute in Hrun. discriminate Hrun.
Qed.

(** C5 (amended): on a fresh run with N peptides, 0 < N < 2^53, and a
    chunk size C with 1 <= C < N * 2^1075, the peptide chunks laid end to
    end are the peptide sequence (contiguous, every peptide once, in the
    original order) and there are exactly ceil(N / C) of them.  With
    N = 0, and with a chunk size of N * 2^1075 or more (for which the
    float quotient N / C is 0.0), no chunks are produced: the split into
    zero sections raises [ValueError]. *)
Theorem fresh_chunks_partition (peptides : list string) (chunk_size : Z) :
  (0 < chunk_size)%Z →
  (peptides ≠ [] → (Z.of_nat (length peptides) < 2 ^ 53)%Z →
   (chunk_size < Z.of_nat (length peptides) * 2 ^ 1075)%Z →
   ∃ chunks, fresh_chunks peptides chunk_size = Ok chunks ∧
     concat chunks = peptides ∧
     (Z.of_nat (length peptides) ≤ Z.of_nat (length chunks) * chunk_size)%Z ∧
     ((Z.of_nat (length chunks) - 1) * chunk_size
      < Z.of_nat (length peptides))%Z) ∧
  (peptides = [] → fresh_chunks peptides chunk_size = Raise ValueError) ∧
  ((Z.of_nat (length peptides) * 2 ^ 1075 ≤ chunk_size)%Z →
   fresh_chunks peptides chunk_size = Raise ValueError).
Proof.
  intros Hc.
  assert ((Z.of_nat (length peptides) * 2 ^ 1075 ≤ chunk_size)%Z →
          fresh_chunks peptides chunk_size = Raise ValueError) as Hnone.
  { intros Hbig. unfold fresh_chunks.
    rewrite ceil_ratio_underflow by lia. simpl.
    by apply array_split_raises. }
  split_and!; [|intros ->; apply Hnone; simpl; lia | done].
  intros Hne Hn Hfit. unfold fresh_chunks.
  assert (0 < length peptides) by (destruct peptides; [done | simpl; lia]).
  destruct (ceil_ratio_spec (length peptides) chunk_size Hc ltac:(lia) Hfit)
    as (k & -> & Hup & Hlow).
  simpl.
  assert (0 < k)%Z as Hk by nia.
  destruct (array_split_spec peptides k Hk) as (chunks & -> & Hlen & Hcat).
  exists chunks. rewrite Hlen, Z2Nat.id by lia. done.
Qed.

Lemma fresh_chunks_partition_witness :
  (0 < 2)%Z ∧ ["AAAA"; "CCCC"; "DDDD"; "EEEE"; "FFFF"] ≠ [] ∧
  (∃ chunks, fresh_chunks ["AAAA"; "CCCC"; "DDDD"; "EEEE"; "FFFF"] 2 = Ok chunks ∧
    concat chunks = ["AAAA"; "CCCC"; "DDDD"; "EEEE"; "FFFF"] ∧
    length chunks = 3) ∧
  fresh_chunks ["AAAA"; "CCCC"; "DDDD"] (10 ^ 400) = Raise ValueError.
Proof.
  split; [lia|]. split; [done|].
  destruct (fresh_chunks_partition
              ["AAAA"; "CCCC"; "DDDD"; "EEEE"; "FFFF"] 2 ltac:(lia))
    as [Hsome _].
  destruct (fresh_chunks_partition ["AAAA"; "CCCC"; "DDDD"] (10 ^ 400)
              ltac:(lia)) as (_ & _ & Hnone).
  split.
  - destruct Hsome as (chunks & Hrun & Hcat & Hup & Hlow);
      [done | simpl; lia | simpl; lia |].
    exists chunks. simpl in Hup, Hlow. split_and!; [done | done | lia].
  - apply Hnone. simpl. lia.
Defined.

(** ** Tasks *)

Section Tasks.
Variable chunk_size : Z.

Lemma task_peptides_app (ws : list work_item) (w : work_item) :
  task_peptides (Task (ws ++ [w]))
  = task_peptides (Task ws) + length (peptides w).
Proof.
  unfold task_peptides. simpl.
  rewrite fmap_app, sum_list_with_app. simpl. lia.
Qed.

Lemma new_task_packed (done_ : list work_item) (tasks : list task)
    (last_ : option nat) (w : work_item) :
  packed chunk_size done_ (tasks, last_) →
  packed chunk_size (done_ ++ [w])
         (tasks ++ [Task [w]], Some (length (peptides w))).
Proof.
  intros (Hcat & Hne & Hbound & _). unfold packed. simpl in *.
  split_and!.
  - rewrite fmap_app, concat_app, Hcat. simpl. done.
  - apply Forall_app. split; [done|]. by repeat constructor.
  - apply Forall_app. split; [done|]. apply Forall_singleton.
    unfold within_bound, task_peptides. simpl.
    destruct (Z.lt_ge_cases (Z.of_nat (length (peptides w))) chunk_size);
      [left; lia | right; eauto].
  - exists (Task [w]). rewrite last_snoc. split; [done|].
    unfold task_peptides. simpl. lia.
Qed.

Lemma pack_step_packed (done_ : list work_item)
    (st : list task * option nat) (w : work_item) :
  packed chunk_size done_ st →
  ∃ st', pack_step chunk_size st w = Ok st' ∧
         packed chunk_size (done_ ++ [w]) st'.
Proof.
  destruct st as [tasks [n|]]; intros Hinv; simpl.
  - destruct (Z.ltb_spec
                (Z.of_nat (length (peptides w)) + Z.of_nat n) chunk_size)
      as [Hfits|Hfull].
    + destruct Hinv as (Hcat & Hne & Hbound & t & Hlast & Hn).
      simpl in *. unfold append_to_last. rewrite Hlast. simpl.
      apply last_Some in Hlast as [tasks' ->].
      eexists. split; [done|]. unfold packed. simpl.
      replace (length (tasks' ++ [t]) - 1) with (length tasks' + 0)
        by (rewrite length_app; simpl; lia).
      rewrite alter_app_r. simpl.
      apply Forall_app in Hne as [Hne _].
      apply Forall_app in Hbound as [Hbound _].
      rewrite fmap_app, concat_app in Hcat. simpl in Hcat.
      rewrite app_nil_r in Hcat.
      split_and!.
      * rewrite fmap_app, concat_app. simpl.
        rewrite app_nil_r, <- Hcat. by rewrite (assoc_L (++)).
      * apply Forall_app. split; [done|]. apply Forall_singleton. simpl.
        by destruct (work_item_dicts t).
      * apply Forall_app. split; [done|]. apply Forall_singleton. left.
        rewrite task_peptides_app.
        replace (task_peptides (Task (work_item_dicts t)))
          with (task_peptides t) by by destruct t.
        lia.
      * eexists. rewrite last_snoc. split; [done|].
        rewrite task_peptides_app.
        replace (task_peptides (Task (work_item_dicts t)))
          with (task_peptides t) by by destruct t.
        lia.
    + eexists. split; [done|]. by eapply new_task_packed.
  - eexists. split; [done|]. by eapply new_task_packed.
Qed.

Lemma pack_loop_packed (ws done_ : list work_item)
    (st : list task * option nat) :
  packed chunk_size done_ st →
  ∃ st', for_each (pack_step chunk_size) st ws = Ok st' ∧
         packed chunk_size (done_ ++ ws) st'.
Proof.
  revert done_ st. induction ws as [|w ws IH]; intros done_ st Hinv; simpl.
  - exists st. by rewrite app_nil_r.
  - destruct (pack_step_packed done_ st w Hinv) as (st1 & -> & Hinv1).
    simpl. destruct (IH _ _ Hinv1) as (st' & Hrun & Hinv').
    exists st'. split; [done|]. by rewrite <- (assoc_L (++)) in Hinv'.
Qed.

End Tasks.

Lemma insert_by_Permutation {A : Type} (key : A → nat) (x : A) (l : list A) :
  insert_by key x l ≡ₚ x :: l.
Proof.
  induction l as [|y l IH]; simpl; [done|].
  case_match; [done|]. rewrite IH. apply Permutation_swap.
Qed.

Lemma sorted_Permutation {A : Type} (key : A → nat) (l : list A) :
  sorted key l ≡ₚ l.
Proof.
  induction l as [|x l IH]; simpl; [done|].
  unfold sorted in *. simpl. by rewrite insert_by_Permutation, IH.
Qed.

Lemma make_tasks_packed (chunk_size : Z) (work_items : list work_item) :
  ∃ tasks, make_tasks chunk_size work_items = Ok tasks ∧
    concat (work_item_dicts <$> tasks)
    = sorted (λ d, length (peptides d)) work_items ∧
    Forall (λ t, work_item_dicts t ≠ []) tasks ∧
    Forall (within_bound chunk_size) tasks.
Proof.
  unfold make_tasks.
  destruct (pack_loop_packed chunk_size
              (sorted (λ d, length (peptides d)) work_items) [] ([], None))
    as ([tasks last_] & -> & Hcat & Hne & Hbound & _).
  { unfold packed. simpl. by repeat split. }
  exists tasks. simpl in *. done.
Qed.

Lemma number_from (k : nat) (work_items : list work_item) :
  work_item_num <$>
    imap (λ i w, WorkItem (alleles w) (peptides w) (Some (k + i))) work_items
  = Some <$> seq k (length work_items).
Proof.
  revert k. induction work_items as [|w ws IH]; intros k; [done|].
  rewrite imap_cons. cbn [length seq]. rewrite !fmap_cons.
  simpl. rewrite Nat.add_0_r. f_equal.
  rewrite <- (IH (S k)). f_equal. apply imap_ext.
  intros i x _. simpl. do 2 f_equal. lia.
Qed.

Lemma number_work_items_nums (work_items : list work_item) :
  work_item_num <$> number_work_items work_items
  = Some <$> seq 0 (length work_items).
Proof. apply (number_from 0). Qed.

(** C4: for every list of work items and every chunk size C, the packing
    returns tasks each of which has fewer than C peptides in total, or holds
    exactly one work item whose own peptide count is at least C. *)
Theorem make_tasks_bound (chunk_size : Z) (work_items : list work_item) :
  ∃ tasks, make_tasks chunk_size work_items = Ok tasks ∧
    ∀ t, t ∈ tasks →
      (Z.of_nat (task_peptides t) < chunk_size)%Z ∨
      ∃ w, work_item_dicts t = [w] ∧
           (chunk_size ≤ Z.of_nat (length (peptides w)))%Z.
Proof.
  destruct (make_tasks_packed chunk_size work_items)
    as (tasks & Hrun & _ & _ & Hbound).
  exists tasks. split; [done|].
  intros t Ht. by apply (proj1 (Forall_forall _ _) Hbound).
Qed.

(** C9: the work items are numbered 0 .. n-1 in order before the packing,
    and the packing partitions them: the work items of all the tasks, put
    together, are the numbered work items in some order, none of them
    twice, and no task is empty. *)
Theorem make_tasks_partition (chunk_size : Z) (work_items : list work_item) :
  work_item_num <$> number_work_items work_items
  = Some <$> seq 0 (length work_items) ∧
  ∃ tasks, make_tasks chunk_size (number_work_items work_items) = Ok tasks ∧
    concat (work_item_dicts <$> tasks) ≡ₚ number_work_items work_items ∧
    NoDup (work_item_num <$> concat (work_item_dicts <$> tasks)) ∧
    NoDup (concat (work_item_dicts <$> tasks)) ∧
    Forall (λ t, work_item_dicts t ≠ []) tasks.
Proof.
  split; [apply number_work_items_nums|].
  destruct (make_tasks_packed chunk_size (number_work_items work_items))
    as (tasks & Hrun & Hcat & Hne & _).
  exists tasks. split; [done|].
  assert (concat (work_item_dicts <$> tasks)
          ≡ₚ number_work_items work_items) as Hperm.
  { rewrite Hcat. apply sorted_Permutation. }
  assert (NoDup (work_item_num <$> concat (work_item_dicts <$> tasks)))
    as Hnums.
  { rewrite Hperm, number_work_items_nums.
    apply (NoDup_fmap_2 Some), NoDup_seq. }
  split_and!; [done | done | | done].
  by apply (NoDup_fmap_1 work_item_num).
Qed.

(** ** Merging the results *)

Section MergeFrame.

Lemma set_label_other (idx : list string) (col : list float32)
    (pv : string * float32) (i : nat) (p : string) :
  idx !! i = Some p → p ≠ pv.1 → set_label idx col pv !! i = col !! i.
Proof.
  intros Hi Hne. unfold set_label. rewrite lookup_zip_with, Hi. simpl.
  destruct (col !! i); simpl; [|done]. by rewrite decide_False.
Qed.

Lemma fold_set_label_other (idx : list string)
    (lvs : list (string * float32)) (col : list float32) (i : nat)
    (p : string) :
  idx !! i = Some p → p ∉ lvs.*1 →
  fold_left (set_label idx) lvs col !! i = col !! i.
Proof.
  intros Hi. revert col.
  induction lvs as [|pv lvs IH]; intros col Hnot; [done|].
  simpl. apply not_elem_of_cons in Hnot as [Hne Hnot].
  rewrite IH by done. by apply (set_label_other _ _ _ _ p).
Qed.

Lemma broadcast_to_length {A : Type} (n : nat) (vals vals' : list A) :
  broadcast_to n vals = Ok vals' → length vals' = n.
Proof.
  unfold broadcast_to. destruct (Nat.eqb_spec (length vals) n) as [<-|_].
  - by intros [= <-].
  - destruct vals as [|v [|]]; [done | | done].
    intros [= <-]. apply length_replicate.
Qed.

Lemma broadcast_to_aligned {A : Type} (vals : list A) :
  broadcast_to (length vals) vals = Ok vals.
Proof. unfold broadcast_to. by rewrite Nat.eqb_refl. Qed.

(** What an assignment that completes has done. *)
Lemma loc_setitem_inv (df df' : DataFrame) (labels : list string)
    (c : string) (vals : list float32) :
  loc_setitem df labels c vals = Ok df' →
  ∃ vals', broadcast_to (length labels) vals = Ok vals' ∧
    length vals' = length labels ∧
    Forall (λ p, p ∈ index df) labels ∧
    df' = {| index := index df;
             columns := if bool_decide (c ∈ columns df) then columns df
                        else columns df ++ [c];
             col_data :=
               <[c := fold_left (set_label (index df)) (zip labels vals')
                        (default (replicate (length (index df)) NaN)
                                 (col_data df !! c))]>
                 (col_data df) |}.
Proof.
  unfold loc_setitem. intros Hset.
  destruct (broadcast_to (length labels) vals) as [vals'|] eqn:Hb; [|done].
  cbn [bind] in Hset.
  destruct (forallb _ labels) eqn:Hin; [|done]. simpl in Hset.
  injection Hset as <-. exists vals'.
  split_and!; [done | by eapply broadcast_to_length | | done].
  apply Forall_forall. intros p Hp.
  rewrite forallb_forall in Hin.
  apply list_elem_of_In, Hin in Hp. by apply bool_decide_eq_true in Hp.
Qed.

(** [df.loc[labels, c] = vals] leaves the row labels alone, and every
    cell that is in another column or in a row not among the labels. *)
Lemma loc_setitem_frame (df df' : DataFrame) (labels : list string)
    (c : string) (vals : list float32) :
  loc_setitem df labels c vals = Ok df' →
  index df' = index df ∧
  ∀ i p c' v, index df !! i = Some p → cell df i c' = Some v →
    c' ≠ c ∨ p ∉ labels → cell df' i c' = Some v.
Proof.
  intros Hset.
  apply loc_setitem_inv in Hset as (vals' & _ & Hlen & _ & ->).
  split; [done|].
  intros i p c' v Hi Hcell Hout. unfold cell in *. simpl.
  destruct (decide (c' = c)) as [->|Hne]; [|by rewrite lookup_insert_ne].
  destruct Hout as [|Hp]; [done|].
  rewrite lookup_insert_eq. simpl.
  destruct (col_data df !! c) as [old|]; [|done]. simpl in *.
  rewrite fold_set_label_other with (p := p); [done..|].
  rewrite fst_zip by lia. done.
Qed.

Variable clock : nat → Z.
Variable out : string.
Variable files : gmap string string.
Variable work_items : list work_item.

Lemma merge_column_frame (n : nat) (st st' : merge_state) (c : string)
    (predictions : list float32) :
  merge_column clock out files work_items n st (c, predictions) = Ok st' →
  ∃ w, work_items !! n = Some w ∧
    loc_setitem (result_df st) (peptides w) c predictions
    = Ok (result_df st').
Proof.
  unfold merge_column. intros Hrun.
  destruct (work_items !! n) as [w|]; [|done]. simpl in Hrun.
  exists w. split; [done|].
  destruct (loc_setitem _ _ _ _) as [df|]; [|done]. simpl in Hrun.
  destruct (last_write_time_per_column st !! c); [|done]. simpl in Hrun.
  destruct (180 <? _)%Z.
  - destruct (write_col _ _ _ _ _); [|done]. simpl in Hrun.
    by injection Hrun as <-.
  - by injection Hrun as <-.
Qed.

Lemma merge_columns_frame (n : nat)
    (mapping : list (string * list float32)) (st st' : merge_state) :
  for_each (merge_column clock out files work_items n) st mapping = Ok st' →
  index (result_df st') = index (result_df st) ∧
  ∀ i p c v,
    index (result_df st) !! i = Some p →
    cell (result_df st) i c = Some v →
    c ∉ mapping.*1 ∨ (∀ w, work_items !! n = Some w → p ∉ peptides w) →
    cell (result_df st') i c = Some v.
Proof.
  revert st. induction mapping as [|[c0 preds] mapping IH]; intros st Hrun.
  - injection Hrun as <-. by split.
  - cbn [for_each] in Hrun.
    destruct (merge_column clock out files work_items n st (c0, preds))
      as [st1|] eqn:Hstep; [|done].
    cbn [bind] in Hrun.
    destruct (merge_column_frame _ _ _ _ _ Hstep) as (w & Hw & Hset).
    destruct (loc_setitem_frame _ _ _ _ _ Hset) as [Hidx1 Hcells1].
    destruct (IH _ Hrun) as [Hidx Hcells].
    split; [by rewrite Hidx|].
    intros i p c v Hi Hcell Hout.
    apply (Hcells i p c v); [by rewrite Hidx1| |].
    + apply (Hcells1 i p c v Hi Hcell).
      destruct Hout as [Hc|Hp].
      * left. intros ->. apply Hc. simpl. left.
      * right. by apply Hp.
    + destruct Hout as [Hc|Hp]; [|by right].
      left. intros Hin. apply Hc. simpl. by right.
Qed.

End MergeFrame.

(** C10: merging one [(work_item_num, col_to_predictions)] result leaves
    the row labels as they are and changes no cell of the result matrix
    outside the rows of that work item's peptides and the columns named in
    the mapping. *)
Theorem merge_result_frame (clock : nat → Z) (out : string)
    (files : gmap string string) (work_items : list work_item)
    (st st' : merge_state) (work_item_num : nat)
    (col_to_predictions : list (string * list float32)) :
  merge_result clock out files work_items st
    (work_item_num, col_to_predictions) = Ok st' →
  index (result_df st') = index (result_df st) ∧
  ∀ i p c v,
    index (result_df st) !! i = Some p →
    cell (result_df st) i c = Some v →
    c ∉ col_to_predictions.*1 ∨
      (∀ w, work_items !! work_item_num = Some w → p ∉ peptides w) →
    cell (result_df st') i c = Some v.
Proof. apply merge_columns_frame. Qed.

Lemma merge_result_frame_witness :
  ∃ st',
    merge_result (λ _, 1000%Z) "out" (col_to_filename Examples.manifest_AB)
      Examples.two_work_items Examples.merge_start
      (0, [("A affinity", [Num 7])]) = Ok st' ∧
    cell (result_df st') 0 "A affinity" = Some (Num 7) ∧
    cell (result_df st') 1 "A affinity" = Some (Num 7) ∧
    cell (result_df st') 2 "A affinity" = Some NaN ∧
    cell (result_df st') 1 "B affinity" = Some NaN.
Proof.
  destruct (merge_result (λ _, 1000%Z) "out"
              (col_to_filename Examples.manifest_AB)
              Examples.two_work_items Examples.merge_start
              (0, [("A affinity", [Num 7])])) as [st'|e] eqn:Hrun;
    [|vm_compute in Hrun; discriminate Hrun].
  exists st'. split; [reflexivity|].
  destruct (merge_result_frame _ _ _ _ _ _ _ _ Hrun) as [_ Hframe].
  split_and!.
  - vm_compute in Hrun. injection Hrun as <-. reflexivity.
  - vm_compute in Hrun. injection Hrun as <-. reflexivity.
  - apply (Hframe 2 "DDDD"); [reflexivity | reflexivity |].
    right. intros w [= <-]. simpl.
    rewrite !elem_of_cons, elem_of_nil. by intros [|[|]].
  - apply (Hframe 1 "CCCC"); [reflexivity | reflexivity |].
    left. simpl. rewrite list_elem_of_singleton. discriminate.
Defined.

(** ** Work items of a reuse run *)

(** C2: in a reuse run where the middle one of three peptides is the only
    one missing for the allele, the block found is that one row; the split
    is made of the whole peptide list and not of the block's rows, so the
    block's single work item holds all three peptides, two of which are
    already computed. *)
Lemma reuse_work_items_take_all_peptides :
  snd <$> blocks_of_ones
            {[ 0 := is_null_matrix Examples.reused_A Examples.manifest_A
                      ["A"] ]} 0
  = Some (Ok [Block 1 0 1 0]) ∧
  slice (index Examples.reused_A) 1 (1 + 1) = ["CCCC"] ∧
  reuse_work_items Examples.peptides3 (index Examples.reused_A) ["A"] 10
    [Block 1 0 1 0]
  = Ok [WorkItem ["A"] ["AAAA"; "CCCC"; "DDDD"] None].
Proof. by vm_compute. Qed.

(** ** Loading the predictions to reuse *)

Section ReuseLoading.

(** A loop stops with an exception when its body raises on some element
    whatever the state. *)
Lemma for_each_raises {A S : Type} (body : S → A → result S) (l : list A) :
  Exists (λ x, ∀ s, ∃ e, body s x = Raise e) l →
  ∀ s, ∃ e, for_each body s l = Raise e.
Proof.
  induction 1 as [x l Hx|x l _ IH]; intros s; simpl.
  - destruct (Hx s) as [e ->]. by exists e.
  - destruct (body s x) as [s'|e]; simpl; [apply IH | by exists e].
Qed.

Lemma mask_select_isin (peptides idx : list string) :
  ∃ sel, mask_select peptides (isin peptides idx) = Ok sel.
Proof.
  unfold mask_select, isin. rewrite length_fmap, Nat.eqb_refl. by eexists.
Qed.

(** A directory that exists is loaded with no handler around the load:
    a missing peptide file, manifest or referenced column file raises. *)
Lemma load_results_raises (fs : filesystem) (dirname : string)
    (d : directory) (result_df : DataFrame) :
  fs !! dirname = Some d →
  peptides_csv d = None ∨ alleles_csv d = None ∨
  (∃ m, alleles_csv d = Some m ∧
        Exists (λ r, col r ∈ columns result_df ∧ npz d !! path r = None)
               (adjust m)) →
  ∃ e, load_results fs dirname (Some result_df) = Raise e.
Proof.
  intros Hd Hbroken. unfold load_results. rewrite Hd. simpl.
  destruct (peptides_csv d) as [peptides|] eqn:Hpep; simpl;
    [|by exists FileNotFoundError].
  destruct (alleles_csv d) as [m|] eqn:Hman; simpl;
    [|by exists FileNotFoundError].
  destruct Hbroken as [|[|(m' & [= <-] & Hmissing)]]; [done..|].
  destruct (mask_select_isin peptides (index result_df)) as [sel ->]. simpl.
  apply for_each_raises.
  apply Exists_exists in Hmissing as (r & Hr & Hcol & Hfile).
  apply Exists_exists. exists r. split.
  - apply list_elem_of_filter. done.
  - intros s. unfold load_column. rewrite Hfile. simpl.
    by exists FileNotFoundError.
Qed.

End ReuseLoading.

(** C3 (as stated): a directory to reuse that exists and holds no peptide
    file is not skipped with a warning; loading it raises
    [FileNotFoundError] and the loading of reused predictions, hence the
    run, stops there. *)
Lemma load_reused_aborts_on_broken_directory :
  load_reused Examples.broken_fs ["prior"]
    (nan_frame Examples.peptides3 ["A affinity"])
  = Raise FileNotFoundError ∧
  ¬ ∃ st, load_reused Examples.broken_fs ["prior"]
            (nan_frame Examples.peptides3 ["A affinity"]) = Ok st.
Proof.
  split; [reflexivity|]. intros [st Hrun]. vm_compute in Hrun.
  discriminate Hrun.
Qed.

(** C3 (amended): during reuse loading an empty directory name is ignored,
    and a directory that does not exist is reported with a warning and
    skipped, the loop going on with the directories that follow.  A
    directory that exists is loaded unguarded: a missing peptide file, a
    missing manifest, or a missing file of a manifest column that is also
    a column of the result matrix raises an exception that ends the
    loading and the run.  A directory with a peptide file and a manifest
    none of whose columns is a column of the result matrix is loaded
    without changing the matrix, whatever column files it lacks, and the
    loop goes on. *)
Theorem load_reused_skips_only_absent (fs : filesystem)
    (result_df : DataFrame) (printed : list string) (dirname : string)
    (rest : list string) :
  for_each (reuse_step fs) (result_df, printed) ("" :: rest)
  = for_each (reuse_step fs) (result_df, printed) rest ∧
  (dirname ≠ "" → fs !! dirname = None →
   for_each (reuse_step fs) (result_df, printed) (dirname :: rest)
   = for_each (reuse_step fs)
       (result_df,
        printed ++ ["WARNING: skipping because does not exist " +:+ dirname])
       rest) ∧
  (∀ d, dirname ≠ "" → fs !! dirname = Some d →
     peptides_csv d = None ∨ alleles_csv d = None ∨
     (∃ m, alleles_csv d = Some m ∧
           Exists (λ r, col r ∈ columns result_df ∧ npz d !! path r = None)
                  (adjust m)) →
     ∃ e, for_each (reuse_step fs) (result_df, printed) (dirname :: rest)
          = Raise e) ∧
  (∀ d prior m, dirname ≠ "" → fs !! dirname = Some d →
     peptides_csv d = Some prior → alleles_csv d = Some m →
     Forall (λ r, col r ∉ columns result_df) (adjust m) →
     for_each (reuse_step fs) (result_df, printed) (dirname :: rest)
     = for_each (reuse_step fs)
         (result_df, printed ++ ["Loading predictions " +:+ dirname]) rest).
Proof.
  split_and!.
  - done.
  - intros Hne Habsent. cbn [for_each]. unfold reuse_step at 1.
    rewrite bool_decide_eq_false_2 by done.
    unfold exists_. rewrite Habsent.
    rewrite bool_decide_eq_false_2 by (by intros [? ?]). done.
  - intros d Hne Hd Hbroken. cbn [for_each]. unfold reuse_step at 1.
    rewrite bool_decide_eq_false_2 by done.
    unfold exists_. rewrite Hd.
    rewrite bool_decide_eq_true_2 by (by eexists).
    destruct (load_results_raises fs dirname d result_df Hd Hbroken)
      as [e ->].
    by exists e.
  - intros d prior m Hne Hd Hpep Hman Hnone. cbn [for_each].
    unfold reuse_step at 1.
    rewrite bool_decide_eq_false_2 by done.
    unfold exists_. rewrite Hd.
    rewrite bool_decide_eq_true_2 by (by eexists).
    unfold load_results. rewrite Hd. cbn [read bind].
    rewrite Hpep, Hman. cbn [read bind].
    destruct (mask_select_isin prior (index result_df)) as [sel ->].
    cbn [bind].
    assert (filter (λ r, col r ∈ columns result_df) (adjust m) = []) as ->.
    { induction Hnone as [|r l Hr _ IH]; [done|].
      by rewrite filter_cons_False. }
    done.
Qed.

Lemma load_reused_skips_only_absent_witness :
  (load_reused ∅ ["absent"] (nan_frame Examples.peptides3 ["A affinity"])
   = Ok (nan_frame Examples.peptides3 ["A affinity"],
         ["WARNING: skipping because does not exist absent"])) ∧
  (∃ e, load_reused Examples.broken_fs ["prior"]
          (nan_frame Examples.peptides3 ["A affinity"]) = Raise e) ∧
  (load_reused Examples.unwanted_fs ["prior"]
     (nan_frame Examples.peptides3 ["B affinity"])
   = Ok (nan_frame Examples.peptides3 ["B affinity"],
         ["Loading predictions prior"])).
Proof.
  pose proof (load_reused_skips_only_absent ∅
                (nan_frame Examples.peptides3 ["A affinity"]) [] "absent" [])
    as (_ & Hskip & _).
  pose proof (load_reused_skips_only_absent Examples.broken_fs
                (nan_frame Examples.peptides3 ["A affinity"]) [] "prior" [])
    as (_ & _ & Hraise & _).
  pose proof (load_reused_skips_only_absent Examples.unwanted_fs
                (nan_frame Examples.peptides3 ["B affinity"]) [] "prior" [])
    as (_ & _ & _ & Hunwanted).
  split_and!.
  - unfold load_reused. rewrite Hskip; [reflexivity | discriminate | reflexivity].
  - apply (Hraise empty_dir); [discriminate | reflexivity |].
    left. reflexivity.
  - unfold load_reused.
    rewrite (Hunwanted (Dir (Some Examples.prior_peptides)
                            (Some (Manifest true true Examples.manifest_A)) ∅)
               Examples.prior_peptides
               (Manifest true true Examples.manifest_A));
      [reflexivity | discriminate | reflexivity | reflexivity | reflexivity |].
    apply Forall_cons. split; [|constructor].
    simpl. rewrite list_elem_of_singleton. discriminate.
Defined.

(** ** The store: writing the columns and loading them back *)

Section RoundTrip.

Lemma set_label_length (idx : list string) (col : list float32)
    (pv : string * float32) :
  length col = length idx → length (set_label idx col pv) = length idx.
Proof. intros Hlen. unfold set_label. rewrite length_zip_with. lia. Qed.

Lemma fold_set_label_length (idx : list string)
    (lvs : list (string * float32)) (col : list float32) :
  length col = length idx →
  length (fold_left (set_label idx) lvs col) = length idx.
Proof.
  revert col. induction lvs as [|pv lvs IH]; intros col Hlen; [done|].
  simpl. apply IH. by apply set_label_length.
Qed.

Lemma set_label_same (idx : list string) (col : list float32)
    (pv : string * float32) (i : nat) :
  idx !! i = Some pv.1 → length col = length idx →
  set_label idx col pv !! i = Some pv.2.
Proof.
  intros Hi Hlen. unfold set_label. rewrite lookup_zip_with, Hi. simpl.
  destruct (col !! i) eqn:Hcol; simpl.
  - by rewrite decide_True.
  - apply lookup_ge_None in Hcol. apply lookup_lt_Some in Hi. lia.
Qed.

(** Assigning label by label sets the row of each label to its value. *)
Lemma fold_set_label_lookup (idx : list string)
    (lvs : list (string * float32)) (col : list float32) (i : nat)
    (p : string) (v : float32) :
  NoDup lvs.*1 → (p, v) ∈ lvs → idx !! i = Some p →
  length col = length idx →
  fold_left (set_label idx) lvs col !! i = Some v.
Proof.
  revert col. induction lvs as [|pv lvs IH]; intros col Hnd Hin Hi Hlen.
  - by apply not_elem_of_nil in Hin.
  - simpl in *. apply NoDup_cons in Hnd as [Hfresh Hnd].
    apply elem_of_cons in Hin as [<-|Hin].
    + rewrite fold_set_label_other with (p := p) by done.
      by apply set_label_same.
    + apply IH; [done..|]. by apply set_label_length.
Qed.




End RoundTrip.

Section StoreRoundTrip.



(** Writing the columns of [rows] one after the other, each to the file
    of its own name. *)
Lemma write_columns_spec (out : string) (files : gmap string string)
    (df : DataFrame) (rows : list manifest_row) (fs1 : filesystem)
    (P : option (list string)) (M : option manifest_csv)
    (N : gmap string (list float32)) :
  fs1 !! out = Some (Dir P M N) →
  NoDup (path <$> rows) →
  Forall (λ r, files !! col r = Some (path r) ∧
               is_Some (col_data df !! col r)) rows →
  ∃ fs2 N',
    for_each (write_col out files df) fs1 (col <$> rows) = Ok fs2 ∧
    fs2 !! out = Some (Dir P M N') ∧
    (∀ r, r ∈ rows → N' !! path r = col_data df !! col r) ∧
    (∀ name, name ∉ path <$> rows → N' !! name = N !! name).
Proof.
  revert fs1 N. induction rows as [|r rows IH]; intros fs1 N Hout Hnd Hrows.
  - exists fs1, N. split_and!; [done | done | | done].
    intros r Hr. by apply not_elem_of_nil in Hr.
  - rewrite fmap_cons in Hnd. apply NoDup_cons in Hnd as [Hfresh Hnd].
    apply Forall_cons in Hrows as [[Hfile [v Hv]] Hrows].
    rewrite fmap_cons. cbn [for_each].
    unfold write_col at 1, column_values. rewrite Hfile, Hv, Hout. simpl.
    destruct (IH (<[out := Dir P M (<[path r := v]> N)]> fs1)
                 (<[path r := v]> N))
      as (fs2 & N' & Hrun & Hout' & Hwritten & Hkept);
      [by rewrite lookup_insert_eq | done | done |].
    exists fs2, N'. split_and!; [done | done | |].
    + intros r0 [->|Hr0]%elem_of_cons.
      * by rewrite Hkept, lookup_insert_eq.
      * by apply Hwritten.
    + intros name [Hne Hname]%not_elem_of_cons.
      rewrite Hkept by done. by rewrite lookup_insert_ne.
Qed.



Lemma nan_frame_lookup (idx cols : list string) (c : string) :
  col_data (nan_frame idx cols) !! c
  = if decide (c ∈ cols) then Some (replicate (length idx) NaN) else None.
Proof.
  unfold nan_frame. cbn [col_data].
  induction cols as [|c0 cols IH].
  - destruct (decide (c ∈ [])) as [Hin|_]; [|done].
    by apply not_elem_of_nil in Hin.
  - rewrite fmap_cons, list_to_map_cons.
    destruct (decide (c = c0)) as [->|Hne].
    + rewrite lookup_insert_eq.
      destruct (decide (c0 ∈ c0 :: cols)) as [_|Hnin]; [done|].
      exfalso. apply Hnin. left.
    + rewrite lookup_insert_ne by done. rewrite IH.
      destruct (decide (c ∈ cols)) as [Hin|Hnin],
               (decide (c ∈ c0 :: cols)) as [Hin'|Hnin']; try done.
      * exfalso. apply Hnin'. by right.
      * apply elem_of_cons in Hin' as [?|?]; done.
Qed.

End StoreRoundTrip.

(** The file names of the columns have to be distinct for the store to
    give the matrix back.  Two names that differ by a [*] only, which
    [normalize_allele_name] does not give, show it: the columns of [A] and
    [A*] are written to the same file [A.affinity.npz], the second write
    replaces the first, and loading the store back gives both columns the
    values of the second. *)
Lemma store_round_trip_fails_on_clash :
  well_formed Examples.filled_clash ∧
  ∃ fs' df',
    write_all "out" (col_to_filename Examples.manifest_clash)
      Examples.filled_clash
      (write_lists ∅ "out" (index Examples.filled_clash)
         Examples.manifest_clash) = Ok fs' ∧
    load_results fs' "out" None = Ok df' ∧
    cell Examples.filled_clash 0 "A affinity" = Some (Num 1) ∧
    cell df' 0 "A affinity" = Some (Num 2) ∧
    df' ≠ Examples.filled_clash.
Proof.
  split.
  - split_and!.
    + apply NoDup_singleton.
    + intros c. unfold Examples.filled_clash. simpl.
      rewrite !elem_of_cons, elem_of_nil.
      destruct (decide (c = "A affinity")) as [->|Hne1]; [by split; eauto|].
      destruct (decide (c = "A* affinity")) as [->|Hne2]; [by split; eauto|].
      rewrite lookup_insert_ne by done. rewrite lookup_singleton_ne by done.
      split; [by intros [? ?] | by intros [?|[?|[]]]].
    + intros c v. unfold Examples.filled_clash. simpl.
      destruct (decide (c = "A affinity")) as [->|Hne1];
        [by intros [= <-]|].
      destruct (decide (c = "A* affinity")) as [->|Hne2];
        [by intros [= <-]|].
      rewrite lookup_insert_ne by done. by rewrite lookup_singleton_ne.
  - destruct (write_all "out" (col_to_filename Examples.manifest_clash)
                Examples.filled_clash
                (write_lists ∅ "out" (index Examples.filled_clash)
                   Examples.manifest_clash)) as [fs'|e] eqn:Hwrite;
      [|vm_compute in Hwrite; discriminate Hwrite].
    destruct (load_results fs' "out" None) as [df'|e] eqn:Hload.
    + exists fs', df'. split; [done|]. split; [done|].
      assert (cell df' 0 "A affinity" = Some (Num 2)) as Hcell.
      { vm_compute in Hwrite. injection Hwrite as <-.
        vm_compute in Hload. injection Hload as <-. reflexivity. }
      split_and!; [reflexivity | done |].
      intros ->. vm_compute in Hcell. discriminate Hcell.
    + vm_compute in Hwrite. injection Hwrite as <-.
      vm_compute in Hload. discriminate Hload.
Qed.



(** * Further properties *)

(** ** blocks_of_ones: the blocks returned *)

Section ExactCover.

Lemma unravel_ravel (s1 x y : nat) :
  y < s1 → (x * s1 + y) / s1 = x ∧ (x * s1 + y) `mod` s1 = y.
Proof.
  intros Hy. split.
  - rewrite Nat.div_add_l by lia. rewrite Nat.div_small by done. lia.
  - rewrite Nat.add_comm, Nat.Div0.mod_add. by apply Nat.mod_small.
Qed.

Lemma getitem_zero_out (a : ndarray) (b : block) (x y : nat) :
  y < shape1 a →
  getitem (zero_out a b) x y
  = if in_block b x y then false else getitem a x y.
Proof.
  intros Hy. unfold getitem, zero_out. simpl.
  rewrite list_lookup_imap.
  destruct (unravel_ravel (shape1 a) x y Hy) as [Hdiv Hmod].
  destruct (data a !! (x * shape1 a + y)) as [v|]; simpl.
  - unfold unravel_index. by rewrite Hdiv, Hmod.
  - by destruct (in_block b x y).
Qed.

Lemma all_one_col_slice (a : ndarray) (lo hi y : nat) :
  all_one (col_slice a lo hi y) = true ↔
  ∀ x, lo ≤ x → x < hi → x < shape0 a → getitem a x y = true.
Proof.
  unfold all_one, col_slice. rewrite forallb_forall. split.
  - intros Hall x Hlo Hhi Hx. apply (Hall (getitem a x y)).
    apply in_map_iff. exists x. split; [done|]. apply in_seq. lia.
  - intros Hall v Hv. apply in_map_iff in Hv as (x & <- & Hx).
    apply in_seq in Hx. apply Hall; lia.
Qed.

Lemma block_all_one_cells (a : ndarray) (b : block) (x y : nat) :
  block_all_one a b = true → in_block b x y = true →
  x < shape0 a → y < shape1 a → getitem a x y = true.
Proof.
  unfold block_all_one, in_block. intros Hall Hin Hx Hy.
  rewrite !andb_true_iff, !Nat.leb_le in Hin.
  destruct Hin as [[[Hx0 Hx2] Hy1] Hy3].
  rewrite forallb_forall in Hall.
  specialize (Hall y). rewrite all_one_col_slice in Hall.
  apply Hall; [|lia..]. apply in_seq. lia.
Qed.

Lemma argmax_bound (l : list bool) : argmax l = 0 ∨ argmax l < length l.
Proof.
  unfold argmax. destruct (list_find _ l) as [[i v]|] eqn:Hfind; [|by left].
  right. apply list_find_Some in Hfind as (Hi & _). by eapply lookup_lt_Some.
Qed.

Lemma extend_down_lt (a : ndarray) (x1 y1 x2 : nat) :
  x1 < shape0 a → extend_down a x1 y1 = Ok x2 → x2 < shape0 a.
Proof.
  unfold extend_down. intros Hx.
  destruct (argmax_bound (eq_zero (col_slice a x1 (shape0 a) y1)))
    as [Hz|Hlt].
  - rewrite Hz. simpl. intros [= <-]. lia.
  - assert (length (eq_zero (col_slice a x1 (shape0 a) y1)) = shape0 a - x1)
      as Hlen.
    { unfold eq_zero, col_slice. rewrite !length_fmap, length_seq. lia. }
    rewrite Hlen in Hlt.
    repeat case_match; intros [= <-]; lia.
Qed.

Lemma extend_right_lt (a : ndarray) (x1 x2 y1 : nat) :
  y1 < shape1 a → extend_right a x1 x2 y1 < shape1 a.
Proof.
  intros Hy. unfold extend_right.
  assert (∀ l init, Forall (λ i, i < shape1 a) l → init < shape1 a →
    fold_left
      (λ b3 i, if all_one (col_slice a x1 (x2 + 1) i) then i else b3)
      l init < shape1 a) as Hfold.
  { induction l as [|i l IH]; intros init Hall Hinit; simpl; [done|].
    inversion Hall; subst. apply IH; [done|]. by case_match. }
  apply Hfold; [|done].
  apply Forall_forall. intros i Hi%list_elem_of_In%in_seq. lia.
Qed.

Lemma getitem_no_true (a : ndarray) (x y : nat) :
  np_sum (data a) = 0 → getitem a x y = false.
Proof.
  intros Hsum. apply np_sum_zero_iff in Hsum. unfold getitem.
  destruct (data a !! _) as [[]|] eqn:Hk; [|done..].
  apply list_elem_of_lookup_2 in Hk.
  by apply (proj1 (Forall_forall _ _) Hsum) in Hk.
Qed.

(** A pass of the loop keeps the relation between the input, the working
    copy and the blocks found. *)
Lemma loop_body_cover (a0 a a' : ndarray) (blocks : list block) (b : block) :
  cover_inv a0 a blocks → 0 < np_sum (data a) → loop_body a = Ok (b, a') →
  cover_inv a0 a' (blocks ++ [b]).
Proof.
  intros (Hs0 & Hs1 & Hwf & Hbounds & Hdisj & Hcells) Hpos Hbody.
  destruct (seed_in_bounds a Hwf Hpos) as (Hx & Hy & _ & _).
  unfold loop_body in Hbody.
  destruct (seed a) as [x1 y1] eqn:Hseed. simpl in Hx, Hy.
  destruct (extend_down a x1 y1) as [x2|] eqn:Hdown; simpl in Hbody; [|done].
  destruct (block_all_one _ _) eqn:Hones; [|done].
  injection Hbody as <- <-.
  set (b := Block x1 y1 x2 (extend_right a x1 x2 y1)) in *.
  assert (in_bounds a0 b) as Hb.
  { unfold in_bounds, b. simpl. rewrite <- Hs0, <- Hs1.
    pose proof (extend_down_ge _ _ _ _ Hx Hdown).
    pose proof (extend_down_lt _ _ _ _ Hx Hdown).
    pose proof (extend_right_ge a x1 x2 y1).
    pose proof (extend_right_lt a x1 x2 y1 Hy). lia. }
  assert (∀ x y, in_block b x y = true →
            x < shape0 a0 ∧ y < shape1 a0 ∧ getitem a x y = true) as Hin_b.
  { intros x y Hin.
    assert (x < shape0 a0 ∧ y < shape1 a0) as [Hx' Hy'].
    { destruct Hb as [Hb1 Hb2]. unfold in_block in Hin.
      rewrite !andb_true_iff, !Nat.leb_le in Hin. lia. }
    split_and!; [done..|].
    apply (block_all_one_cells a b); [done | done | lia | lia]. }
  unfold cover_inv. split_and!; [done | done | by apply zero_out_well_shaped | | |].
  - apply Forall_app. split; [done|]. by apply Forall_singleton.
  - intros i j b1 b2 x y Hij Hi Hj Hin1 Hin2.
    assert (∀ k bk, k < length blocks → (blocks ++ [b]) !! k = Some bk →
              in_block bk x y = true → in_block b x y = true → False)
      as Hold.
    { intros k bk Hk Hlook Hink Hinb.
      rewrite lookup_app_l in Hlook by done.
      destruct (Hin_b x y Hinb) as (Hx' & Hy' & Htrue).
      destruct (Hcells x y Hx' Hy') as [_ Hzero].
      rewrite Hzero in Htrue; [done|].
      exists bk. split; [|done]. by eapply list_elem_of_lookup_2. }
    assert (∀ k bk, (blocks ++ [b]) !! k = Some bk → ¬ k < length blocks →
              bk = b ∧ k = length blocks) as Hlast.
    { intros k bk Hlook Hk.
      rewrite lookup_app_r in Hlook by lia.
      destruct (k - length blocks) as [|n] eqn:Hn; simpl in Hlook; [|done].
      injection Hlook as <-. split; [done | lia]. }
    destruct (decide (i < length blocks)) as [Hi'|Hi'],
             (decide (j < length blocks)) as [Hj'|Hj'].
    + rewrite lookup_app_l in Hi, Hj by done.
      by apply (Hdisj i j b1 b2 x y).
    + destruct (Hlast j b2 Hj Hj') as [-> _]. by apply (Hold i b1).
    + destruct (Hlast i b1 Hi Hi') as [-> _]. by apply (Hold j b2).
    + destruct (Hlast i b1 Hi Hi') as [_ ->].
      destruct (Hlast j b2 Hj Hj') as [_ ->]. done.
  - intros x y Hx' Hy'.
    destruct (Hcells x y Hx' Hy') as [Hiff Hzero].
    rewrite getitem_zero_out by lia.
    assert (covers (blocks ++ [b]) x y ↔
            covers blocks x y ∨ in_block b x y = true) as Hcov.
    { unfold covers. split.
      - intros (b' & [Hb'|Hb']%elem_of_app & Hin); [left; eauto|].
        apply list_elem_of_singleton in Hb' as ->. by right.
      - intros [(b' & Hb' & Hin)|Hin].
        + exists b'. split; [|done]. apply elem_of_app. by left.
        + exists b. split; [|done]. apply elem_of_app. right.
          by apply list_elem_of_singleton. }
    rewrite Hcov. split.
    + rewrite Hiff. destruct (in_block b x y) eqn:Hin.
      * destruct (Hin_b x y Hin) as (_ & _ & Htrue). tauto.
      * split; [tauto|]. intros [?|[?|?]]; [by left | by right | done].
    + intros [Hc|Hin].
      * rewrite (Hzero Hc). by destruct (in_block b x y).
      * by rewrite Hin.
Qed.

Lemma while_loop_cover (fuel : nat) (h h' : heap) (arr : loc)
    (a0 a : ndarray) (blocks blocks' : list block) :
  h !! arr = Some a → cover_inv a0 a blocks →
  while_loop fuel h arr blocks = Some (h', Ok blocks') →
  ∃ a', cover_inv a0 a' blocks' ∧ np_sum (data a') = 0.
Proof.
  revert h a blocks.
  induction fuel as [|fuel IH]; intros h a blocks Harr Hinv Hrun; [done|].
  simpl in Hrun. rewrite Harr in Hrun.
  destruct (0 <? np_sum (data a)) eqn:Hpos.
  - apply Nat.ltb_lt in Hpos.
    destruct (loop_body a) as [[b a']|e] eqn:Hbody; [|done].
    apply (IH (<[arr := a']> h) a' (blocks ++ [b]));
      [by rewrite lookup_insert_eq | by eapply loop_body_cover | done].
  - apply Nat.ltb_ge in Hpos. injection Hrun as <- <-.
    exists a. split; [done | lia].
Qed.

Lemma cover_inv_start (a0 : ndarray) : well_shaped a0 → cover_inv a0 a0 [].
Proof.
  intros Hwf. unfold cover_inv.
  split_and!; [done | done | done | constructor | |].
  - intros i j b b' x y _ Hi. by rewrite lookup_nil in Hi.
  - intros x y _ _. split.
    + split; [by left|]. intros [?|(b & Hb & _)]; [done|].
      by apply not_elem_of_nil in Hb.
    + intros (b & Hb & _). by apply not_elem_of_nil in Hb.
Qed.

End ExactCover.

(** X1: whenever [blocks_of_ones] returns, the blocks it returns lie
    inside the matrix, no cell is in two of them, and the cells they hold
    are exactly the true cells of the input. *)
Theorem blocks_of_ones_exact_cover (h h' : heap) (arr : loc) (a0 : ndarray)
    (blocks : list block) :
  h !! arr = Some a0 → well_shaped a0 →
  blocks_of_ones h arr = Some (h', Ok blocks) →
  Forall (in_bounds a0) blocks ∧
  disjoint_blocks blocks ∧
  ∀ x y, x < shape0 a0 → y < shape1 a0 →
    (getitem a0 x y = true ↔ covers blocks x y).
Proof.
  intros Harr Hwf Hrun.
  destruct (copy_fresh h arr a0 Harr) as [Hcopy _].
  unfold blocks_of_ones, blocks_of_ones_fuel in Hrun.
  rewrite Hcopy in Hrun.
  destruct (while_loop_cover _ _ _ _ a0 a0 [] blocks
              (lookup_insert_eq _ _ _) (cover_inv_start a0 Hwf) Hrun)
    as (a' & (_ & _ & _ & Hbounds & Hdisj & Hcells) & Hsum).
  split_and!; [done | done |].
  intros x y Hx Hy. destruct (Hcells x y Hx Hy) as [Hiff _].
  rewrite Hiff, (getitem_no_true a' x y Hsum). split; [|by right].
  by intros [?|?].
Qed.

Lemma blocks_of_ones_exact_cover_witness :
  let a := of_rows [[false; true; true]; [true; true; false];
                    [true; true; true]] in
  ∃ h' blocks,
    blocks_of_ones {[ 0 := a ]} 0 = Some (h', Ok blocks) ∧
    (getitem a 1 1 = true ↔ covers blocks 1 1).
Proof.
  intros a.
  destruct (blocks_of_ones {[ 0 := a ]} 0) as [[h' [blocks|e]]|] eqn:Hrun;
    [|vm_compute in Hrun; discriminate Hrun..].
  exists h', blocks. split; [done|].
  destruct (blocks_of_ones_exact_cover {[ 0 := a ]} h' 0 a blocks)
    as (_ & _ & Hcells); [reflexivity | reflexivity | done |].
  apply Hcells; vm_compute; lia.
Defined.

(** ** blocks_of_ones: nothing missing, everything missing *)

Section FullMatrix.

Lemma np_sum_pos (l : list bool) (k : nat) :
  l !! k = Some true → 0 < np_sum l.
Proof.
  intros Hk. destruct (np_sum l) eqn:Hsum; [|lia].
  apply np_sum_zero_iff in Hsum. apply list_elem_of_lookup_2 in Hk.
  by apply (proj1 (Forall_forall _ _) Hsum) in Hk.
Qed.

Lemma argmax_no_true (l : list bool) :
  Forall (λ b, b ≠ true) l → argmax l = 0.
Proof.
  intros Hall. unfold argmax.
  destruct (list_find _ l) as [[i b]|] eqn:Hfind; [|done].
  apply list_find_Some in Hfind as (Hi & -> & _).
  apply list_elem_of_lookup_2 in Hi.
  by apply (proj1 (Forall_forall _ _) Hall) in Hi.
Qed.

Lemma argmax_head (l : list bool) : l !! 0 = Some true → argmax l = 0.
Proof.
  intros H0. destruct (argmax l) as [|k] eqn:Hk; [done|].
  exfalso. apply (argmax_first l 0); [lia | done].
Qed.

Lemma fold_keep_last (cond : nat → bool) (l : list nat) (i init : nat) :
  cond i = true →
  fold_left (λ b3 j, if cond j then j else b3) (l ++ [i]) init = i.
Proof. intros Hi. rewrite fold_left_app. simpl. by rewrite Hi. Qed.

Lemma np_sum_clear_all (P : nat → bool) (l : list bool) :
  (∀ k, k < length l → P k = true) →
  np_sum (imap (λ k v, if P k then false else v) l) = 0.
Proof.
  revert P. induction l as [|b l IH]; intros P HP; [done|].
  simpl. rewrite (HP 0) by (simpl; lia). simpl.
  apply (IH (P ∘ S)). intros k Hk. apply HP. simpl. lia.
Qed.

(** The one pass the loop makes over a matrix of ones. *)
Lemma loop_body_full (a : ndarray) :
  well_shaped a → 0 < shape0 a → 0 < shape1 a →
  (∀ x y, x < shape0 a → y < shape1 a → getitem a x y = true) →
  0 < np_sum (data a) ∧
  ∃ a', loop_body a = Ok (Block 0 0 (shape0 a - 1) (shape1 a - 1), a') ∧
        np_sum (data a') = 0.
Proof.
  intros Hwf Hs0 Hs1 Hfull.
  assert (data a !! 0 = Some true) as Hhead.
  { pose proof (Hfull 0 0 Hs0 Hs1) as H00. unfold getitem in H00.
    simpl in H00. destruct (data a !! 0) as [[]|]; done. }
  split; [by eapply np_sum_pos|].
  unfold loop_body, seed. rewrite (argmax_head _ Hhead).
  unfold unravel_index. rewrite Nat.Div0.div_0_l, Nat.Div0.mod_0_l.
  assert (extend_down a 0 0 = Ok (shape0 a - 1)) as ->.
  { unfold extend_down. rewrite argmax_no_true; [done|].
    unfold eq_zero, col_slice. apply Forall_fmap, Forall_fmap, Forall_forall.
    intros x Hx%list_elem_of_In%in_seq. simpl.
    rewrite Hfull; [done | lia | done]. }
  simpl.
  assert (extend_right a 0 (shape0 a - 1) 0 = shape1 a - 1) as ->.
  { unfold extend_right. rewrite Nat.sub_0_r.
    destruct (shape1 a) as [|k] eqn:Hk; [lia|].
    rewrite seq_S. simpl. rewrite Nat.sub_0_r.
    apply (fold_keep_last
             (λ i, all_one (col_slice a 0 (shape0 a - 1 + 1) i))).
    apply all_one_col_slice. intros x _ _ Hx. apply Hfull; lia. }
  assert (block_all_one a (Block 0 0 (shape0 a - 1) (shape1 a - 1)) = true)
    as ->.
  { unfold block_all_one. simpl. apply forallb_forall.
    intros y Hy%in_seq. apply all_one_col_slice.
    intros x _ _ Hx. apply Hfull; lia. }
  eexists. split; [done|]. simpl.
  apply (np_sum_clear_all
           (λ k, in_block (Block 0 0 (shape0 a - 1) (shape1 a - 1))
                          (k / shape1 a) (k `mod` shape1 a))).
  intros k Hk. rewrite Hwf in Hk. unfold in_block. simpl.
  rewrite !andb_true_iff, !Nat.leb_le.
  assert (k / shape1 a < shape0 a)
    by (apply Nat.Div0.div_lt_upper_bound; lia).
  pose proof (Nat.mod_upper_bound k (shape1 a)). lia.
Qed.

Lemma blocks_of_ones_full (h : heap) (arr : loc) (a : ndarray) :
  h !! arr = Some a → well_shaped a → 0 < shape0 a → 0 < shape1 a →
  (∀ x y, x < shape0 a → y < shape1 a → getitem a x y = true) →
  ∃ h', blocks_of_ones h arr
        = Some (h', Ok [Block 0 0 (shape0 a - 1) (shape1 a - 1)]).
Proof.
  intros Harr Hwf Hs0 Hs1 Hfull.
  destruct (copy_fresh h arr a Harr) as [Hcopy _].
  unfold blocks_of_ones, blocks_of_ones_fuel. rewrite Harr, Hcopy. simpl.
  destruct (loop_body_full a Hwf Hs0 Hs1 Hfull)
    as (Hpos & a' & Hbody & Hsum').
  rewrite lookup_insert_eq.
  destruct (np_sum (data a)) as [|n] eqn:Hsum; [lia|].
  simpl. rewrite Hbody. rewrite lookup_insert_eq, Hsum'. simpl.
  by eexists.
Qed.

End FullMatrix.

(** X2: on a matrix with no true cell [blocks_of_ones] returns no block,
    and on a matrix whose cells are all true it returns the one block that
    spans the matrix. *)
Theorem blocks_of_ones_empty_and_full (h : heap) (arr : loc) (a : ndarray) :
  h !! arr = Some a → well_shaped a →
  (np_sum (data a) = 0 → ∃ h', blocks_of_ones h arr = Some (h', Ok [])) ∧
  (0 < shape0 a → 0 < shape1 a →
   (∀ x y, x < shape0 a → y < shape1 a → getitem a x y = true) →
   ∃ h', blocks_of_ones h arr
         = Some (h', Ok [Block 0 0 (shape0 a - 1) (shape1 a - 1)])).
Proof.
  intros Harr Hwf. split.
  - intros Hsum.
    destruct (copy_fresh h arr a Harr) as [Hcopy _].
    unfold blocks_of_ones, blocks_of_ones_fuel. rewrite Harr, Hcopy. simpl.
    rewrite lookup_insert_eq, Hsum. simpl. by eexists.
  - by apply blocks_of_ones_full.
Qed.

Lemma blocks_of_ones_empty_and_full_witness :
  let a := of_rows [[true; true]; [true; true]; [true; true]] in
  ∃ h', blocks_of_ones {[ 0 := a ]} 0 = Some (h', Ok [Block 0 0 2 1]).
Proof.
  intros a.
  destruct (blocks_of_ones_empty_and_full {[ 0 := a ]} 0 a) as [_ Hfull];
    [reflexivity | reflexivity |].
  apply Hfull; [vm_compute; lia | vm_compute; lia |].
  intros x y Hx Hy. change (shape0 a) with 3 in Hx. change (shape1 a) with 2 in Hy.
  destruct x as [|[|[|x]]]; [| | |lia];
    (destruct y as [|[|y]]; [reflexivity | reflexivity | lia]).
Defined.

(** ** The matrix of missing predictions *)

Section IsNullMatrix.

(** Rows laid end to end: the cell [(x, y)] is at [x * m + y]. *)
Lemma lookup_rows {A : Type} (f : nat → list A) (m s n x y : nat) :
  (∀ i, length (f i) = m) → x < n → y < m →
  (seq s n ≫= f) !! (x * m + y) = f (s + x) !! y.
Proof.
  intros Hlen. revert s x. induction n as [|n IH]; intros s x Hx Hy; [lia|].
  simpl. destruct x as [|x].
  - rewrite lookup_app_l by (rewrite Hlen; lia). by rewrite Nat.add_0_r.
  - rewrite lookup_app_r by (rewrite Hlen; lia). rewrite Hlen.
    replace (S x * m + y - m) with (x * m + y) by lia.
    rewrite IH by lia. by replace (S s + x) with (s + S x) by lia.
Qed.

Lemma length_rows {A : Type} (f : nat → list A) (m s n : nat) :
  (∀ i, length (f i) = m) → length (seq s n ≫= f) = n * m.
Proof.
  intros Hlen. revert s. induction n as [|n IH]; intros s; [done|].
  simpl. rewrite length_app, Hlen, IH. done.
Qed.

Lemma is_null_matrix_well_shaped (df : DataFrame)
    (manifest_df : list manifest_row) (alleles : list string) :
  well_shaped (is_null_matrix df manifest_df alleles).
Proof.
  unfold well_shaped, is_null_matrix. simpl.
  apply length_rows. intros i. by rewrite length_fmap.
Qed.

Lemma is_null_matrix_getitem (df : DataFrame)
    (manifest_df : list manifest_row) (alleles : list string)
    (i j : nat) (a : string) :
  i < length (index df) → alleles !! j = Some a →
  getitem (is_null_matrix df manifest_df alleles) i j
  = is_null_cell df manifest_df i a.
Proof.
  intros Hi Hj. unfold getitem, is_null_matrix. simpl.
  rewrite (lookup_rows _ (length alleles) 0).
  - simpl. rewrite list_lookup_fmap, Hj. done.
  - intros k. by rewrite length_fmap.
  - done.
  - by eapply lookup_lt_Some.
Qed.

Lemma is_null_cell_nan_frame (idx cols : list string)
    (manifest_df : list manifest_row) (i : nat) (a : string) :
  i < length idx →
  (∃ r, r ∈ manifest_df ∧ allele r = a) →
  is_null_cell (nan_frame idx cols) manifest_df i a = true.
Proof.
  intros Hi (r & Hr & Ha). unfold is_null_cell.
  apply existsb_exists. exists r. split.
  - apply list_elem_of_In, list_elem_of_filter. done.
  - unfold cell. rewrite nan_frame_lookup. case_decide; [|done].
    simpl. rewrite lookup_replicate_2 by done. done.
Qed.

Lemma new_manifest_has_allele (alleles : list string) (p : predictor)
    (a : string) :
  a ∈ alleles → ∃ r, r ∈ new_manifest alleles p ∧ allele r = a.
Proof.
  intros Ha.
  exists (Row a "affinity" (a +:+ " " +:+ "affinity")
              (filename_of_col (a +:+ " " +:+ "affinity"))).
  split; [|done]. unfold new_manifest.
  apply list_elem_of_bind. exists a. split; [|done].
  apply list_elem_of_bind. exists "affinity". split.
  - by apply list_elem_of_singleton.
  - destruct p; simpl; left.
Qed.

End IsNullMatrix.

(** X3: the matrix of missing predictions has one row per peptide and one
    column per allele, and its cell for a peptide and an allele is true
    exactly when one of the allele's columns is NaN (or absent) at the
    peptide's row. *)
Theorem is_null_matrix_cells (df : DataFrame)
    (manifest_df : list manifest_row) (alleles : list string)
    (i j : nat) (a : string) :
  i < length (index df) → alleles !! j = Some a →
  well_shaped (is_null_matrix df manifest_df alleles) ∧
  shape0 (is_null_matrix df manifest_df alleles) = length (index df) ∧
  shape1 (is_null_matrix df manifest_df alleles) = length alleles ∧
  (getitem (is_null_matrix df manifest_df alleles) i j = true ↔
   ∃ r, r ∈ manifest_df ∧ allele r = a ∧
        (cell df i (col r) = Some NaN ∨ cell df i (col r) = None)).
Proof.
  intros Hi Hj.
  split_and!; [apply is_null_matrix_well_shaped | done | done |].
  rewrite (is_null_matrix_getitem df manifest_df alleles i j a Hi Hj).
  unfold is_null_cell. rewrite existsb_exists. split.
  - intros (r & Hr & Hnull).
    apply list_elem_of_In, list_elem_of_filter in Hr as [Ha Hr].
    exists r. split_and!; [done..|].
    destruct (cell df i (col r)) as [[]|]; simpl in Hnull; eauto; done.
  - intros (r & Hr & Ha & Hnull). exists r. split.
    + apply list_elem_of_In, list_elem_of_filter. done.
    + by destruct Hnull as [-> | ->].
Qed.

Lemma is_null_matrix_cells_witness :
  getitem (is_null_matrix Examples.reused_A Examples.manifest_A ["A"]) 1 0
  = true ↔
  ∃ r, r ∈ Examples.manifest_A ∧ allele r = "A" ∧
       (cell Examples.reused_A 1 (col r) = Some NaN ∨
        cell Examples.reused_A 1 (col r) = None).
Proof.
  apply (is_null_matrix_cells Examples.reused_A Examples.manifest_A ["A"]
           1 0 "A"); [vm_compute; lia | reflexivity].
Defined.

(** X4: a reuse run that finds nothing to reuse (every cell still NaN)
    finds the one block that spans the matrix and generates the work items
    of a fresh run. *)
Theorem reuse_of_nothing_is_fresh (peptides alleles : list string)
    (p : predictor) (chunk_size : Z) :
  peptides ≠ [] → alleles ≠ [] →
  ∃ h' blocks,
    blocks_of_ones
      {[ 0 := is_null_matrix
                (nan_frame peptides (col <$> new_manifest alleles p))
                (new_manifest alleles p) alleles ]} 0
    = Some (h', Ok blocks) ∧
    blocks = [Block 0 0 (length peptides - 1) (length alleles - 1)] ∧
    reuse_work_items peptides peptides alleles chunk_size blocks
    = fresh_work_items peptides alleles chunk_size.
Proof.
  intros Hpep Hall.
  set (m := new_manifest alleles p).
  set (missing := is_null_matrix (nan_frame peptides (col <$> m)) m alleles).
  assert (0 < length peptides) as Hn by (destruct peptides; [done|simpl; lia]).
  assert (0 < length alleles) as Hk by (destruct alleles; [done|simpl; lia]).
  assert (∃ h', blocks_of_ones {[ 0 := missing ]} 0
                = Some (h', Ok [Block 0 0 (shape0 missing - 1)
                                          (shape1 missing - 1)]))
    as [h' Hrun].
  { apply (blocks_of_ones_full {[ 0 := missing ]} 0 missing).
    - apply lookup_singleton_eq.
    - apply is_null_matrix_well_shaped.
    - done.
    - done.
    - intros x y Hx Hy. simpl in Hx, Hy.
      destruct (lookup_lt_is_Some_2 alleles y Hy) as [a Ha].
      unfold missing.
      rewrite (is_null_matrix_getitem _ m alleles x y a); [|done..].
      apply is_null_cell_nan_frame; [done|].
      apply new_manifest_has_allele. by eapply list_elem_of_lookup_2. }
  exists h', [Block 0 0 (length peptides - 1) (length alleles - 1)].
  split; [exact Hrun|]. split; [done|].
  unfold reuse_work_items, fresh_work_items, fresh_chunks. simpl.
  unfold slice. simpl.
  replace (length alleles - 1 + 1 - 0) with (length alleles) by lia.
  replace (length peptides - 1 + 1 - 0) with (length peptides) by lia.
  rewrite ?drop_0, ?firstn_all, ?drop_0.
  destruct (ceil_ratio (length peptides) chunk_size) as [n|e]; simpl; [|done].
  destruct (array_split peptides n) as [chunks|e]; simpl; done.
Qed.

Lemma reuse_of_nothing_is_fresh_witness :
  ∃ h' blocks,
    blocks_of_ones
      {[ 0 := is_null_matrix
                (nan_frame Examples.peptides3
                   (col <$> new_manifest ["A"; "B"] mhcflurry))
                (new_manifest ["A"; "B"] mhcflurry) ["A"; "B"] ]} 0
    = Some (h', Ok blocks) ∧
    reuse_work_items Examples.peptides3 Examples.peptides3 ["A"; "B"] 2 blocks
    = fresh_work_items Examples.peptides3 ["A"; "B"] 2.
Proof.
  destruct (reuse_of_nothing_is_fresh Examples.peptides3 ["A"; "B"]
              mhcflurry 2) as (h' & blocks & Hrun & _ & Hsame);
    [discriminate | discriminate |].
  exists h', blocks. split; [exact Hrun | exact Hsame].
Defined.

(** ** The sizes of the chunks *)

Section ChunkSizes.
Context {A : Type}.

Lemma slices_lengths (l : list A) (sizes : list nat) (acc : nat) :
  acc + sum_list sizes ≤ length l →
  length <$>
    ((λ i, slice l (default 0 ((acc :: cumsum_from acc sizes) !! i))
                   (default 0 ((acc :: cumsum_from acc sizes) !! S i)))
       <$> seq 0 (length sizes))
  = sizes.
Proof.
  revert acc. induction sizes as [|s sizes IH]; intros acc Hsum; [done|].
  cbn [length seq cumsum_from]. rewrite !fmap_cons.
  change (sum_list (s :: sizes)) with (s + sum_list sizes) in Hsum.
  f_equal.
  - unfold slice. simpl. rewrite length_take, length_drop. lia.
  - rewrite <- fmap_S_seq, <- (list_fmap_compose S).
    apply (IH (acc + s)). lia.
Qed.

Lemma array_split_lengths (ary : list A) (n : Z) (chunks : list (list A)) :
  array_split ary n = Ok chunks →
  (0 < n)%Z ∧
  length <$> chunks
  = replicate (length ary `mod` Z.to_nat n) (length ary / Z.to_nat n + 1)
    ++ replicate (Z.to_nat n - length ary `mod` Z.to_nat n)
                 (length ary / Z.to_nat n).
Proof.
  unfold array_split. destruct (Z.leb_spec n 0) as [|Hn]; [done|].
  intros [= <-]. split; [done|].
  destruct (section_sizes_sum (length ary) (Z.to_nat n))
    as (sizes & Hsizes & Hlen & Hsum); [lia|].
  unfold section_sizes in Hsizes. injection Hsizes as Hsizes.
  rewrite Hsizes, <- Hlen.
  apply (slices_lengths ary sizes 0). lia.
Qed.

End ChunkSizes.

(** X5: in a fresh run over fewer than 2^53 peptides with a chunk size
    C >= 1 every chunk has at least one and at most C peptides, and the
    sizes of two chunks differ by at most one. *)
Theorem fresh_chunks_sizes (peptides : list string) (chunk_size : Z)
    (chunks : list (list string)) :
  (0 < chunk_size)%Z → (Z.of_nat (length peptides) < 2 ^ 53)%Z →
  fresh_chunks peptides chunk_size = Ok chunks →
  Forall (λ c, 0 < length c ∧ (Z.of_nat (length c) ≤ chunk_size)%Z) chunks ∧
  ∀ c c', c ∈ chunks → c' ∈ chunks → length c ≤ length c' + 1.
Proof.
  intros Hc Hshort Hrun. unfold fresh_chunks in Hrun.
  destruct (ceil_ratio_cases (length peptides) chunk_size Hc Hshort)
    as [[Hk _]|(k & Hk & _ & _ & _ & Hup & Hlow)].
  { rewrite Hk in Hrun. simpl in Hrun.
    by rewrite array_split_raises in Hrun. }
  rewrite Hk in Hrun. simpl in Hrun.
  destruct (array_split_lengths peptides k chunks Hrun) as [Hkpos Hlens].
  set (n := Z.to_nat k) in *.
  set (q := length peptides / n) in *.
  set (e := length peptides `mod` n) in *.
  assert (n ≠ 0) as Hn by lia.
  assert (length peptides = n * q + e) as Hdiv
    by apply (Nat.div_mod_eq (length peptides) n).
  assert (e < n) as He by by apply Nat.mod_upper_bound.
  assert (Z.of_nat n = k) as Hnk by lia.
  assert (∀ c, c ∈ chunks →
            length c = q ∨ (length c = q + 1 ∧ 0 < e)) as Hsize.
  { intros c Hc'.
    assert (length c ∈ length <$> chunks) as Hin
      by (apply list_elem_of_fmap; eauto).
    rewrite Hlens in Hin.
    apply elem_of_app in Hin as [Hin|Hin];
      apply elem_of_replicate in Hin as [-> Hne]; [right | left]; [|done].
    split; [done | lia]. }
  assert (0 < q) as Hq.
  { destruct q; [|lia]. exfalso. nia. }
  assert (Z.of_nat q ≤ chunk_size)%Z as HqC by nia.
  assert (0 < e → (Z.of_nat q + 1 ≤ chunk_size)%Z) as HqC' by nia.
  split.
  - apply Forall_forall. intros c Hc'.
    destruct (Hsize c Hc') as [->|[-> ?]]; lia.
  - intros c c' Hc1 Hc2.
    destruct (Hsize c Hc1) as [->|[-> ?]],
             (Hsize c' Hc2) as [->|[-> ?]]; lia.
Qed.

Lemma fresh_chunks_sizes_witness :
  Forall (λ c : list string, 0 < length c ∧ (Z.of_nat (length c) ≤ 2)%Z)
    [["AAAA"; "CCCC"]; ["DDDD"]].
Proof.
  apply (fresh_chunks_sizes Examples.peptides3 2);
    [lia | simpl; lia | by vm_compute].
Defined.

(** X6: a chunk size of zero raises [ZeroDivisionError] and a negative
    chunk size raises [ValueError], in a fresh run and at the first block
    of a reuse run alike. *)
Theorem bad_chunk_size_raises (peptides index_ columns_ alleles : list string)
    (chunk_size : Z) (b : block) (blocks : list block) :
  (chunk_size = 0%Z →
   fresh_work_items peptides alleles chunk_size = Raise ZeroDivisionError ∧
   reuse_work_items peptides index_ columns_ chunk_size (b :: blocks)
   = Raise ZeroDivisionError) ∧
  ((chunk_size < 0)%Z →
   fresh_work_items peptides alleles chunk_size = Raise ValueError ∧
   reuse_work_items peptides index_ columns_ chunk_size (b :: blocks)
   = Raise ValueError).
Proof.
  split.
  - intros ->. split; [done|]. by destruct b.
  - intros Hneg.
    assert (∀ n, ∃ k, ceil_ratio n chunk_size = Ok k ∧ (k ≤ 0)%Z) as Hceil
      by (intros n; by apply ceil_ratio_nonpos).
    split.
    + unfold fresh_work_items, fresh_chunks.
      destruct (Hceil (length peptides)) as (k & -> & Hk). simpl.
      by rewrite array_split_raises.
    + destruct b as [r1 c1 r2 c2]. unfold reuse_work_items. simpl.
      destruct (Hceil (length (slice index_ r1 (r2 + 1)))) as (k & -> & Hk).
      simpl. by rewrite array_split_raises.
Qed.

Lemma bad_chunk_size_raises_witness :
  fresh_work_items Examples.peptides3 ["A"] (-5) = Raise ValueError ∧
  fresh_work_items Examples.peptides3 ["A"] 0 = Raise ZeroDivisionError.
Proof.
  destruct (bad_chunk_size_raises Examples.peptides3 [] [] ["A"] (-5)
              (Block 0 0 0 0) []) as [_ Hneg].
  destruct (bad_chunk_size_raises Examples.peptides3 [] [] ["A"] 0
              (Block 0 0 0 0) []) as [Hzero _].
  split; [apply Hneg; lia | by apply Hzero].
Defined.

(** ** Tasks: order, tightness, routing *)

Section TaskOrder.
Context {A : Type} (key : A → nat).

Lemma insert_by_elem (x y : A) (l : list A) :
  y ∈ insert_by key x l ↔ y = x ∨ y ∈ l.
Proof. by rewrite insert_by_Permutation, elem_of_cons. Qed.

Lemma insert_by_sorted (x : A) (l : list A) :
  StronglySorted (λ a b, key a ≤ key b) l →
  StronglySorted (λ a b, key a ≤ key b) (insert_by key x l).
Proof.
  induction 1 as [|y l Hsorted IH Hy]; simpl.
  - repeat constructor.
  - destruct (Nat.leb_spec (key x) (key y)) as [Hle|Hgt].
    + constructor; [by constructor|]. constructor; [done|].
      eapply Forall_impl; [exact Hy|]. simpl. intros z Hz. lia.
    + constructor; [done|]. apply Forall_forall. intros z Hz.
      apply insert_by_elem in Hz as [->|Hz]; [lia|].
      by apply (proj1 (Forall_forall _ _) Hy).
Qed.

Lemma sorted_sorted (l : list A) :
  StronglySorted (λ a b, key a ≤ key b) (sorted key l).
Proof.
  induction l as [|x l IH]; [constructor|].
  unfold sorted in *. simpl. by apply insert_by_sorted.
Qed.

Lemma insert_by_stable (k : nat) (x : A) (l : list A) :
  filter (λ y, key y = k) (insert_by key x l)
  = filter (λ y, key y = k) (x :: l).
Proof.
  induction l as [|y l IH]; simpl; [done|].
  destruct (Nat.leb_spec (key x) (key y)) as [Hle|Hgt]; [done|].
  rewrite (filter_cons _ y), IH, !(filter_cons _ x), (filter_cons _ y).
  destruct (decide (key x = k)), (decide (key y = k)); try done. lia.
Qed.

Lemma sorted_stable (k : nat) (l : list A) :
  filter (λ y, key y = k) (sorted key l) = filter (λ y, key y = k) l.
Proof.
  induction l as [|x l IH]; [done|].
  unfold sorted in *. simpl. rewrite insert_by_stable.
  by rewrite !(filter_cons _ x), IH.
Qed.

End TaskOrder.

(** X7: read task after task, the work items come in ascending order of
    peptide count, and work items with the same peptide count keep the
    order they were generated in. *)
Theorem make_tasks_ascending (chunk_size : Z) (work_items : list work_item) :
  ∃ tasks, make_tasks chunk_size work_items = Ok tasks ∧
    StronglySorted (λ a b, length (peptides a) ≤ length (peptides b))
      (concat (work_item_dicts <$> tasks)) ∧
    ∀ k, filter (λ w, length (peptides w) = k)
           (concat (work_item_dicts <$> tasks))
         = filter (λ w, length (peptides w) = k) work_items.
Proof.
  destruct (make_tasks_packed chunk_size work_items)
    as (tasks & Hrun & Hcat & _ & _).
  exists tasks. split; [done|]. rewrite Hcat. split.
  - apply sorted_sorted.
  - intros k. apply sorted_stable.
Qed.

Section Tightness.
Variable chunk_size : Z.

Lemma new_task_tight (done_ : list work_item) (tasks : list task)
    (last_ : option nat) (w : work_item) :
  packed chunk_size done_ (tasks, last_) → tight chunk_size tasks →
  (∀ n, last_ = Some n →
        (chunk_size ≤ Z.of_nat (length (peptides w)) + Z.of_nat n)%Z) →
  tight chunk_size (tasks ++ [Task [w]]).
Proof.
  intros (_ & _ & _ & Hlast) Htight Hfull i t t' w' Hi HSi Hhead.
  simpl in Hlast.
  destruct (decide (S i < length tasks)) as [Hlt|Hge].
  - rewrite lookup_app_l in Hi, HSi by lia. by eapply Htight.
  - assert (S i = length tasks) as HSi'.
    { apply lookup_lt_Some in HSi. rewrite length_app in HSi. simpl in HSi.
      lia. }
    rewrite lookup_app_l in Hi by lia.
    rewrite lookup_app_r in HSi by lia.
    replace (S i - length tasks) with 0 in HSi by lia.
    injection HSi as <-. simpl in Hhead. injection Hhead as <-.
    destruct last_ as [n|]; [|subst tasks; simpl in HSi'; lia].
    destruct Hlast as (tl & Hlast & Hn).
    assert (t = tl) as ->.
    { rewrite last_lookup in Hlast.
      replace (pred (length tasks)) with i in Hlast by lia. congruence. }
    specialize (Hfull n eq_refl). lia.
Qed.

Lemma pack_step_tight (done_ : list work_item)
    (st : list task * option nat) (w : work_item) :
  packed chunk_size done_ st → tight chunk_size st.1 →
  ∃ st', pack_step chunk_size st w = Ok st' ∧ tight chunk_size st'.1.
Proof.
  destruct st as [tasks [n|]]; intros Hinv Htight; simpl in *.
  - destruct (Z.ltb_spec
                (Z.of_nat (length (peptides w)) + Z.of_nat n) chunk_size)
      as [Hfits|Hfull].
    + destruct Hinv as (_ & Hne & _ & t & Hlast & _). simpl in *.
      unfold append_to_last. rewrite Hlast. simpl.
      apply last_Some in Hlast as [tasks' ->].
      eexists. split; [done|]. simpl.
      replace (length (tasks' ++ [t]) - 1) with (length tasks' + 0)
        by (rewrite length_app; simpl; lia).
      rewrite alter_app_r. simpl.
      apply Forall_app in Hne as [_ Hne].
      rewrite Forall_singleton in Hne.
      intros i t1 t2 w' Hi HSi Hhead.
      destruct (decide (S i < length tasks')) as [Hlt|Hge].
      * rewrite lookup_app_l in Hi, HSi by lia.
        apply (Htight i t1 t2 w'); [| |done];
          by rewrite lookup_app_l by lia.
      * assert (S i = length tasks') as HSi'.
        { apply lookup_lt_Some in HSi. rewrite length_app in HSi.
          simpl in HSi. lia. }
        rewrite lookup_app_l in Hi by lia.
        rewrite lookup_app_r in HSi by lia.
        replace (S i - length tasks') with 0 in HSi by lia.
        injection HSi as <-. simpl in Hhead.
        apply (Htight i t1 t w').
        -- by rewrite lookup_app_l by lia.
        -- rewrite lookup_app_r by lia.
           by replace (S i - length tasks') with 0 by lia.
        -- simpl in Hne.
           destruct (work_item_dicts t) as [|w1 ws1]; [done|]. exact Hhead.
    + eexists. split; [done|]. simpl.
      eapply new_task_tight; [exact Hinv | done |].
      intros n' [= <-]. lia.
  - eexists. split; [done|]. simpl.
    eapply new_task_tight; [exact Hinv | done | done].
Qed.

Lemma pack_loop_tight (ws done_ : list work_item)
    (st : list task * option nat) :
  packed chunk_size done_ st → tight chunk_size st.1 →
  ∃ st', for_each (pack_step chunk_size) st ws = Ok st' ∧
         tight chunk_size st'.1.
Proof.
  revert done_ st.
  induction ws as [|w ws IH]; intros done_ st Hinv Htight; simpl.
  - by exists st.
  - destruct (pack_step_packed chunk_size done_ st w Hinv)
      as (st1 & Hstep & Hinv1).
    destruct (pack_step_tight done_ st w Hinv Htight)
      as (st1' & Hstep' & Htight1).
    rewrite Hstep in Hstep'. injection Hstep' as <-.
    rewrite Hstep. simpl. by apply (IH _ _ Hinv1).
Qed.

End Tightness.

(** X8: the packing starts a new task only when it must: the first work
    item of every task but the first, added to the peptides of the task
    before it, reaches the chunk size. *)
Theorem make_tasks_tight (chunk_size : Z) (work_items : list work_item) :
  ∃ tasks, make_tasks chunk_size work_items = Ok tasks ∧
    ∀ i t t' w, tasks !! i = Some t → tasks !! S i = Some t' →
      head (work_item_dicts t') = Some w →
      (chunk_size ≤ Z.of_nat (task_peptides t)
                    + Z.of_nat (length (peptides w)))%Z.
Proof.
  unfold make_tasks.
  destruct (pack_loop_tight chunk_size
              (sorted (λ d, length (peptides d)) work_items) [] ([], None))
    as ([tasks last_] & -> & Htight).
  - unfold packed. simpl. by repeat split.
  - intros i t t' w Hi. simpl in Hi. by rewrite lookup_nil in Hi.
  - exists tasks. split; [done|]. exact Htight.
Qed.

Lemma number_work_items_lookup (work_items : list work_item) (i : nat)
    (w : work_item) :
  number_work_items work_items !! i = Some w ↔
  ∃ w0, work_items !! i = Some w0 ∧
        w = WorkItem (alleles w0) (peptides w0) (Some i).
Proof.
  unfold number_work_items. rewrite list_lookup_imap.
  destruct (work_items !! i) as [w0|]; simpl.
  - split; [intros [= <-]; eauto | by intros (? & [= <-] & ->)].
  - split; [done | by intros (? & ? & _)].
Qed.

(** X9: every work item of every task carries the index at which the list
    of numbered work items holds that very work item, with the alleles and
    peptides it was generated with, so a result sent back under that index
    is routed to the rows of the right peptides. *)
Theorem make_tasks_routing (chunk_size : Z) (work_items : list work_item) :
  ∃ tasks,
    make_tasks chunk_size (number_work_items work_items) = Ok tasks ∧
    ∀ t w, t ∈ tasks → w ∈ work_item_dicts t →
      ∃ i w0, work_item_num w = Some i ∧
        number_work_items work_items !! i = Some w ∧
        work_items !! i = Some w0 ∧
        alleles w = alleles w0 ∧ peptides w = peptides w0.
Proof.
  destruct (make_tasks_packed chunk_size (number_work_items work_items))
    as (tasks & Hrun & Hcat & _ & _).
  exists tasks. split; [done|]. intros t w Ht Hw.
  assert (w ∈ number_work_items work_items) as Hin.
  { rewrite <- (sorted_Permutation (λ d, length (peptides d))), <- Hcat.
    apply list_elem_of_In, in_concat. exists (work_item_dicts t).
    split; [|by apply list_elem_of_In].
    apply list_elem_of_In, list_elem_of_fmap. by exists t. }
  apply list_elem_of_lookup in Hin as [i Hi].
  pose proof Hi as Hi'.
  apply number_work_items_lookup in Hi' as (w0 & Hw0 & ->).
  exists i, w0. done.
Qed.

(** ** Assignments into the result matrix *)

Section Assignments.

(** The value a broadcast array has at a position: the value of the
    array at that position when it is as long as the selection, and its
    only value when it has one. *)
Lemma broadcast_to_lookup {A : Type} (n j : nat) (vals vals' : list A) :
  broadcast_to n vals = Ok vals' → j < n →
  ∃ v, vals' !! j = Some v ∧
    (length vals = n → vals !! j = Some v) ∧
    (∀ v0, vals = [v0] → v = v0).
Proof.
  unfold broadcast_to. intros Hb Hj.
  destruct (Nat.eqb_spec (length vals) n) as [Hlen|Hlen].
  - injection Hb as <-.
    destruct (lookup_lt_is_Some_2 vals j) as [v Hv]; [by rewrite Hlen|].
    exists v. split_and!; [done | done |].
    intros v0 ->. simpl in Hlen. subst n.
    destruct j; [|lia]. by injection Hv as <-.
  - destruct vals as [|v0 [|]]; [done | | done].
    injection Hb as <-. exists v0. split_and!.
    + by apply lookup_replicate_2.
    + intros Hlen'. by destruct Hlen.
    + by intros v1 [= <-].
Qed.

(** What [df.loc[labels, c] = vals] does to the labels of the frame and to
    its other columns. *)
Lemma loc_setitem_shape (df df' : DataFrame) (labels : list string)
    (c : string) (vals : list float32) :
  loc_setitem df labels c vals = Ok df' →
  (∃ vals', broadcast_to (length labels) vals = Ok vals') ∧
  index df' = index df ∧
  (c ∈ columns df → columns df' = columns df) ∧
  (∀ c', c' ≠ c → col_data df' !! c' = col_data df !! c').
Proof.
  intros Hset.
  apply loc_setitem_inv in Hset as (vals' & Hb & _ & _ & ->).
  simpl. split_and!; [by exists vals' | done | |].
  - intros Hc. by rewrite bool_decide_eq_true_2.
  - intros c' Hne. by rewrite lookup_insert_ne.
Qed.

(** The rows of the labels get the values assigned to them. *)
Lemma loc_setitem_writes (df df' : DataFrame) (labels : list string)
    (c : string) (vals vals' : list float32) (i : nat) (p : string)
    (v : float32) :
  loc_setitem df labels c vals = Ok df' →
  broadcast_to (length labels) vals = Ok vals' →
  NoDup labels → (p, v) ∈ zip labels vals' → index df !! i = Some p →
  (∀ old, col_data df !! c = Some old → length old = length (index df)) →
  cell df' i c = Some v.
Proof.
  intros Hset Hb Hnd Hpv Hi Hold.
  apply loc_setitem_inv in Hset as (vals0 & Hb0 & Hlen & _ & ->).
  rewrite Hb in Hb0. injection Hb0 as <-.
  unfold cell. simpl.
  rewrite lookup_insert_eq. simpl.
  apply (fold_set_label_lookup _ _ _ i p v); [|done..|].
  - rewrite fst_zip by lia. done.
  - destruct (col_data df !! c) as [old|]; simpl.
    + by apply Hold.
    + apply length_replicate.
Qed.

Variable clock : nat → Z.
Variable out : string.
Variable files : gmap string string.
Variable work_items : list work_item.

Lemma merge_columns_writes (n : nat) (w : work_item)
    (mapping : list (string * list float32)) (st st' : merge_state)
    (c : string) (predictions : list float32) (i j : nat) (p : string) :
  for_each (merge_column clock out files work_items n) st mapping = Ok st' →
  NoDup mapping.*1 → (c, predictions) ∈ mapping →
  work_items !! n = Some w → NoDup (peptides w) →
  peptides w !! j = Some p → index (result_df st) !! i = Some p →
  (∀ old, col_data (result_df st) !! c = Some old →
          length old = length (index (result_df st))) →
  ∃ v, cell (result_df st') i c = Some v ∧
    (length predictions = length (peptides w) → predictions !! j = Some v) ∧
    (∀ v0, predictions = [v0] → v = v0).
Proof.
  intros Hrun Hnd Hin Hw Hndp Hj Hi. revert st Hrun Hi.
  induction mapping as [|[c0 preds0] mapping IH]; intros st Hrun Hi Hold.
  - by apply not_elem_of_nil in Hin.
  - cbn [for_each] in Hrun.
    destruct (merge_column clock out files work_items n st (c0, preds0))
      as [st1|] eqn:Hstep; [|done].
    cbn [bind] in Hrun.
    destruct (merge_column_frame _ _ _ _ _ _ _ _ _ Hstep) as (w' & Hw' & Hset).
    rewrite Hw in Hw'. injection Hw' as <-.
    destruct (loc_setitem_shape _ _ _ _ _ Hset)
      as ([vals' Hb] & Hidx & _ & Hother).
    simpl in Hnd. apply NoDup_cons in Hnd as [Hfresh Hnd].
    apply elem_of_cons in Hin as [[= -> ->]|Hin].
    + destruct (broadcast_to_lookup _ j _ _ Hb) as (v & Hv & Haligned & Hone).
      { by eapply lookup_lt_Some. }
      exists v. split; [|done].
      destruct (merge_columns_frame _ _ _ _ _ _ _ _ Hrun) as [_ Hframe].
      apply (Hframe i p c0 v); [by rewrite Hidx | | by left].
      apply (loc_setitem_writes _ _ _ _ _ _ i p v Hset Hb);
        [done | | done | done].
      apply list_elem_of_lookup. exists j. by apply lookup_zip_Some.
    + assert (c ≠ c0) as Hne.
      { intros ->. apply Hfresh. apply list_elem_of_fmap.
        by exists (c0, predictions). }
      apply (IH Hnd Hin st1 Hrun); [by rewrite Hidx|].
      intros old. rewrite Hother, Hidx by done. apply Hold.
Qed.

End Assignments.

(** X10: a merge step that completes writes the predictions where they
    belong: for every column of the mapping and every peptide of the work
    item, the cell at the peptide's row holds the prediction at the
    peptide's position in the work item when there are as many predictions
    as peptides, and the one prediction when the array holds just one
    (it is then given to every peptide of the work item). *)
Theorem merge_result_writes (clock : nat → Z) (out : string)
    (files : gmap string string) (work_items : list work_item)
    (st st' : merge_state) (work_item_num : nat) (w : work_item)
    (col_to_predictions : list (string * list float32))
    (c : string) (predictions : list float32) (i j : nat) (p : string) :
  merge_result clock out files work_items st
    (work_item_num, col_to_predictions) = Ok st' →
  NoDup col_to_predictions.*1 → (c, predictions) ∈ col_to_predictions →
  work_items !! work_item_num = Some w → NoDup (peptides w) →
  peptides w !! j = Some p → index (result_df st) !! i = Some p →
  (∀ old, col_data (result_df st) !! c = Some old →
          length old = length (index (result_df st))) →
  ∃ v, cell (result_df st') i c = Some v ∧
    (length predictions = length (peptides w) → predictions !! j = Some v) ∧
    (∀ v0, predictions = [v0] → v = v0).
Proof. apply merge_columns_writes. Qed.

Lemma merge_result_writes_witness :
  (∃ st',
    merge_result (λ _, 1000%Z) "out" (col_to_filename Examples.manifest_AB)
      Examples.two_work_items Examples.merge_start
      (0, [("B affinity", [Num 7; Num 8])]) = Ok st' ∧
    cell (result_df st') 1 "B affinity" = Some (Num 8)) ∧
  (∃ st',
    merge_result (λ _, 1000%Z) "out" (col_to_filename Examples.manifest_AB)
      Examples.two_work_items Examples.merge_start
      (0, [("B affinity", [Num 7])]) = Ok st' ∧
    cell (result_df st') 1 "B affinity" = Some (Num 7)).
Proof.
  split.
  - destruct (merge_result (λ _, 1000%Z) "out"
                (col_to_filename Examples.manifest_AB)
                Examples.two_work_items Examples.merge_start
                (0, [("B affinity", [Num 7; Num 8])])) as [st'|e] eqn:Hrun;
      [|vm_compute in Hrun; discriminate Hrun].
    exists st'. split; [reflexivity|].
    destruct (merge_result_writes _ _ _ _ _ _ 0
                (WorkItem ["A"] ["AAAA"; "CCCC"] (Some 0))
                _ "B affinity" [Num 7; Num 8] 1 1 "CCCC" Hrun)
      as (v & Hcell & Hv & _).
    + apply NoDup_singleton.
    + apply list_elem_of_singleton. reflexivity.
    + reflexivity.
    + apply (bool_decide_unpack _). by vm_compute.
    + reflexivity.
    + reflexivity.
    + intros old Hold. vm_compute in Hold. injection Hold as <-. reflexivity.
    + specialize (Hv eq_refl). simpl in Hv. injection Hv as <-. exact Hcell.
  - destruct (merge_result (λ _, 1000%Z) "out"
                (col_to_filename Examples.manifest_AB)
                Examples.two_work_items Examples.merge_start
                (0, [("B affinity", [Num 7])])) as [st'|e] eqn:Hrun;
      [|vm_compute in Hrun; discriminate Hrun].
    exists st'. split; [reflexivity|].
    destruct (merge_result_writes _ _ _ _ _ _ 0
                (WorkItem ["A"] ["AAAA"; "CCCC"] (Some 0))
                _ "B affinity" [Num 7] 1 1 "CCCC" Hrun)
      as (v & Hcell & _ & Hv).
    + apply NoDup_singleton.
    + apply list_elem_of_singleton. reflexivity.
    + reflexivity.
    + apply (bool_decide_unpack _). by vm_compute.
    + reflexivity.
    + reflexivity.
    + intros old Hold. vm_compute in Hold. injection Hold as <-. reflexivity.
    + rewrite (Hv (Num 7) eq_refl) in Hcell. exact Hcell.
Defined.

(** ** load_results *)

Section LoadResults.

Lemma mask_select_inv {A : Type} (v : list A) (mask : list bool)
    (sel : list A) :
  mask_select v mask = Ok sel →
  length v = length mask ∧
  sel = (fst <$> filter (λ xb, xb.2 = true) (zip v mask)).
Proof.
  unfold mask_select. destruct (length v =? length mask) eqn:Hlen; [|done].
  apply Nat.eqb_eq in Hlen. by intros [= <-].
Qed.

Lemma mask_select_elem {A : Type} (v : list A) (mask : list bool)
    (sel : list A) (x : A) :
  mask_select v mask = Ok sel → x ∈ sel → x ∈ v.
Proof.
  intros [_ ->]%mask_select_inv Hx.
  apply list_elem_of_fmap in Hx as ([y b] & -> & Hy).
  apply list_elem_of_filter in Hy as [_ Hy]. by apply elem_of_zip_l in Hy.
Qed.

Lemma selected_sublist {A : Type} (v : list A) (mask : list bool) :
  (fst <$> filter (λ xb, xb.2 = true) (zip v mask)) `sublist_of` v.
Proof.
  revert mask. induction v as [|x v IH]; intros [|b mask]; simpl;
    try apply sublist_nil_l.
  destruct b.
  - rewrite filter_cons_True by done. simpl. apply sublist_skip, IH.
  - rewrite filter_cons_False by (by intros ?). apply sublist_cons, IH.
Qed.

(** Selecting two arrays with the same mask keeps them aligned. *)
Lemma selected_aligned {A B : Type} (u : list A) (w : list B)
    (mask : list bool) (j : nat) (x : A) (y : B) :
  u !! j = Some x → w !! j = Some y → mask !! j = Some true →
  (x, y) ∈ zip (fst <$> filter (λ xb, xb.2 = true) (zip u mask))
               (fst <$> filter (λ xb, xb.2 = true) (zip w mask)).
Proof.
  revert u w j.
  induction mask as [|b mask IH]; intros [|x0 u] [|y0 w] j Hu Hw Hm;
    try done.
  simpl. destruct j as [|j]; simpl in *.
  - injection Hu as ->. injection Hw as ->. injection Hm as ->.
    rewrite !filter_cons_True by done. simpl. left.
  - specialize (IH u w j Hu Hw Hm). destruct b.
    + rewrite !filter_cons_True by done. simpl. by right.
    + by rewrite !filter_cons_False by (by intros ?).
Qed.

(** Two arrays selected with the same mask are equally long. *)
Lemma selected_length {A B : Type} (u : list A) (w : list B)
    (mask : list bool) :
  length u = length mask → length w = length mask →
  length (fst <$> filter (λ xb, xb.2 = true) (zip u mask))
  = length (fst <$> filter (λ xb, xb.2 = true) (zip w mask)).
Proof.
  revert u w.
  induction mask as [|b mask IH]; intros [|x u] [|y w] Hu Hw; try done.
  simpl in *. destruct b.
  - rewrite !filter_cons_True by done. simpl. f_equal. apply IH; lia.
  - rewrite !filter_cons_False by (by intros ?). apply IH; lia.
Qed.

Lemma load_column_inv (d : directory) (mask : option (list bool))
    (pta : list string) (df df' : DataFrame) (r : manifest_row) :
  load_column d mask pta df r = Ok df' →
  ∃ value value',
    npz d !! path r = Some value ∧
    match mask with
    | Some m => mask_select value m
    | None => Ok value
    end = Ok value' ∧
    loc_setitem df pta (col r) value' = Ok df'.
Proof.
  unfold load_column. intros Hload.
  destruct (npz d !! path r) as [value|]; [|done]. simpl in Hload.
  destruct (match mask with Some m => _ | None => _ end) as [value'|] eqn:Hm;
    [|done].
  simpl in Hload. by exists value, value'.
Qed.

(** Loading the columns of manifest rows that are columns of the frame
    changes neither the labels nor any cell outside those columns and the
    rows of the peptides assigned. *)
Lemma load_columns_frame (d : directory) (mask : option (list bool))
    (pta : list string) (rows : list manifest_row) (df df' : DataFrame) :
  for_each (load_column d mask pta) df rows = Ok df' →
  Forall (λ r, col r ∈ columns df) rows →
  index df' = index df ∧ columns df' = columns df ∧
  ∀ i p c v, index df !! i = Some p → cell df i c = Some v →
    c ∉ col <$> rows ∨ p ∉ pta → cell df' i c = Some v.
Proof.
  revert df. induction rows as [|r rows IH]; intros df Hrun Hcols.
  - injection Hrun as <-. done.
  - cbn [for_each] in Hrun.
    destruct (load_column d mask pta df r) as [df1|] eqn:Hstep; [|done].
    cbn [bind] in Hrun.
    apply Forall_cons in Hcols as [Hcol Hcols].
    destruct (load_column_inv _ _ _ _ _ _ Hstep) as (value & value' & _ & _ & Hset).
    destruct (loc_setitem_shape _ _ _ _ _ Hset) as (_ & Hidx1 & Hcols1 & _).
    destruct (loc_setitem_frame _ _ _ _ _ Hset) as [_ Hframe1].
    specialize (Hcols1 Hcol).
    destruct (IH df1 Hrun) as (Hidx & Hcolumns & Hframe).
    { by rewrite Hcols1. }
    split_and!; [congruence | congruence |].
    intros i p c v Hi Hcell Hout.
    apply (Hframe i p c v); [by rewrite Hidx1 | |].
    + apply (Hframe1 i p c v Hi Hcell).
      destruct Hout as [Hc|Hp]; [left|by right].
      intros ->. apply Hc. rewrite fmap_cons. left.
    + destruct Hout as [Hc|Hp]; [left|by right].
      intros Hin. apply Hc. rewrite fmap_cons. by right.
Qed.

(** The column of a manifest row that is loaded holds, at the row of a
    peptide, the value stored for that peptide. *)
Lemma load_columns_transfer (d : directory) (mask : list bool)
    (prior pta : list string) (rows : list manifest_row) (df df' : DataFrame)
    (r : manifest_row) (vals : list float32) (i j : nat) (p : string)
    (v : float32) :
  for_each (load_column d (Some mask) pta) df rows = Ok df' →
  Forall (λ r, col r ∈ columns df) rows →
  mask_select prior mask = Ok pta → NoDup prior →
  NoDup (col <$> rows) → r ∈ rows →
  npz d !! path r = Some vals →
  prior !! j = Some p → vals !! j = Some v → mask !! j = Some true →
  index df !! i = Some p →
  (∀ old, col_data df !! col r = Some old →
          length old = length (index df)) →
  cell df' i (col r) = Some v.
Proof.
  intros Hrun Hcols Hpta Hndp Hndc Hr Hfile Hj Hv Hm.
  revert df Hrun Hcols.
  induction rows as [|r0 rows IH]; intros df Hrun Hcols Hi Hold.
  - by apply not_elem_of_nil in Hr.
  - cbn [for_each] in Hrun.
    destruct (load_column d (Some mask) pta df r0) as [df1|] eqn:Hstep;
      [|done].
    cbn [bind] in Hrun.
    apply Forall_cons in Hcols as [Hcol Hcols].
    rewrite fmap_cons in Hndc. apply NoDup_cons in Hndc as [Hfresh Hndc].
    destruct (load_column_inv _ _ _ _ _ _ Hstep)
      as (value & value' & Hvalue & Hsel & Hset).
    destruct (loc_setitem_shape _ _ _ _ _ Hset)
      as (_ & Hidx1 & Hcols1 & Hother).
    specialize (Hcols1 Hcol).
    assert (Forall (λ r, col r ∈ columns df1) rows) as Hcols'
      by by rewrite Hcols1.
    apply elem_of_cons in Hr as [->|Hr].
    + rewrite Hfile in Hvalue. injection Hvalue as <-.
      destruct (load_columns_frame _ _ _ _ _ _ Hrun Hcols')
        as (_ & _ & Hframe).
      apply (Hframe i p (col r0) v); [by rewrite Hidx1 | | by left].
      apply mask_select_inv in Hpta as [Hlenp ->].
      apply mask_select_inv in Hsel as [Hlenv ->].
      eapply (loc_setitem_writes _ _ _ _ _ _ i p v Hset); [| | |done|done].
      * rewrite (selected_length prior vals mask) by done.
        apply broadcast_to_aligned.
      * eapply sublist_NoDup; [exact Hndp | apply selected_sublist].
      * by apply (selected_aligned prior vals mask j).
    + assert (col r ≠ col r0) as Hne.
      { intros Heq. apply Hfresh. rewrite <- Heq.
        apply list_elem_of_fmap. by exists r. }
      apply (IH Hndc Hr df1 Hrun Hcols'); [by rewrite Hidx1|].
      intros old. rewrite Hother, Hidx1 by done. apply Hold.
Qed.

End LoadResults.

(** X11: loading a prior-result directory into an existing result matrix
    keeps the matrix's peptides and columns, and leaves every cell whose
    column is not in the directory's manifest or whose peptide is not in
    the directory's peptide list as it was. *)
Theorem load_results_frame (fs : filesystem) (dirname : string)
    (d : directory) (prior : list string) (m : manifest_csv)
    (df df' : DataFrame) :
  fs !! dirname = Some d → peptides_csv d = Some prior →
  alleles_csv d = Some m →
  load_results fs dirname (Some df) = Ok df' →
  index df' = index df ∧ columns df' = columns df ∧
  ∀ i p c v, index df !! i = Some p → cell df i c = Some v →
    c ∉ col <$> adjust m ∨ p ∉ prior → cell df' i c = Some v.
Proof.
  intros Hd Hpep Hman Hload. unfold load_results in Hload.
  rewrite Hd in Hload. simpl in Hload. rewrite Hpep, Hman in Hload.
  simpl in Hload.
  destruct (mask_select prior (isin prior (index df))) as [pta|] eqn:Hpta;
    [|done].
  simpl in Hload.
  destruct (load_columns_frame _ _ _ _ _ _ Hload) as (Hidx & Hcols & Hframe).
  { apply Forall_forall. by intros r [? _]%list_elem_of_filter. }
  split_and!; [done | done |].
  intros i p c v Hi Hcell Hout. apply (Hframe i p c v Hi Hcell).
  destruct Hout as [Hc|Hp]; [left | right].
  - intros (r & -> & Hr)%list_elem_of_fmap. apply Hc.
    apply list_elem_of_fmap. exists r. split; [done|].
    by apply list_elem_of_filter in Hr as [_ ?].
  - intros Hin. apply Hp. by eapply mask_select_elem.
Qed.

(** X12: loading merges by peptide and column identity, not by position:
    for a manifest column that is a column of the result matrix and a
    peptide that is in both peptide lists, the cell at the peptide's row of
    the matrix gets the value stored at the peptide's position in the
    column file. *)
Theorem load_results_transfers (fs : filesystem) (dirname : string)
    (d : directory) (prior : list string) (m : manifest_csv)
    (df df' : DataFrame) (r : manifest_row) (vals : list float32)
    (i j : nat) (p : string) (v : float32) :
  fs !! dirname = Some d → peptides_csv d = Some prior →
  alleles_csv d = Some m →
  load_results fs dirname (Some df) = Ok df' →
  NoDup prior → NoDup (col <$> adjust m) →
  r ∈ adjust m → col r ∈ columns df → npz d !! path r = Some vals →
  prior !! j = Some p → vals !! j = Some v → index df !! i = Some p →
  (∀ old, col_data df !! col r = Some old →
          length old = length (index df)) →
  cell df' i (col r) = Some v.
Proof.
  intros Hd Hpep Hman Hload Hndp Hndc Hr Hcol Hfile Hj Hv Hi Hold.
  unfold load_results in Hload.
  rewrite Hd in Hload. simpl in Hload. rewrite Hpep, Hman in Hload.
  simpl in Hload.
  destruct (mask_select prior (isin prior (index df))) as [pta|] eqn:Hpta;
    [|done].
  simpl in Hload.
  apply (load_columns_transfer _ _ prior pta _ df df' r vals i j p v Hload);
    try done.
  - apply Forall_forall. by intros r' [? _]%list_elem_of_filter.
  - eapply sublist_NoDup; [exact Hndc|].
    apply fmap_sublist, sublist_filter.
  - by apply list_elem_of_filter.
  - unfold isin. rewrite list_lookup_fmap, Hj. simpl. f_equal.
    apply bool_decide_eq_true_2. by eapply list_elem_of_lookup_2.
Qed.

Lemma load_results_frame_witness :
  ∃ df',
    load_results Examples.prior_fs "prior"
      (Some (result_df Examples.merge_start)) = Ok df' ∧
    index df' = Examples.peptides3 ∧
    cell df' 2 "A affinity" = Some NaN ∧
    cell df' 0 "B affinity" = Some NaN.
Proof.
  destruct (load_results Examples.prior_fs "prior"
              (Some (result_df Examples.merge_start))) as [df'|e] eqn:Hload;
    [|vm_compute in Hload; discriminate Hload].
  exists df'. split; [done|].
  destruct (load_results_frame Examples.prior_fs "prior" _
              Examples.prior_peptides (Manifest true true Examples.manifest_A)
              _ df' eq_refl eq_refl eq_refl Hload) as (Hidx & _ & Hframe).
  split; [exact Hidx|]. split.
  - apply (Hframe 2 "DDDD"); [reflexivity | reflexivity |].
    right. apply (bool_decide_unpack _). by vm_compute.
  - apply (Hframe 0 "AAAA"); [reflexivity | reflexivity |].
    left. apply (bool_decide_unpack _). by vm_compute.
Defined.

Lemma load_results_transfers_witness :
  ∃ df',
    load_results Examples.prior_fs "prior"
      (Some (result_df Examples.merge_start)) = Ok df' ∧
    cell df' 0 "A affinity" = Some (Num 30) ∧
    cell df' 1 "A affinity" = Some (Num 10).
Proof.
  destruct (load_results Examples.prior_fs "prior"
              (Some (result_df Examples.merge_start))) as [df'|e] eqn:Hload;
    [|vm_compute in Hload; discriminate Hload].
  exists df'. split; [done|].
  assert (∀ i j p v,
            Examples.prior_peptides !! j = Some p →
            [Num 10; Num 20; Num 30] !! j = Some v →
            Examples.peptides3 !! i = Some p →
            cell df' i "A affinity" = Some v) as Hcell.
  { intros i j p v Hj Hv Hi.
    apply (load_results_transfers Examples.prior_fs "prior" _
             Examples.prior_peptides (Manifest true true Examples.manifest_A)
             _ df' (Row "A" "affinity" "A affinity" "A.affinity.npz")
             [Num 10; Num 20; Num 30] i j p v eq_refl eq_refl eq_refl Hload).
    - apply (bool_decide_unpack _). by vm_compute.
    - apply (bool_decide_unpack _). by vm_compute.
    - apply list_elem_of_singleton. reflexivity.
    - left.
    - reflexivity.
    - exact Hj.
    - exact Hv.
    - exact Hi.
    - intros old Hold. vm_compute in Hold. injection Hold as <-. reflexivity. }
  split.
  - apply (Hcell 0 2 "AAAA"); reflexivity.
  - apply (Hcell 1 0 "CCCC"); reflexivity.
Defined.

Section LoadShape.

Lemma reuse_loop_all_absent (fs : filesystem) (dirs : list string)
    (df : DataFrame) (printed : list string) :
  Forall (λ d, d = "" ∨ fs !! d = None) dirs →
  for_each (reuse_step fs) (df, printed) dirs
  = Ok (df,
        printed ++
        ((λ d, "WARNING: skipping because does not exist " +:+ d)
           <$> filter (λ d, d ≠ "") dirs)).
Proof.
  revert printed. induction dirs as [|d dirs IH]; intros printed Hall.
  - simpl. by rewrite app_nil_r.
  - apply Forall_cons in Hall as [Hd Hall]. cbn [for_each].
    unfold reuse_step at 1. destruct (decide (d = "")) as [->|Hne].
    + rewrite bool_decide_eq_true_2 by done. cbn [bind].
      rewrite filter_cons_False by (by intros ?). by apply IH.
    + rewrite bool_decide_eq_false_2 by done.
      destruct Hd as [|Hd]; [done|].
      unfold exists_. rewrite Hd.
      rewrite bool_decide_eq_false_2 by (by intros [? ?]). cbn [bind].
      rewrite IH by done. rewrite filter_cons_True by done.
      by rewrite fmap_cons, <- (assoc_L (++)).
Qed.

End LoadShape.

(** X13: when none of the directories to reuse exists, the loading leaves
    the result matrix as it is and prints one warning for each directory
    name that is not empty, in the order given. *)
Theorem load_reused_all_absent (fs : filesystem) (dirs : list string)
    (df : DataFrame) :
  Forall (λ d, d = "" ∨ fs !! d = None) dirs →
  load_reused fs dirs df
  = Ok (df, (λ d, "WARNING: skipping because does not exist " +:+ d)
              <$> filter (λ d, d ≠ "") dirs).
Proof. intros Hall. unfold load_reused. by rewrite reuse_loop_all_absent. Qed.

Lemma load_reused_all_absent_witness :
  load_reused Examples.prior_fs ["gone"; ""; "lost"]
    (result_df Examples.merge_start)
  = Ok (result_df Examples.merge_start,
        ["WARNING: skipping because does not exist gone";
         "WARNING: skipping because does not exist lost"]).
Proof.
  apply (load_reused_all_absent Examples.prior_fs ["gone"; ""; "lost"]).
  repeat constructor; by right.
Defined.

(** X14: loaded with no result matrix given, a directory yields a frame
    whose rows are the stored peptides and whose columns are those of the
    manifest, an old style manifest (no [kind], no [col]) giving the
    columns [allele + " affinity"]; when the directory, its peptide file or
    its manifest is absent the load raises [FileNotFoundError]. *)
Theorem load_results_fresh_frame (fs : filesystem) (dirname : string) :
  (∀ d prior m df,
     fs !! dirname = Some d → peptides_csv d = Some prior →
     alleles_csv d = Some m →
     load_results fs dirname None = Ok df →
     index df = prior ∧ columns df = col <$> adjust m ∧
     (has_kind m = false → has_col m = false →
      columns df = (λ r, allele r +:+ " affinity") <$> rows m)) ∧
  ((fs !! dirname = None ∨
    ∃ d, fs !! dirname = Some d ∧
         (peptides_csv d = None ∨ alleles_csv d = None)) →
   load_results fs dirname None = Raise FileNotFoundError).
Proof.
  split.
  - intros d prior m df Hd Hpep Hman Hload. unfold load_results in Hload.
    rewrite Hd in Hload. simpl in Hload. rewrite Hpep, Hman in Hload.
    simpl in Hload.
    destruct (load_columns_frame _ _ _ _ _ _ Hload) as (Hidx & Hcols & _).
    { apply Forall_forall. intros r Hr. simpl.
      apply list_elem_of_fmap. by exists r. }
    split_and!; [done | done |].
    intros Hk Hc. rewrite Hcols. simpl. unfold adjust. rewrite Hk, Hc.
    rewrite <- !list_fmap_compose. done.
  - unfold load_results. intros [->|(d & -> & [Hnone|Hnone])]; simpl.
    + done.
    + by rewrite Hnone.
    + rewrite Hnone. by destruct (peptides_csv d).
Qed.

Lemma load_results_fresh_frame_witness :
  (∃ df, load_results Examples.old_style_fs "prior" None = Ok df ∧
         index df = Examples.prior_peptides ∧ columns df = ["A affinity"]) ∧
  (∃ df, load_results Examples.one_value_fs "prior" None = Ok df ∧
         index df = Examples.prior_peptides ∧ columns df = ["A affinity"]).
Proof.
  split.
  - destruct (load_results Examples.old_style_fs "prior" None) as [df|e]
      eqn:Hload; [|vm_compute in Hload; discriminate Hload].
    exists df. split; [reflexivity|].
    destruct (load_results_fresh_frame Examples.old_style_fs "prior")
      as [Hshape _].
    destruct (Hshape _ Examples.prior_peptides
                (Manifest false false [Row "A" "" "" "A.affinity.npz"]) df
                eq_refl eq_refl eq_refl Hload) as (Hidx & _ & Hold).
    split; [exact Hidx|]. by apply Hold.
  - destruct (load_results Examples.one_value_fs "prior" None) as [df|e]
      eqn:Hload; [|vm_compute in Hload; discriminate Hload].
    exists df. split; [reflexivity|].
    destruct (load_results_fresh_frame Examples.one_value_fs "prior")
      as [Hshape _].
    destruct (Hshape _ Examples.prior_peptides
                (Manifest true true Examples.manifest_A) df
                eq_refl eq_refl eq_refl Hload) as (Hidx & Hcols & _).
    split; [exact Hidx | exact Hcols].
Defined.

(** ** File names and column names *)

Section FileNames.

Lemma contains_app (c : Ascii.ascii) (s1 s2 : string) :
  contains c (s1 +:+ s2) = contains c s1 || contains c s2.
Proof.
  induction s1 as [|d s1 IH]; simpl; [done|].
  by rewrite IH, orb_assoc.
Qed.

Lemma contains_replace_same (c : Ascii.ascii) (by_ s : string) :
  contains c by_ = false → contains c (Str.replace c by_ s) = false.
Proof.
  intros Hby. induction s as [|d s IH]; simpl; [done|].
  destruct (Ascii.eqb d c) eqn:Hd.
  - by rewrite contains_app, Hby, IH.
  - simpl. by rewrite Hd, IH.
Qed.

Lemma contains_replace_other (c c' : Ascii.ascii) (by_ s : string) :
  contains c' by_ = false → contains c' s = false →
  contains c' (Str.replace c by_ s) = false.
Proof.
  intros Hby. induction s as [|d s IH]; simpl; [done|].
  intros [Hd Hs]%orb_false_iff.
  destruct (Ascii.eqb d c).
  - by rewrite contains_app, Hby, IH.
  - simpl. by rewrite Hd, IH.
Qed.

End FileNames.

(** X16: the file name of a column holds no ['*'] and no space, whatever
    the column name. *)
Theorem filename_of_col_safe (s : string) :
  contains "*" (filename_of_col s) = false ∧
  contains " " (filename_of_col s) = false.
Proof.
  unfold filename_of_col. rewrite !contains_app. split.
  - rewrite contains_replace_other; [done | done |].
    by apply contains_replace_same.
  - by rewrite contains_replace_same.
Qed.

Section ColumnNames.

Lemma list_ascii_app (s1 s2 : string) :
  String.list_ascii_of_string (s1 +:+ s2)
  = String.list_ascii_of_string s1 ++ String.list_ascii_of_string s2.
Proof. induction s1 as [|c s1 IH]; simpl; [done|]. by rewrite IH. Qed.

Lemma list_ascii_inj (s1 s2 : string) :
  String.list_ascii_of_string s1 = String.list_ascii_of_string s2 → s1 = s2.
Proof.
  intros Heq.
  rewrite <- (String.string_of_list_ascii_of_string s1),
          <- (String.string_of_list_ascii_of_string s2).
  by rewrite Heq.
Qed.

(** A column name gives back its allele and its kind. *)
Lemma col_name_inj (p : predictor) (a1 a2 k1 k2 : string) :
  k1 ∈ PREDICTOR_TO_COLS p → k2 ∈ PREDICTOR_TO_COLS p →
  a1 +:+ " " +:+ k1 = a2 +:+ " " +:+ k2 → a1 = a2 ∧ k1 = k2.
Proof.
  intros Hk1 Hk2 Heq.
  assert (k1 = k2) as ->.
  { apply (f_equal String.list_ascii_of_string) in Heq.
    rewrite !list_ascii_app in Heq.
    apply (f_equal last) in Heq. rewrite !last_app in Heq.
    destruct p; simpl in Hk1, Hk2;
      repeat match goal with
             | H : _ ∈ _ :: _ |- _ => apply elem_of_cons in H as [->|H]
             | H : _ ∈ [] |- _ => by apply not_elem_of_nil in H
             end; try done. }
  split; [|done].
  apply (f_equal String.list_ascii_of_string) in Heq.
  rewrite !list_ascii_app in Heq.
  apply app_inj_2 in Heq as [Heq _]; [|done].
  by apply list_ascii_inj.
Qed.

Lemma new_manifest_elem (alleles : list string) (p : predictor)
    (r : manifest_row) :
  r ∈ new_manifest alleles p ↔
  ∃ a k, a ∈ alleles ∧ k ∈ PREDICTOR_TO_COLS p ∧
    r = Row a k (a +:+ " " +:+ k) (filename_of_col (a +:+ " " +:+ k)).
Proof.
  unfold new_manifest. rewrite list_elem_of_bind. split.
  - intros (a & Hr & Ha). apply list_elem_of_bind in Hr as (k & Hr & Hk).
    apply list_elem_of_singleton in Hr. by exists a, k.
  - intros (a & k & Ha & Hk & ->). exists a. split; [|done].
    apply list_elem_of_bind. exists k. split; [|done].
    by apply list_elem_of_singleton.
Qed.

Lemma new_manifest_NoDup (alleles : list string) (p : predictor) :
  NoDup alleles → NoDup (new_manifest alleles p).
Proof.
  intros Hnd. unfold new_manifest. apply NoDup_bind; [| |done].
  - intros a1 a2 r _ _ Hr1 Hr2.
    apply list_elem_of_bind in Hr1 as (k1 & Hr1 & _).
    apply list_elem_of_bind in Hr2 as (k2 & Hr2 & _).
    apply list_elem_of_singleton in Hr1, Hr2. subst r.
    by injection Hr2.
  - intros a _. apply NoDup_bind.
    + intros k1 k2 r _ _ Hr1 Hr2.
      apply list_elem_of_singleton in Hr1, Hr2. subst r. by injection Hr2.
    + intros k _. apply NoDup_singleton.
    + destruct p; simpl; apply (bool_decide_unpack _); by vm_compute.
Qed.

Lemma new_manifest_length (alleles : list string) (p : predictor) :
  length (new_manifest alleles p)
  = length alleles * length (PREDICTOR_TO_COLS p).
Proof.
  unfold new_manifest. induction alleles as [|a alleles IH]; [done|].
  rewrite bind_cons, length_app, IH. cbn [length]. f_equal.
  by destruct p.
Qed.

End ColumnNames.

(** X17: with pairwise distinct alleles the manifest has one row per
    allele and kind, its column names are pairwise distinct, and the file
    name looked up for the column of a row is the path of that row. *)
Theorem new_manifest_columns (alleles : list string) (p : predictor) :
  NoDup alleles →
  length (new_manifest alleles p)
  = length alleles * length (PREDICTOR_TO_COLS p) ∧
  NoDup (col <$> new_manifest alleles p) ∧
  ∀ r, r ∈ new_manifest alleles p →
    col_to_filename (new_manifest alleles p) !! col r = Some (path r).
Proof.
  intros Hnd.
  assert (NoDup (col <$> new_manifest alleles p)) as Hcols.
  { apply NoDup_fmap_2_strong; [|by apply new_manifest_NoDup].
    intros r1 r2 Hr1 Hr2 Hcol.
    apply new_manifest_elem in Hr1 as (a1 & k1 & _ & Hk1 & ->).
    apply new_manifest_elem in Hr2 as (a2 & k2 & _ & Hk2 & ->).
    simpl in Hcol.
    by destruct (col_name_inj p a1 a2 k1 k2 Hk1 Hk2 Hcol) as [-> ->]. }
  split_and!; [apply new_manifest_length | done |].
  intros r Hr. unfold col_to_filename. apply elem_of_list_to_map_1.
  - by rewrite <- list_fmap_compose.
  - apply list_elem_of_fmap. by exists r.
Qed.

Lemma new_manifest_columns_witness :
  NoDup ["HLA-A*02:01"; "HLA-B*07:02"] ∧
  length (new_manifest ["HLA-A*02:01"; "HLA-B*07:02"] netmhcpan4) = 6 ∧
  NoDup (col <$> new_manifest ["HLA-A*02:01"; "HLA-B*07:02"] netmhcpan4).
Proof.
  assert (NoDup ["HLA-A*02:01"; "HLA-B*07:02"]) as Hnd
    by (apply (bool_decide_unpack _); by vm_compute).
  split; [done|].
  destruct (new_manifest_columns ["HLA-A*02:01"; "HLA-B*07:02"] netmhcpan4
              Hnd) as (Hlen & Hcols & _).
  split; [exact Hlen | exact Hcols].
Defined.

(** ** do_predictions_mhcflurry *)

Section Dicts.
Context {V : Type}.

Lemma dict_set_keys (d : list (string * V)) (k : string) (v : V) :
  NoDup d.*1 → NoDup (dict_set d k v).*1 ∧
  ∀ c x, (c, x) ∈ dict_set d k v ↔
         (c = k ∧ x = v) ∨ (c ≠ k ∧ (c, x) ∈ d).
Proof.
  induction d as [|[k' v'] d IH]; intros Hnd.
  - simpl. split; [apply NoDup_singleton|]. intros c x.
    rewrite list_elem_of_singleton. split.
    + intros [= -> ->]. by left.
    + intros [[-> ->]|[_ Hin]]; [done|]. by apply not_elem_of_nil in Hin.
  - simpl in Hnd. apply NoDup_cons in Hnd as [Hfresh Hnd].
    destruct (IH Hnd) as [IHnd IHin]. simpl.
    destruct (decide (k' = k)) as [->|Hne].
    + split; [by apply NoDup_cons|]. intros c x. rewrite !elem_of_cons.
      split.
      * intros [[= -> ->]|Hin]; [by left|]. right. split; [|by right].
        intros ->. apply Hfresh, list_elem_of_fmap. by exists (k, x).
      * intros [[-> ->]|[Hc [[= -> ->]|Hin]]]; [by left | done | by right].
    + split.
      * simpl. apply NoDup_cons. split; [|done].
        intros Hin. apply list_elem_of_fmap in Hin as ([c x] & Hc & Hin).
        simpl in Hc. subst c.
        apply IHin in Hin as [[-> _]|[_ Hin]]; [done|].
        apply Hfresh, list_elem_of_fmap. by exists (k', x).
      * intros c x. rewrite !elem_of_cons, IHin. split.
        -- intros [[= -> ->]|[?|[? ?]]]; [right|by left|right]; split;
             try done; [by left | by right].
        -- intros [?|[? [?|?]]]; [right; by left | by left |].
           right. by right.
Qed.

End Dicts.

Section Predictions.
Variable predict : list string → string → list float32.

Lemma affinity_key_inj (a1 a2 : string) :
  a1 +:+ " " +:+ "affinity" = a2 +:+ " " +:+ "affinity" → a1 = a2.
Proof.
  intros Heq.
  by destruct (col_name_inj mhcflurry a1 a2 "affinity" "affinity"
                 ltac:(simpl; left) ltac:(simpl; left) Heq).
Qed.

Lemma fold_dict_set (peps alleles : list string)
    (d0 : list (string * list float32)) :
  NoDup d0.*1 →
  NoDup (fold_left
           (λ result allele,
              dict_set result (allele +:+ " " +:+ "affinity")
                       (predict peps allele)) alleles d0).*1 ∧
  ∀ c x,
    (c, x) ∈ fold_left
               (λ result allele,
                  dict_set result (allele +:+ " " +:+ "affinity")
                           (predict peps allele)) alleles d0 ↔
    (∃ a, a ∈ alleles ∧ c = a +:+ " " +:+ "affinity" ∧ x = predict peps a) ∨
    ((c, x) ∈ d0 ∧ ∀ a, a ∈ alleles → c ≠ a +:+ " " +:+ "affinity").
Proof.
  revert d0. induction alleles as [|a alleles IH]; intros d0 Hnd.
  - simpl. split; [done|]. intros c x. split.
    + intros Hin. right. split; [done|]. intros a Ha.
      by apply not_elem_of_nil in Ha.
    + intros [(a & Ha & _)|[Hin _]]; [|done]. by apply not_elem_of_nil in Ha.
  - simpl.
    destruct (dict_set_keys d0 (a +:+ " " +:+ "affinity") (predict peps a) Hnd)
      as [Hnd1 Hin1].
    destruct (IH _ Hnd1) as [Hnd' Hin']. split; [done|].
    intros c x. rewrite Hin', Hin1. split.
    + intros [(a' & Ha' & -> & ->)|[[[-> ->]|[Hne Hin0]] Hrest]].
      * left. exists a'. split; [by right | done].
      * left. exists a. split; [left | done].
      * right. split; [done|]. intros a' [->|Ha']%elem_of_cons; [done|].
        by apply Hrest.
    + intros [(a' & [->|Ha']%elem_of_cons & -> & ->)|[Hin0 Hrest]].
      * destruct (decide (a ∈ alleles)) as [Hin|Hnin].
        -- left. by exists a.
        -- right. split; [by left|]. intros a' Ha' Heq.
           apply affinity_key_inj in Heq as ->. done.
      * left. by exists a'.
      * right. split.
        -- right. split; [|done]. apply Hrest. left.
        -- intros a' Ha'. apply Hrest. by right.
Qed.

(** What one work item yields: its number, and a dict with one entry per
    allele, keyed by the allele's column name. *)
Lemma predict_work_item_spec (d : work_item) (n : nat)
    (mapping : list (string * list float32)) :
  predict_work_item predict d = Ok (n, mapping) →
  work_item_num d = Some n ∧ NoDup mapping.*1 ∧
  ∀ c x, (c, x) ∈ mapping ↔
    ∃ a, a ∈ alleles d ∧ c = a +:+ " " +:+ "affinity" ∧
         x = predict (peptides d) a.
Proof.
  unfold predict_work_item. destruct (work_item_num d) as [n'|]; [|done].
  simpl. intros [= <- <-]. split; [done|].
  destruct (fold_dict_set (peptides d) (alleles d) []) as [Hnd Hin].
  { simpl. constructor. }
  split; [exact Hnd|]. intros c x.
  etrans; [apply Hin|]. split.
  - intros [?|[Hnil _]]; [done|]. by apply not_elem_of_nil in Hnil.
  - intros ?. by left.
Qed.

Lemma predictions_loop (ws : list work_item)
    (acc res : list (nat * list (string * list float32))) :
  for_each
    (λ results d, r ←! predict_work_item predict d; Ok (results ++ [r]))
    acc ws = Ok res →
  ∃ rs, res = acc ++ rs ∧
        Forall2 (λ d r, predict_work_item predict d = Ok r) ws rs.
Proof.
  revert acc. induction ws as [|d ws IH]; intros acc Hrun.
  - injection Hrun as <-. exists []. by rewrite app_nil_r.
  - cbn [for_each] in Hrun.
    destruct (predict_work_item predict d) as [r|] eqn:Hd; [|done].
    cbn [bind] in Hrun. destruct (IH _ Hrun) as (rs & -> & Hall).
    exists (r :: rs). split; [by rewrite <- (assoc_L (++))|].
    by constructor.
Qed.

Lemma predictions_loop_numbered (ws : list work_item)
    (acc : list (nat * list (string * list float32))) :
  Forall (λ d, is_Some (work_item_num d)) ws →
  ∃ res, for_each
           (λ results d, r ←! predict_work_item predict d; Ok (results ++ [r]))
           acc ws = Ok res.
Proof.
  revert acc. induction ws as [|d ws IH]; intros acc Hall; [by eexists|].
  apply Forall_cons in Hall as [[n Hn] Hall]. cbn [for_each].
  unfold predict_work_item at 1. rewrite Hn. cbn [bind]. by apply IH.
Qed.

Lemma predictions_loop_unnumbered (ws : list work_item)
    (acc : list (nat * list (string * list float32))) :
  Exists (λ d, work_item_num d = None) ws →
  for_each
    (λ results d, r ←! predict_work_item predict d; Ok (results ++ [r]))
    acc ws = Raise KeyError.
Proof.
  intros Hex. revert acc.
  induction Hex as [d ws Hd|d ws _ IH]; intros acc; cbn [for_each].
  - unfold predict_work_item. by rewrite Hd.
  - unfold predict_work_item at 1.
    destruct (work_item_num d); cbn [bind]; [apply IH | done].
Qed.

End Predictions.

(** X18: [do_predictions_mhcflurry] fails its assertions for another
    predictor or other columns than [["affinity"]], and raises [KeyError]
    for a work item without number.  For numbered work items it returns
    one result per work item, in order, that carries the work item's number
    and a mapping with pairwise distinct keys: for each allele of the work
    item, the key [allele + " affinity"] with the prediction for the work
    item's peptides and that allele. *)
Theorem do_predictions_mhcflurry_results
    (predict : list string → string → list float32)
    (cols : list string) (ws : list work_item) :
  do_predictions_mhcflurry netmhcpan4 cols predict ws = Raise AssertionError ∧
  (cols ≠ ["affinity"] →
   do_predictions_mhcflurry mhcflurry cols predict ws
   = Raise AssertionError) ∧
  (Exists (λ d, work_item_num d = None) ws →
   do_predictions_mhcflurry mhcflurry ["affinity"] predict ws
   = Raise KeyError) ∧
  (Forall (λ d, is_Some (work_item_num d)) ws →
   ∃ results,
     do_predictions_mhcflurry mhcflurry ["affinity"] predict ws
     = Ok results ∧
     Forall2
       (λ d r,
          work_item_num d = Some r.1 ∧ NoDup r.2.*1 ∧
          ∀ c x, (c, x) ∈ r.2 ↔
            ∃ a, a ∈ alleles d ∧ c = a +:+ " affinity" ∧
                 x = predict (peptides d) a)
       ws results).
Proof.
  split_and!.
  - done.
  - intros Hcols. unfold do_predictions_mhcflurry.
    by rewrite bool_decide_eq_false_2.
  - intros Hex. unfold do_predictions_mhcflurry. simpl.
    by apply predictions_loop_unnumbered.
  - intros Hall. unfold do_predictions_mhcflurry. simpl.
    destruct (predictions_loop_numbered predict ws [] Hall) as [res Hrun].
    exists res. split; [done|].
    destruct (predictions_loop predict ws [] res Hrun) as (rs & -> & Hrs).
    simpl. eapply Forall2_impl; [exact Hrs|].
    intros d [n mapping] Hd. simpl.
    by apply (predict_work_item_spec predict d n mapping).
Qed.

Lemma do_predictions_mhcflurry_results_witness :
  ∃ results,
    do_predictions_mhcflurry mhcflurry ["affinity"]
      (λ peps a, (λ _, Num 1) <$> peps) Examples.two_work_items
    = Ok results ∧ length results = 2.
Proof.
  destruct (do_predictions_mhcflurry_results
              (λ peps a, (λ _, Num 1) <$> peps) ["affinity"]
              Examples.two_work_items) as (_ & _ & _ & Hok).
  destruct Hok as (results & Hrun & Hall).
  - repeat constructor; by eexists.
  - exists results. split; [done|].
    by rewrite <- (Forall2_length _ _ _ Hall).
Defined.

(** X19: predicting a work item and merging its result puts the
    predictions in the cells they belong to: if the work item is the one
    the work-item list holds at its number and the predictor gives one
    prediction per peptide for the allele, then after the merge the cell
    at the row of the work item's j-th peptide, in the column of that
    allele, holds the j-th prediction for the allele. *)
Theorem predict_then_merge
    (predict : list string → string → list float32)
    (clock : nat → Z) (out : string) (files : gmap string string)
    (work_items : list work_item) (st st' : merge_state)
    (d : work_item) (r : nat * list (string * list float32))
    (a p : string) (i j : nat) :
  predict_work_item predict d = Ok r →
  work_items !! r.1 = Some d →
  merge_result clock out files work_items st r = Ok st' →
  NoDup (peptides d) → a ∈ alleles d →
  length (predict (peptides d) a) = length (peptides d) →
  peptides d !! j = Some p → index (result_df st) !! i = Some p →
  (∀ old, col_data (result_df st) !! (a +:+ " affinity") = Some old →
          length old = length (index (result_df st))) →
  ∃ v, predict (peptides d) a !! j = Some v ∧
       cell (result_df st') i (a +:+ " affinity") = Some v.
Proof.
  destruct r as [n mapping]. simpl.
  intros Hpred Hd Hmerge Hnd Ha Hlen Hj Hi Hold.
  destruct (predict_work_item_spec predict d n mapping Hpred)
    as (_ & Hkeys & Hin).
  destruct (merge_columns_writes clock out files work_items n d mapping st st'
              (a +:+ " affinity") (predict (peptides d) a) i j p)
    as (v & Hcell & Haligned & _); try done.
  { apply Hin. by exists a. }
  exists v. split; [by apply Haligned | done].
Qed.

Lemma predict_then_merge_witness :
  ∃ st',
    merge_result (λ _, 0%Z) "out" (col_to_filename Examples.manifest_AB)
      Examples.two_work_items Examples.merge_start
      (0, [("A affinity", [Num 1; Num 1])]) = Ok st' ∧
    cell (result_df st') 1 "A affinity" = Some (Num 1).
Proof.
  destruct (merge_result (λ _, 0%Z) "out"
              (col_to_filename Examples.manifest_AB)
              Examples.two_work_items Examples.merge_start
              (0, [("A affinity", [Num 1; Num 1])])) as [st'|e] eqn:Hrun;
    [|vm_compute in Hrun; discriminate Hrun].
  exists st'. split; [done|].
  destruct (predict_then_merge (λ peps a, (λ _, Num 1) <$> peps)
              (λ _, 0%Z) "out" (col_to_filename Examples.manifest_AB)
              Examples.two_work_items Examples.merge_start st'
              (WorkItem ["A"] ["AAAA"; "CCCC"] (Some 0))
              (0, [("A affinity", [Num 1; Num 1])]) "A" "CCCC" 1 1)
    as (v & Hv & Hcell).
  - reflexivity.
  - reflexivity.
  - exact Hrun.
  - apply (bool_decide_unpack _). by vm_compute.
  - left.
  - reflexivity.
  - reflexivity.
  - reflexivity.
  - intros old Hold. vm_compute in Hold. injection Hold as <-. reflexivity.
  - simpl in Hv. injection Hv as <-. exact Hcell.
Defined.

(** ** blocks_of_ones: where a block starts and how far it goes *)

Section BlockExtent.

Lemma argmax_nonzero (l : list bool) :
  argmax l ≠ 0 → l !! argmax l = Some true.
Proof.
  unfold argmax. destruct (list_find _ l) as [[i b]|] eqn:Hfind; [|done].
  intros _. by apply list_find_Some in Hfind as (Hi & -> & _).
Qed.

Lemma eq_zero_col_lookup (a : ndarray) (x1 y j : nat) :
  x1 + j < shape0 a →
  eq_zero (col_slice a x1 (shape0 a) y) !! j
  = Some (negb (getitem a (x1 + j) y)).
Proof.
  intros Hj. unfold eq_zero, col_slice.
  rewrite !list_lookup_fmap, lookup_seq_lt by lia. done.
Qed.

(** The rows of a block are the run of ones that goes down from the seed
    in the seed's column, to its end. *)
Lemma extend_down_run (a : ndarray) (x1 y1 x2 : nat) :
  x1 < shape0 a → getitem a x1 y1 = true → extend_down a x1 y1 = Ok x2 →
  (∀ x, x1 ≤ x ≤ x2 → getitem a x y1 = true) ∧
  (x2 + 1 < shape0 a → getitem a (x2 + 1) y1 = false).
Proof.
  intros Hx Hseed. unfold extend_down.
  set (z := eq_zero (col_slice a x1 (shape0 a) y1)).
  assert (length z = shape0 a - x1) as Hlen.
  { unfold z, eq_zero, col_slice. rewrite !length_fmap, length_seq. lia. }
  assert (∀ j, x1 + j < shape0 a →
               z !! j = Some (negb (getitem a (x1 + j) y1))) as Hz
    by (intros j Hj; by apply eq_zero_col_lookup).
  destruct (decide (argmax z = 0)) as [Hk|Hk].
  - rewrite Hk. simpl. intros [= <-].
    assert (np_sum z = 0) as Hsum.
    { destruct (np_sum z) eqn:Hs; [done|].
      assert (0 < np_sum z) as Hpos by lia.
      apply argmax_true in Hpos. rewrite Hk, (Hz 0) in Hpos by lia.
      rewrite Nat.add_0_r, Hseed in Hpos. done. }
    apply np_sum_zero_iff in Hsum. split; [|lia].
    intros x Hx'.
    assert (z !! (x - x1) = Some (negb (getitem a x y1))) as Hlook.
    { rewrite Hz by lia. by replace (x1 + (x - x1)) with x by lia. }
    apply list_elem_of_lookup_2 in Hlook.
    apply (proj1 (Forall_forall _ _) Hsum) in Hlook.
    by destruct (getitem a x y1).
  - pose proof (argmax_nonzero z Hk) as Htrue.
    pose proof (lookup_lt_Some _ _ _ Htrue) as Hlt. rewrite Hlen in Hlt.
    destruct (Z.eqb_spec (Z.of_nat (argmax z) - 1) (-1)) as [|_]; [lia|].
    destruct (Z.leb_spec 0 (Z.of_nat (argmax z) - 1)) as [_|]; [|lia].
    intros [= <-]. split.
    + intros x Hx'.
      destruct (getitem a x y1) eqn:Hget; [done|]. exfalso.
      apply (argmax_first z (x - x1)); [lia|].
      rewrite Hz by lia. replace (x1 + (x - x1)) with x by lia.
      by rewrite Hget.
    + intros _. rewrite Hz in Htrue by lia.
      replace (x1 + Z.to_nat (Z.of_nat (argmax z) - 1) + 1)
        with (x1 + argmax z) by lia.
      injection Htrue as Htrue. by destruct (getitem a (x1 + argmax z) y1).
Qed.

(** No column to the right of the one kept has ones in all the rows. *)
Lemma extend_right_last (a : ndarray) (x1 x2 y1 y : nat) :
  extend_right a x1 x2 y1 < y → y < shape1 a →
  all_one (col_slice a x1 (x2 + 1) y) = false.
Proof.
  unfold extend_right. intros Hlt Hy.
  assert (∀ n, fold_left
            (λ b3 i, if all_one (col_slice a x1 (x2 + 1) i) then i else b3)
            (seq y1 n) y1 < y → y < y1 + n →
          all_one (col_slice a x1 (x2 + 1) y) = false) as Hfold.
  { induction n as [|n IH]; intros Hres Hn; [simpl in Hres; lia|].
    rewrite seq_S, fold_left_app in Hres. simpl in Hres.
    destruct (all_one (col_slice a x1 (x2 + 1) (y1 + n))) eqn:Hlast; [lia|].
    destruct (decide (y = y1 + n)) as [->|Hne]; [done|].
    apply IH; [done | lia]. }
  apply (Hfold (shape1 a - y1) Hlt).
  assert (y1 ≤ y); [|lia].
  pose proof (extend_right_ge a x1 x2 y1) as Hge. unfold extend_right in Hge.
  lia.
Qed.

End BlockExtent.

(** X20: in a pass of the loop the block starts at the first true cell in
    row-major order; its rows are the whole run of ones that goes down from
    that cell in its column, and no column to the right of the block has
    ones in all the rows of the block. *)
Theorem block_is_maximal (a a' : ndarray) (b : block) :
  well_shaped a → 0 < np_sum (data a) → loop_body a = Ok (b, a') →
  (blk0 b, blk1 b) = seed a ∧
  (∀ x y, y < shape1 a →
     x * shape1 a + y < blk0 b * shape1 a + blk1 b →
     getitem a x y = false) ∧
  (∀ x, blk0 b ≤ x ≤ blk2 b → getitem a x (blk1 b) = true) ∧
  (blk2 b + 1 < shape0 a → getitem a (blk2 b + 1) (blk1 b) = false) ∧
  (∀ y, blk3 b < y → y < shape1 a →
     ¬ ∀ x, blk0 b ≤ x ≤ blk2 b → getitem a x y = true).
Proof.
  intros Hwf Hpos Hbody.
  destruct (seed_in_bounds a Hwf Hpos) as (Hx & Hy & Hk & Hget).
  unfold loop_body in Hbody.
  destruct (seed a) as [x1 y1] eqn:Hseed. simpl in Hx, Hy, Hget.
  destruct (extend_down a x1 y1) as [x2|] eqn:Hdown; simpl in Hbody; [|done].
  destruct (block_all_one _ _); [|done].
  injection Hbody as <- <-. simpl.
  destruct (extend_down_run a x1 y1 x2 Hx Hget Hdown) as [Hrun Hend].
  pose proof (extend_down_lt a x1 y1 x2 Hx Hdown) as Hx2.
  split_and!; [done | | done | done |].
  - intros x y Hy' Hbefore.
    unfold seed, unravel_index in Hseed. injection Hseed as <- <-.
    assert (x * shape1 a + y < argmax (data a)) as Hlt.
    { rewrite (Nat.div_mod_eq (argmax (data a)) (shape1 a)). lia. }
    unfold getitem.
    destruct (data a !! (x * shape1 a + y)) as [[]|] eqn:Hcell; [|done..].
    exfalso. by apply (argmax_first (data a) (x * shape1 a + y)).
  - intros y Hlt Hy' Hall.
    pose proof (extend_right_last a x1 x2 y1 y Hlt Hy') as Hnot.
    assert (all_one (col_slice a x1 (x2 + 1) y) = true) as Hone.
    { apply all_one_col_slice. intros x ? ? ?. apply Hall. lia. }
    congruence.
Qed.

Lemma block_is_maximal_witness :
  let a := of_rows [[false; true; true]; [true; true; false];
                    [true; true; true]] in
  ∃ b a', loop_body a = Ok (b, a') ∧ (blk0 b, blk1 b) = seed a ∧
          getitem a 0 0 = false.
Proof.
  intros a.
  destruct (loop_body a) as [[b a']|e] eqn:Hbody;
    [|vm_compute in Hbody; discriminate Hbody].
  exists b, a'. split; [done|].
  destruct (block_is_maximal a a' b) as (Hseed & Hfirst & _);
    [reflexivity | vm_compute; lia | done |].
  split; [exact Hseed|].
  apply Hfirst; [vm_compute; lia|].
  assert (blk0 b = 0 ∧ blk1 b = 1) as [-> ->].
  { vm_compute in Hseed. by injection Hseed. }
  vm_compute. lia.
Defined.

(** ** The final write *)

(** X21: when every column of the result matrix has a row in the manifest
    and the paths of the manifest are pairwise distinct, the final write
    succeeds and leaves in the output directory, for each manifest row,
    the current values of the row's column in the row's file; the peptide
    list, the manifest and every other file of the directory stay as they
    were. *)
Theorem write_all_effect (out : string) (m : list manifest_row)
    (df : DataFrame) (fs : filesystem) (d : directory) :
  columns df = col <$> m → NoDup (col <$> m) → NoDup (path <$> m) →
  (∀ c, c ∈ columns df → is_Some (col_data df !! c)) →
  fs !! out = Some d →
  ∃ fs' d',
    write_all out (col_to_filename m) df fs = Ok fs' ∧
    fs' !! out = Some d' ∧
    peptides_csv d' = peptides_csv d ∧ alleles_csv d' = alleles_csv d ∧
    (∀ r, r ∈ m → npz d' !! path r = col_data df !! col r) ∧
    (∀ name, name ∉ path <$> m → npz d' !! name = npz d !! name).
Proof.
  intros Hcols Hndc Hndp Hvals Hout. destruct d as [P M N].
  destruct (write_columns_spec out (col_to_filename m) df m fs P M N)
    as (fs' & N' & Hrun & Hout' & Hwritten & Hkept); [done | done | |].
  - apply Forall_forall. intros r Hr. split.
    + unfold col_to_filename. apply elem_of_list_to_map_1.
      * by rewrite <- list_fmap_compose.
      * apply list_elem_of_fmap. by exists r.
    + apply Hvals. rewrite Hcols. apply list_elem_of_fmap. by exists r.
  - exists fs', (Dir P M N'). unfold write_all. rewrite Hcols.
    split_and!; done.
Qed.

Lemma write_all_effect_witness :
  ∃ fs' d',
    write_all "out" (col_to_filename Examples.manifest_AB) Examples.filled_AB
      (disk Examples.merge_start) = Ok fs' ∧
    fs' !! "out" = Some d' ∧
    npz d' !! "A.affinity.npz" = Some [Num 1; NaN; Num 3].
Proof.
  destruct (write_all_effect "out" Examples.manifest_AB Examples.filled_AB
              (disk Examples.merge_start)
              (Dir (Some Examples.peptides3)
                   (Some (Manifest true true Examples.manifest_AB)) ∅))
    as (fs' & d' & Hrun & Hout & _ & _ & Hfiles & _).
  - reflexivity.
  - apply (bool_decide_unpack _). by vm_compute.
  - apply (bool_decide_unpack _). by vm_compute.
  - intros c Hc. simpl in Hc.
    apply elem_of_cons in Hc as [->|Hc]; [by eexists|].
    apply list_elem_of_singleton in Hc as ->. by eexists.
  - reflexivity.
  - exists fs', d'. split; [done|]. split; [done|].
    apply (Hfiles (Row "A" "affinity" "A affinity" "A.affinity.npz")). left.
Defined.

(** ** Work items of one block *)

(** X22: in a reuse run with a chunk size C >= 1, a block with r rows,
    1 <= r < 2^53, adds ceil(r / C) work items to the list when
    C < r * 2^1075, each with the alleles of the block's columns; the
    peptide lists of these work items, end to end, are the whole peptide
    list given to the run (not the rows of the block).  With a chunk size
    of r * 2^1075 or more the float quotient r / C is 0.0, the split into
    zero sections raises [ValueError] and no work item is added. *)
Theorem block_work_items_shape (peptides index_ columns_ : list string)
    (chunk_size : Z) (work_items : list work_item) (b : block) :
  (0 < chunk_size)%Z → peptides ≠ [] →
  blk0 b ≤ blk2 b → blk2 b < length index_ →
  (Z.of_nat (blk2 b - blk0 b + 1) < 2 ^ 53)%Z →
  ((chunk_size < Z.of_nat (blk2 b - blk0 b + 1) * 2 ^ 1075)%Z →
   ∃ items,
     block_work_items peptides index_ columns_ chunk_size work_items b
     = Ok (work_items ++ items) ∧
     (Z.of_nat (blk2 b - blk0 b + 1)
      ≤ Z.of_nat (length items) * chunk_size)%Z ∧
     ((Z.of_nat (length items) - 1) * chunk_size
      < Z.of_nat (blk2 b - blk0 b + 1))%Z ∧
     Forall (λ w, alleles w = slice columns_ (blk1 b) (blk3 b + 1) ∧
                  work_item_num w = None) items ∧
     concat (Run.peptides <$> items) = peptides) ∧
  ((Z.of_nat (blk2 b - blk0 b + 1) * 2 ^ 1075 ≤ chunk_size)%Z →
   block_work_items peptides index_ columns_ chunk_size work_items b
   = Raise ValueError).
Proof.
  intros Hc Hpep Hrows Hin Hshort. destruct b as [r1 c1 r2 c2]. simpl in *.
  unfold block_work_items.
  assert (length (slice index_ r1 (r2 + 1)) = r2 - r1 + 1) as Hlen.
  { unfold slice. rewrite length_take, length_drop. lia. }
  rewrite Hlen. split.
  - intros Hfit.
    destruct (ceil_ratio_spec (r2 - r1 + 1) chunk_size Hc ltac:(lia) Hfit)
      as (k & -> & Hup & Hlow).
    simpl.
    assert (0 < k)%Z as Hk by nia.
    destruct (array_split_spec peptides k Hk) as (chunks & -> & Hn & Hcat).
    simpl. eexists. split; [done|].
    rewrite length_fmap, Hn, Z2Nat.id by lia.
    split_and!; [done | done | |].
    + apply Forall_fmap, Forall_forall. by intros chunk _.
    + rewrite <- list_fmap_compose. simpl.
      by rewrite list_fmap_id.
  - intros Hbig. rewrite ceil_ratio_underflow by lia. cbn [bind].
    by rewrite array_split_raises.
Qed.

Lemma block_work_items_shape_witness :
  (∃ items,
    block_work_items Examples.peptides3 Examples.peptides3 ["A"; "B"] 2 []
      (Block 0 1 2 1) = Ok ([] ++ items) ∧
    length items = 2) ∧
  block_work_items Examples.peptides3 Examples.peptides3 ["A"; "B"]
    (10 ^ 400) [] (Block 0 1 2 1) = Raise ValueError.
Proof.
  split.
  - destruct (block_work_items_shape Examples.peptides3 Examples.peptides3
                ["A"; "B"] 2 [] (Block 0 1 2 1))
      as [Hsome _]; [lia | discriminate | simpl; lia..|].
    destruct Hsome as (items & Hrun & Hup & Hlow & _); [simpl; lia|].
    exists items. split; [exact Hrun|]. simpl in Hup, Hlow. lia.
  - destruct (block_work_items_shape Examples.peptides3 Examples.peptides3
                ["A"; "B"] (10 ^ 400) [] (Block 0 1 2 1))
      as [_ Hnone]; [lia | discriminate | simpl; lia..|].
    apply Hnone. simpl. lia.
Defined.

(** ** Merging all the results *)

Section MergeAll.
Variable clock : nat → Z.
Variable out : string.
Variable files : gmap string string.
Variable work_items : list work_item.

Lemma merge_task_frame
    (results : list (nat * list (string * list float32)))
    (st st' : merge_state) :
  for_each (merge_result clock out files work_items) st results = Ok st' →
  index (result_df st') = index (result_df st) ∧
  ∀ i p c v,
    index (result_df st) !! i = Some p → cell (result_df st) i c = Some v →
    Forall (λ r, c ∉ r.2.*1 ∨
                 ∀ w, work_items !! r.1 = Some w → p ∉ peptides w) results →
    cell (result_df st') i c = Some v.
Proof.
  revert st. induction results as [|[n mapping] results IH]; intros st Hrun.
  - injection Hrun as <-. done.
  - cbn [for_each] in Hrun.
    destruct (merge_result clock out files work_items st (n, mapping))
      as [st1|] eqn:Hstep; [|done].
    cbn [bind] in Hrun.
    destruct (merge_columns_frame _ _ _ _ _ _ _ _ Hstep) as [Hidx1 Hframe1].
    destruct (IH _ Hrun) as [Hidx Hframe].
    split; [congruence|]. intros i p c v Hi Hcell Hall.
    apply Forall_cons in Hall as [Hout Hall].
    apply (Hframe i p c v); [by rewrite Hidx1 | | done].
    by apply (Hframe1 i p c v).
Qed.

Lemma merge_all_frame
    (results : list (list (nat * list (string * list float32))))
    (st st' : merge_state) :
  merge_results clock out files work_items st results = Ok st' →
  index (result_df st') = index (result_df st) ∧
  ∀ i p c v,
    index (result_df st) !! i = Some p → cell (result_df st) i c = Some v →
    Forall (λ r, c ∉ r.2.*1 ∨
                 ∀ w, work_items !! r.1 = Some w → p ∉ peptides w)
           (concat results) →
    cell (result_df st') i c = Some v.
Proof.
  unfold merge_results. revert st.
  induction results as [|task results IH]; intros st Hrun.
  - injection Hrun as <-. done.
  - cbn [for_each] in Hrun.
    destruct (for_each (merge_result clock out files work_items) st task)
      as [st1|] eqn:Hstep; [|done].
    cbn [bind] in Hrun.
    destruct (merge_task_frame _ _ _ Hstep) as [Hidx1 Hframe1].
    destruct (IH _ Hrun) as [Hidx Hframe].
    split; [congruence|]. intros i p c v Hi Hcell Hall.
    simpl in Hall. apply Forall_app in Hall as [Hout Hall].
    apply (Hframe i p c v); [by rewrite Hidx1 | | done].
    by apply (Hframe1 i p c v).
Qed.

End MergeAll.

(** X23: after all worker results are merged, a cell of the result matrix
    that no result touches (for every result, its column is not a key of
    the result's mapping or its peptide is not a peptide of the result's
    work item) still holds the value it had before, a reused value for
    one. *)
Theorem merge_results_frame (clock : nat → Z) (out : string)
    (files : gmap string string) (work_items : list work_item)
    (results : list (list (nat * list (string * list float32))))
    (st st' : merge_state) :
  merge_results clock out files work_items st results = Ok st' →
  index (result_df st') = index (result_df st) ∧
  ∀ i p c v,
    index (result_df st) !! i = Some p → cell (result_df st) i c = Some v →
    Forall (λ r, c ∉ r.2.*1 ∨
                 ∀ w, work_items !! r.1 = Some w → p ∉ peptides w)
           (concat results) →
    cell (result_df st') i c = Some v.
Proof. apply merge_all_frame. Qed.

Lemma merge_results_frame_witness :
  ∃ st',
    merge_results (λ _, 0%Z) "out" (col_to_filename Examples.manifest_AB)
      Examples.two_work_items Examples.merge_start
      [[(0, [("A affinity", [Num 1])])];
       [(1, [("A affinity", [Num 3])])]] = Ok st' ∧
    cell (result_df st') 1 "B affinity" = Some NaN.
Proof.
  destruct (merge_results (λ _, 0%Z) "out"
              (col_to_filename Examples.manifest_AB)
              Examples.two_work_items Examples.merge_start
              [[(0, [("A affinity", [Num 1])])];
               [(1, [("A affinity", [Num 3])])]]) as [st'|e] eqn:Hrun;
    [|vm_compute in Hrun; discriminate Hrun].
  exists st'. split; [done|].
  destruct (merge_results_frame _ _ _ _ _ _ _ Hrun) as [_ Hframe].
  apply (Hframe 1 "CCCC"); [reflexivity | reflexivity |].
  simpl. apply Forall_cons. split.
  { left. simpl. rewrite list_elem_of_singleton. discriminate. }
  apply Forall_cons. split; [|constructor].
  left. simpl. rewrite list_elem_of_singleton. discriminate.
Defined.

(** ** Merging a result twice *)

Section MergeTwice.

Lemma row_assign_idem (q : string) (lvs : list (string * float32))
    (x : float32) :
  fold_left (λ acc pv, if decide (q = pv.1) then pv.2 else acc) lvs
    (fold_left (λ acc pv, if decide (q = pv.1) then pv.2 else acc) lvs x)
  = fold_left (λ acc pv, if decide (q = pv.1) then pv.2 else acc) lvs x.
Proof.
  induction lvs as [|pv lvs IH] using rev_ind; [done|].
  rewrite !fold_left_app. simpl.
  destruct (decide (q = pv.1)); [done|]. exact IH.
Qed.

Lemma fold_set_label_row (idx : list string)
    (lvs : list (string * float32)) (col : list float32) (i : nat) :
  length col ≤ length idx →
  fold_left (set_label idx) lvs col !! i
  = match idx !! i, col !! i with
    | Some q, Some x =>
        Some (fold_left
                (λ acc pv, if decide (q = pv.1) then pv.2 else acc) lvs x)
    | _, _ => None
    end.
Proof.
  revert col. induction lvs as [|pv lvs IH]; intros col Hlen.
  - simpl. destruct (idx !! i) eqn:Hi; [by destruct (col !! i)|].
    apply lookup_ge_None in Hi. apply lookup_ge_None. lia.
  - simpl. rewrite IH.
    + unfold set_label. rewrite lookup_zip_with.
      destruct (idx !! i) as [q|]; simpl; [|done].
      destruct (col !! i) as [x|]; simpl; done.
    + unfold set_label. rewrite length_zip_with. lia.
Qed.

Lemma fold_set_label_idem (idx : list string)
    (lvs : list (string * float32)) (col : list float32) :
  length col ≤ length idx →
  fold_left (set_label idx) lvs (fold_left (set_label idx) lvs col)
  = fold_left (set_label idx) lvs col.
Proof.
  intros Hlen.
  assert (∀ l c, length c ≤ length idx →
            length (fold_left (set_label idx) l c) ≤ length idx) as Hfold.
  { induction l as [|pv l IH]; intros c Hc; simpl; [done|].
    apply IH. unfold set_label. rewrite length_zip_with. lia. }
  apply list_eq. intros i.
  rewrite (fold_set_label_row idx lvs (fold_left _ lvs col)) by by apply Hfold.
  rewrite !(fold_set_label_row idx lvs col) by done.
  destruct (idx !! i) as [q|]; [|done].
  destruct (col !! i) as [x|]; [|done].
  by rewrite row_assign_idem.
Qed.

(** A column is settled for an assignment when making the assignment
    changes nothing. *)
Lemma loc_setitem_settled (df : DataFrame) (labels : list string)
    (c : string) (vals : list float32) :
  loc_setitem df labels c vals = Ok df ↔
  ∃ vals', broadcast_to (length labels) vals = Ok vals' ∧
    forallb (λ p, bool_decide (p ∈ index df)) labels = true ∧
    c ∈ columns df ∧
    ∃ col, col_data df !! c = Some col ∧
           fold_left (set_label (index df)) (zip labels vals') col = col.
Proof.
  unfold loc_setitem. split.
  - destruct (broadcast_to (length labels) vals) as [vals'|]; [|done].
    cbn [bind].
    destruct (forallb _ labels); [|done]. simpl.
    destruct df as [idx cols cd]. simpl. intros [= Hcols Hcd].
    exists vals'. split_and!; [done | done | |].
    + destruct (bool_decide (c ∈ cols)) eqn:Hc;
        [by apply bool_decide_eq_true_1 in Hc|].
      exfalso. apply (f_equal length) in Hcols.
      rewrite length_app in Hcols. simpl in Hcols. lia.
    + assert (cd !! c = Some (fold_left (set_label idx) (zip labels vals')
                (default (replicate (length idx) NaN) (cd !! c)))) as Hc.
      { rewrite <- Hcd at 1. by rewrite lookup_insert_eq. }
      destruct (cd !! c) as [col|] eqn:Hcol; [|done]. simpl in Hc.
      exists col. split; [done|]. by injection Hc.
  - intros (vals' & -> & Hin & Hc & col & Hcol & Hfix).
    cbn [bind]. rewrite Hin. simpl.
    rewrite bool_decide_eq_true_2 by done. rewrite Hcol. simpl.
    rewrite Hfix. destruct df as [idx cols cd]. simpl in *. do 2 f_equal.
    by apply insert_id.
Qed.

Lemma loc_setitem_idem (df df1 : DataFrame) (labels : list string)
    (c : string) (vals : list float32) :
  loc_setitem df labels c vals = Ok df1 →
  (∀ old, col_data df !! c = Some old → length old ≤ length (index df)) →
  loc_setitem df1 labels c vals = Ok df1.
Proof.
  intros Hset Hold. apply loc_setitem_settled.
  unfold loc_setitem in Hset.
  destruct (broadcast_to (length labels) vals) as [vals'|]; [|done].
  cbn [bind] in Hset.
  destruct (forallb _ labels) eqn:Hin; [|done]. simpl in Hset.
  injection Hset as <-. simpl. exists vals'. split_and!; [done | done | |].
  - destruct (bool_decide (c ∈ columns df)) eqn:Hc.
    + by apply bool_decide_eq_true_1 in Hc.
    + apply elem_of_app. right. by apply list_elem_of_singleton.
  - eexists. rewrite lookup_insert_eq. split; [done|].
    apply fold_set_label_idem.
    destruct (col_data df !! c) as [old|]; simpl.
    + by apply Hold.
    + by rewrite length_replicate.
Qed.

Lemma loc_setitem_settled_other (df df' : DataFrame)
    (labels labels' : list string) (c c' : string)
    (vals vals' : list float32) :
  loc_setitem df labels c vals = Ok df →
  loc_setitem df labels' c' vals' = Ok df' → c ≠ c' →
  loc_setitem df' labels c vals = Ok df'.
Proof.
  intros Hfix Hset Hne.
  apply loc_setitem_settled in Hfix as (v & Hb & Hin & Hc & col & Hcol & Hf).
  apply loc_setitem_settled.
  destruct (loc_setitem_shape _ _ _ _ _ Hset) as (_ & Hidx & _ & Hother).
  rewrite Hidx. exists v. split_and!; [done | done | |].
  - apply loc_setitem_inv in Hset as (? & _ & _ & _ & ->). simpl.
    destruct (bool_decide _); [done|]. apply elem_of_app. by left.
  - exists col. split; [|done]. by rewrite Hother.
Qed.

Lemma loc_setitem_lengths (df df' : DataFrame) (labels : list string)
    (c : string) (vals : list float32) :
  loc_setitem df labels c vals = Ok df' →
  (∀ c0 old, col_data df !! c0 = Some old →
             length old = length (index df)) →
  ∀ c0 old, col_data df' !! c0 = Some old →
            length old = length (index df').
Proof.
  intros Hset Hlens c0 old.
  destruct (loc_setitem_shape _ _ _ _ _ Hset) as (_ & Hidx & _ & Hother).
  rewrite Hidx. destruct (decide (c0 = c)) as [->|Hne].
  - apply loc_setitem_inv in Hset as (? & _ & _ & _ & ->). simpl.
    rewrite lookup_insert_eq. intros [= <-].
    apply fold_set_label_length.
    destruct (col_data df !! c) as [o|] eqn:Ho; simpl.
    + by apply (Hlens c).
    + by rewrite length_replicate.
  - rewrite Hother by done. apply Hlens.
Qed.

Variable clock : nat → Z.
Variable out : string.
Variable files : gmap string string.
Variable work_items : list work_item.

(** After a first pass every column of the mapping is settled. *)
Lemma merge_columns_settle (n : nat) (w : work_item)
    (mapping : list (string * list float32)) (st st1 : merge_state) :
  for_each (merge_column clock out files work_items n) st mapping = Ok st1 →
  work_items !! n = Some w → NoDup mapping.*1 →
  (∀ c old, col_data (result_df st) !! c = Some old →
            length old = length (index (result_df st))) →
  ∀ c vals, (c, vals) ∈ mapping →
    loc_setitem (result_df st1) (peptides w) c vals = Ok (result_df st1).
Proof.
  intros Hrun Hw. revert st Hrun.
  induction mapping as [|[c0 v0] mapping IH]; intros st Hrun Hnd Hlens c vals Hin.
  - by apply not_elem_of_nil in Hin.
  - cbn [for_each] in Hrun.
    destruct (merge_column clock out files work_items n st (c0, v0))
      as [sta|] eqn:Hstep; [|done].
    cbn [bind] in Hrun.
    destruct (merge_column_frame _ _ _ _ _ _ _ _ _ Hstep) as (w' & Hw' & Hset).
    rewrite Hw in Hw'. injection Hw' as <-.
    simpl in Hnd. apply NoDup_cons in Hnd as [Hfresh Hnd].
    pose proof (loc_setitem_lengths _ _ _ _ _ Hset Hlens) as Hlens'.
    apply elem_of_cons in Hin as [[= -> ->]|Hin];
      [|by apply (IH sta Hrun Hnd Hlens')].
    assert (loc_setitem (result_df sta) (peptides w) c0 v0
            = Ok (result_df sta)) as Hfix.
    { apply (loc_setitem_idem _ _ _ _ _ Hset).
      intros old Hold. rewrite (Hlens c0 old Hold). done. }
    clear IH Hstep Hset Hlens Hlens' st.
    revert sta Hrun Hfix.
    induction mapping as [|[c1 v1] mapping IH]; intros sta Hrun Hfix.
    + by injection Hrun as <-.
    + cbn [for_each] in Hrun.
      destruct (merge_column clock out files work_items n sta (c1, v1))
        as [stb|] eqn:Hstep; [|done].
      cbn [bind] in Hrun.
      destruct (merge_column_frame _ _ _ _ _ _ _ _ _ Hstep)
        as (w' & Hw' & Hset).
      rewrite Hw in Hw'. injection Hw' as <-.
      simpl in Hfresh, Hnd. apply NoDup_cons in Hnd as [_ Hnd].
      apply (IH ltac:(by intros ?; apply Hfresh; right) Hnd stb Hrun).
      apply (loc_setitem_settled_other _ _ _ _ _ _ _ _ Hfix Hset).
      intros ->. apply Hfresh. left.
Qed.

(** A pass over settled columns leaves the result matrix as it is. *)
Lemma merge_columns_settled (n : nat) (w : work_item)
    (mapping : list (string * list float32)) (st1 st2 : merge_state) :
  for_each (merge_column clock out files work_items n) st1 mapping = Ok st2 →
  work_items !! n = Some w →
  (∀ c vals, (c, vals) ∈ mapping →
     loc_setitem (result_df st1) (peptides w) c vals = Ok (result_df st1)) →
  result_df st2 = result_df st1.
Proof.
  intros Hrun Hw. revert st1 Hrun.
  induction mapping as [|[c0 v0] mapping IH]; intros st1 Hrun Hfix.
  - by injection Hrun as <-.
  - cbn [for_each] in Hrun.
    destruct (merge_column clock out files work_items n st1 (c0, v0))
      as [sta|] eqn:Hstep; [|done].
    cbn [bind] in Hrun.
    destruct (merge_column_frame _ _ _ _ _ _ _ _ _ Hstep) as (w' & Hw' & Hset).
    rewrite Hw in Hw'. injection Hw' as <-.
    assert (result_df sta = result_df st1) as Hsame.
    { rewrite (Hfix c0 v0) in Hset by left. by injection Hset. }
    rewrite (IH sta Hrun); [done|].
    intros c vals Hin. rewrite Hsame. apply Hfix. by right.
Qed.

End MergeTwice.

(** X24: merging the same result a second time leaves the result matrix
    as the first merge left it. *)
Theorem merge_result_idempotent (clock : nat → Z) (out : string)
    (files : gmap string string) (work_items : list work_item)
    (st st1 st2 : merge_state) (work_item_num : nat)
    (col_to_predictions : list (string * list float32)) :
  merge_result clock out files work_items st
    (work_item_num, col_to_predictions) = Ok st1 →
  merge_result clock out files work_items st1
    (work_item_num, col_to_predictions) = Ok st2 →
  NoDup col_to_predictions.*1 →
  (∀ c old, col_data (result_df st) !! c = Some old →
            length old = length (index (result_df st))) →
  result_df st2 = result_df st1.
Proof.
  unfold merge_result. simpl. intros Hrun1 Hrun2 Hnd Hlens.
  destruct col_to_predictions as [|[c0 v0] mapping].
  - by injection Hrun2 as <-.
  - assert (∃ w, work_items !! work_item_num = Some w) as [w Hw].
    { cbn [for_each] in Hrun1.
      destruct (merge_column clock out files work_items work_item_num st
                  (c0, v0)) as [sta|] eqn:Hstep; [|done].
      destruct (merge_column_frame _ _ _ _ _ _ _ _ _ Hstep) as (w & Hw & _).
      by exists w. }
    apply (merge_columns_settled clock out files work_items work_item_num w
             ((c0, v0) :: mapping) st1 st2 Hrun2 Hw).
    by apply (merge_columns_settle clock out files work_items work_item_num w
                ((c0, v0) :: mapping) st st1).
Qed.

Lemma merge_result_idempotent_witness :
  ∃ st1 st2,
    merge_result (λ _, 1000%Z) "out" (col_to_filename Examples.manifest_AB)
      Examples.two_work_items Examples.merge_start
      (0, [("A affinity", [Num 1])]) = Ok st1 ∧
    merge_result (λ _, 1000%Z) "out" (col_to_filename Examples.manifest_AB)
      Examples.two_work_items st1
      (0, [("A affinity", [Num 1])]) = Ok st2 ∧
    result_df st2 = result_df st1.
Proof.
  destruct (merge_result (λ _, 1000%Z) "out"
              (col_to_filename Examples.manifest_AB)
              Examples.two_work_items Examples.merge_start
              (0, [("A affinity", [Num 1])])) as [st1|e] eqn:Hrun1;
    [|vm_compute in Hrun1; discriminate Hrun1].
  destruct (merge_result (λ _, 1000%Z) "out"
              (col_to_filename Examples.manifest_AB)
              Examples.two_work_items st1
              (0, [("A affinity", [Num 1])])) as [st2|e] eqn:Hrun2.
  - exists st1, st2. split; [done|]. split; [done|].
    apply (merge_result_idempotent _ _ _ _ _ _ _ _ _ Hrun1 Hrun2).
    + apply NoDup_singleton.
    + intros c old Hold. unfold Examples.merge_start in Hold |- *.
      cbn [result_df] in Hold |- *.
      rewrite nan_frame_lookup in Hold. case_decide; [|done].
      injection Hold as <-. reflexivity.
  - vm_compute in Hrun1. injection Hrun1 as <-.
    vm_compute in Hrun2. discriminate Hrun2.
Defined.
